(** * pygrim: the term model (expr.py) and the inference and
    simplification engine (brain.py), embedded in Rocq.

    Python objects become Rocq data, methods become functions, and the
    methods of [Brain] that mutate the session or may raise live in a
    state-and-exception monad.  Calls through [self] are open recursion
    over a record of methods, closed by a fuel-indexed fixpoint. *)

From Stdlib Require Import ZArith List String Ascii Bool Lia QArith.
Import ListNotations.
Local Open Scope string_scope.
Local Open Scope Z_scope.
Set Warnings "-register-all".

(* ================================================================== *)
(** * Outcomes of a Python call *)

(** The exception classes the embedded code can raise. *)
Inductive exn : Type :=
| AssertionError
| ValueError
| TypeError
| AttributeError
| NotImplementedError
| ImportError
| ZeroDivisionError
| IndexError
| KeyError.

(** Why the embedding stopped before the Python code did. *)
Inductive stop : Type :=
| OutOfFuel                 (* the call-depth bound of the embedding was hit *)
| NotEmbedded (what : string). (* a code path that is not translated *)

Inductive outcome (A : Type) : Type :=
| Ret (a : A)
| Raise (e : exn)
| Stop (r : stop).
Arguments Ret {A} a.
Arguments Raise {A} e.
Arguments Stop {A} r.

Definition returns {A} (o : outcome A) : bool :=
  match o with Ret _ => true | _ => false end.

Definition raises {A} (o : outcome A) : bool :=
  match o with Raise _ => true | _ => false end.

(* ================================================================== *)
(** * expr.py: class Expr *)

(** An [Expr] object has exactly one of [_symbol], [_integer], [_text],
    [_args] set.  [_args] is the tuple (head, arg1, ..., argn); the
    constructor asserts that it is not empty, so the head is kept apart
    from the argument list. *)
Inductive Expr : Type :=
| Symbol (_symbol : string)
| Integer (_integer : Z)
| Text (_text : string)
| Call (head_ : Expr) (args_ : list Expr).

(** Structural induction that also gives the hypothesis for the
    arguments. *)
Fixpoint Expr_ind' (P : Expr -> Prop)
    (HS : forall s, P (Symbol s))
    (HI : forall z, P (Integer z))
    (HT : forall s, P (Text s))
    (HC : forall h l, P h -> Forall P l -> P (Call h l))
    (e : Expr) {struct e} : P e :=
  match e with
  | Symbol s => HS s
  | Integer z => HI z
  | Text s => HT s
  | Call h l =>
      HC h l (Expr_ind' P HS HI HT HC h)
        ((fix go (l : list Expr) : Forall P l :=
            match l with
            | [] => Forall_nil P
            | x :: r => Forall_cons x (Expr_ind' P HS HI HT HC x) (go r)
            end) l)
  end.

(** [Expr.__eq__]: same kind of node and equal content. *)
Fixpoint Expr_eqb (a b : Expr) {struct a} : bool :=
  match a, b with
  | Symbol s, Symbol t => String.eqb s t
  | Integer x, Integer y => Z.eqb x y
  | Text s, Text t => String.eqb s t
  | Call h l, Call h' l' =>
      Expr_eqb h h' &&
      (fix go (l l' : list Expr) {struct l} : bool :=
         match l, l' with
         | [], [] => true
         | x :: r, y :: r' => Expr_eqb x y && go r r'
         | _, _ => false
         end) l l'
  | _, _ => false
  end.

Fixpoint list_eqb (l l' : list Expr) : bool :=
  match l, l' with
  | [], [] => true
  | x :: r, y :: r' => Expr_eqb x y && list_eqb r r'
  | _, _ => false
  end.

Declare Scope expr_scope.
Delimit Scope expr_scope with expr.
Infix "==" := Expr_eqb (at level 70, no associativity) : expr_scope.
Local Open Scope expr_scope.

(** [Expr.__ne__]. *)
Definition Expr_neb (a b : Expr) : bool := negb (a == b).
Infix "!=" := Expr_neb (at level 70, no associativity) : expr_scope.

Definition is_atom (e : Expr) : bool :=
  match e with Call _ _ => false | _ => true end.

Definition is_symbol (e : Expr) : bool :=
  match e with Symbol _ => true | _ => false end.

Definition is_integer (e : Expr) : bool :=
  match e with Integer _ => true | _ => false end.

Definition is_text (e : Expr) : bool :=
  match e with Text _ => true | _ => false end.

(** [Expr.head] and [Expr.args]: [None] on an atom. *)
Definition head (e : Expr) : option Expr :=
  match e with Call h _ => Some h | _ => None end.

Definition args (e : Expr) : option (list Expr) :=
  match e with Call _ l => Some l | _ => None end.

(** [e.head() == h], where the left side may be Python's [None]:
    [None == h] is false for every [Expr] h. *)
Definition head_is (e h : Expr) : bool :=
  match head e with Some g => g == h | None => false end.

(** [e.head() in (h1, ..., hn)]. *)
Definition head_in (e : Expr) (hs : list Expr) : bool :=
  existsb (head_is e) hs.

(** [e in (a1, ..., an)] for a tuple, list or set of expressions. *)
Definition Expr_in (e : Expr) (l : list Expr) : bool :=
  existsb (Expr_eqb e) l.

(** ** Builtin symbols ([inject_builtin]) used by the embedded code *)

Definition True_ := Symbol "True_".
Definition False_ := Symbol "False_".
Definition Undefined := Symbol "Undefined".
Definition Infinity := Symbol "Infinity".
Definition UnsignedInfinity := Symbol "UnsignedInfinity".
Definition List_ := Symbol "List".
Definition Tuple := Symbol "Tuple".
Definition Set_ := Symbol "Set".
Definition Union := Symbol "Union".
Definition Intersection := Symbol "Intersection".
Definition SetMinus := Symbol "SetMinus".
Definition Not := Symbol "Not".
Definition And := Symbol "And".
Definition Or := Symbol "Or".
Definition Implies := Symbol "Implies".
Definition Element := Symbol "Element".
Definition NotElement := Symbol "NotElement".
Definition Subset := Symbol "Subset".
Definition PP := Symbol "PP".
Definition ZZ := Symbol "ZZ".
Definition QQ := Symbol "QQ".
Definition RR := Symbol "RR".
Definition CC := Symbol "CC".
Definition HH := Symbol "HH".
Definition AlgebraicNumbers := Symbol "AlgebraicNumbers".
Definition ZZGreaterEqual := Symbol "ZZGreaterEqual".
Definition ZZLessEqual := Symbol "ZZLessEqual".
Definition Range := Symbol "Range".
Definition ClosedInterval := Symbol "ClosedInterval".
Definition OpenInterval := Symbol "OpenInterval".
Definition ClosedOpenInterval := Symbol "ClosedOpenInterval".
Definition OpenClosedInterval := Symbol "OpenClosedInterval".
Definition Equal := Symbol "Equal".
Definition NotEqual := Symbol "NotEqual".
Definition Greater := Symbol "Greater".
Definition GreaterEqual := Symbol "GreaterEqual".
Definition Less := Symbol "Less".
Definition LessEqual := Symbol "LessEqual".
Definition Pos := Symbol "Pos".
Definition Neg := Symbol "Neg".
Definition Add := Symbol "Add".
Definition Sub := Symbol "Sub".
Definition Mul := Symbol "Mul".
Definition Div := Symbol "Div".
Definition Pow := Symbol "Pow".
Definition Sign := Symbol "Sign".
Definition Abs := Symbol "Abs".
Definition Re := Symbol "Re".
Definition Im := Symbol "Im".
Definition Sqrt := Symbol "Sqrt".
Definition Log := Symbol "Log".
Definition Exp := Symbol "Exp".
Definition Sin := Symbol "Sin".
Definition Cos := Symbol "Cos".
Definition Tan := Symbol "Tan".
Definition Sec := Symbol "Sec".
Definition Cot := Symbol "Cot".
Definition Csc := Symbol "Csc".
Definition Sinh := Symbol "Sinh".
Definition Cosh := Symbol "Cosh".
Definition Tanh := Symbol "Tanh".
Definition Pi := Symbol "Pi".
Definition ConstE := Symbol "ConstE".
Definition ConstGamma := Symbol "ConstGamma".
Definition ConstI := Symbol "ConstI".
Definition GoldenRatio := Symbol "GoldenRatio".
Definition ConstCatalan := Symbol "ConstCatalan".
Definition Factorial := Symbol "Factorial".
Definition Gamma := Symbol "Gamma".
Definition Erf := Symbol "Erf".
Definition Erfc := Symbol "Erfc".
Definition Erfi := Symbol "Erfi".
Definition RiemannZeta := Symbol "RiemannZeta".
Definition Sum := Symbol "Sum".
Definition For := Symbol "For".
Definition Formula := Symbol "Formula".
Definition ID := Symbol "ID".
Definition Assumptions := Symbol "Assumptions".
Definition Variables := Symbol "Variables".

(** ** Python values accepted by the constructor *)

Inductive PyVal : Type :=
| PyNone
| PyExpr (e : Expr)
| PyStr (s : string)
| PyInt (z : Z)
| PyBool (b : bool)
| PyList (l : list PyVal)
| PyTuple (l : list PyVal)
| PyFloat                    (* float and complex: conversion not embedded *)
| PyObject.                  (* a value of any other type *)

(** Evaluates a generator of fallible conversions, left to right. *)
Fixpoint collect {A} (l : list (outcome A)) : outcome (list A) :=
  match l with
  | [] => Ret []
  | o :: r =>
      match o with
      | Ret a =>
          match collect r with
          | Ret l' => Ret (a :: l')
          | Raise e => Raise e
          | Stop s => Stop s
          end
      | Raise e => Raise e
      | Stop s => Stop s
      end
  end.

(** [Expr(arg)]: the constructor with [symbol_name] and [call] left at
    their default [None]. *)
Fixpoint Expr_of (arg : PyVal) : outcome Expr :=
  match arg with
  | PyExpr e => Ret e
  | PyStr s => Ret (Text s)
  | PyBool b => Ret (if b then True_ else False_)
  | PyInt z => Ret (Integer z)
  | PyList l =>
      match collect (map Expr_of l) with
      | Ret xs => Ret (Call List_ xs)
      | Raise e => Raise e
      | Stop s => Stop s
      end
  | PyTuple l =>
      match collect (map Expr_of l) with
      | Ret xs => Ret (Call Tuple xs)
      | Raise e => Raise e
      | Stop s => Stop s
      end
  | PyFloat => Stop (NotEmbedded "Expr.__new__: float and complex")
  | PyNone | PyObject => Raise ValueError
  end.

(** [Expr.__new__(arg, symbol_name, call)].  The tests are made in the
    order of the source: an [Expr] argument first, then [symbol_name],
    then text and integers, then [call]. *)
Definition Expr_new (arg : PyVal) (symbol_name : option string)
    (call : option (list PyVal)) : outcome Expr :=
  match arg with
  | PyExpr e => Ret e
  | _ =>
      match symbol_name with
      | Some s => Ret (Symbol s)
      | None =>
          match arg with
          | PyStr _ | PyInt _ | PyBool _ => Expr_of arg
          | _ =>
              match call with
              | Some c =>
                  match collect (map Expr_of c) with
                  | Ret [] => Raise AssertionError   (* assert len(self._args) >= 1 *)
                  | Ret (h :: l) => Ret (Call h l)
                  | Raise e => Raise e
                  | Stop s => Stop s
                  end
              | None => Expr_of arg
              end
          end
      end
  end.

(** [Expr.__call__(self, *args)] is [Expr(call=((self,) + args))]. *)
Definition Expr_call (self : Expr) (args : list PyVal) : outcome Expr :=
  Expr_new PyNone None (Some (PyExpr self :: args)).

(** [head(a1, ..., an)] on arguments that are already expressions. *)
Definition app (h : Expr) (l : list Expr) : Expr := Call h l.

Definition app1 (h a : Expr) : Expr := Call h [a].
Definition app2 (h a b : Expr) : Expr := Call h [a; b].

(** [Expr.replace(rules)] with [semantic=False]: [rules] is a dict from
    expressions to expressions. *)
Fixpoint dict_get {V} (d : list (Expr * V)) (k : Expr) : option V :=
  match d with
  | [] => None
  | (k', v) :: r => if k' == k then Some v else dict_get r k
  end.

Fixpoint dict_del {V} (d : list (Expr * V)) (k : Expr) : list (Expr * V) :=
  match d with
  | [] => []
  | (k', v) :: r => if k' == k then dict_del r k else (k', v) :: dict_del r k
  end.

(** [d[k] = v]. *)
Definition dict_set {V} (d : list (Expr * V)) (k : Expr) (v : V)
  : list (Expr * V) :=
  (k, v) :: dict_del d k.

Fixpoint replace (rules : list (Expr * Expr)) (self : Expr) : Expr :=
  match dict_get rules self with
  | Some v => v
  | None =>
      match self with
      | Call h l =>
          match rules with
          | [] => self
          | _ => Call (replace rules h) (map (replace rules) l)
          end
      | _ => self
      end
  end.

(** [Expr.head_args_flattened(head)], as the list it generates. *)
Fixpoint head_args_flattened (h : Expr) (self : Expr) : list Expr :=
  match self with
  | Call g l =>
      if g == h then flat_map (head_args_flattened h) l else [self]
  | _ => [self]
  end.

(** [Expr.get_arg_with_head(head)]; on an atom [self.args()] is [None]
    and the loop raises. *)
Definition get_arg_with_head (self h : Expr) : outcome (option Expr) :=
  match self with
  | Call _ l =>
      Ret (find (fun arg => negb (is_atom arg) && head_is arg h) l)
  | _ => Raise TypeError
  end.

(** [Expr.id]: [id._args[1]._text] of the [ID] argument, which is
    [None] when that argument is not a text atom. *)
Definition Expr_id (self : Expr) : outcome (option string) :=
  match get_arg_with_head self ID with
  | Ret (Some (Call _ (x :: _))) =>
      Ret (match x with Text s => Some s | _ => None end)
  | Ret (Some (Call _ [])) => Raise IndexError
  | Ret (Some _) => Raise AttributeError
  | Ret None => Raise AttributeError
  | Raise e => Raise e
  | Stop s => Stop s
  end.

(* ================================================================== *)
(** * brain.py: data of a session *)

(** [int.bit_length]: the number of binary digits of the absolute value. *)
Definition bit_length (v : Z) : Z :=
  match v with
  | Z0 => 0
  | Zpos p | Zneg p => Z.of_nat (Pos.size_nat p)
  end.

(** The fields of a [Brain] object that are fixed once [__init__] has
    run.  [is_fungrim] tells the class of the object ([FungrimBrain] or
    plain [Brain]); [expr_db] and [match_db] exist only on a
    [FungrimBrain].  A key of [match_db] is [lhs.head()], which is
    [None] when the left-hand side is an atom; an entry id is [None]
    when the [ID] argument is not a text atom. *)
Record Brain : Type := {
  is_fungrim : bool;
  inferences : list Expr;
  penalty : list (Expr * Z);
  expr_db : list (Expr * Expr);
  match_db : list (option Expr * list (option string))
}.

(** The global budgets of [pygrim.algebraic]. *)
Record Limits : Type := { degree_limit : Z; bits_limit : Z }.

(** What a call can change: the backend budgets (process-wide) and the
    memoization cache of the session.  A cache value [None] marks a
    term whose simplification is in progress. *)
Record Store : Type := {
  limits : Limits;
  simple_cache : list (Expr * option Expr)
}.

(** [Brain.complexity]. *)
Fixpoint complexity (penalty : list (Expr * Z)) (expr : Expr) {struct expr} : Z :=
  match dict_get penalty expr with
  | Some p => p
  | None =>
      match expr with
      | Integer v => 1 + bit_length v + (if v <? 0 then 1 else 0)
      | Call h l =>
          let a := complexity penalty h in
          let b := (fix sum (l : list Expr) : Z :=
                      match l with
                      | [] => 0
                      | arg :: r => complexity penalty arg + sum r
                      end) l in
          a + 2 * b + 1
      | _ =>
          if Expr_in expr [True_; False_] then 1
          else if Expr_in expr [Add; Sub; Neg; Pos; Mul] then 10
          else if Expr_in expr [Div; Sqrt; GoldenRatio; ConstI] then 20
          else if Expr_in expr [Pi; ConstE; Pow; Exp; Log; Sin; Cos; Tan;
                                Sinh; Cosh; Tanh] then 100
          else if Expr_in expr [Gamma; Erf; Erfc; Erfi; RiemannZeta;
                                ConstGamma; ConstCatalan] then 1000
          else 1000000
      end
  end.

(** [sum(self.complexity(arg) for arg in args)]. *)
Fixpoint sum_complexity (penalty : list (Expr * Z)) (l : list Expr) : Z :=
  match l with
  | [] => 0
  | arg :: r => complexity penalty arg + sum_complexity penalty r
  end.

(* ================================================================== *)
(** * External collaborators *)

(** What a call into a library outside the two source files gives
    back: a value or an exception. *)
Inductive result (A : Type) : Type :=
| Ok (a : A)
| Err (e : exn).
Arguments Ok {A} a.
Arguments Err {A} e.

(** [pygrim.numeric.neval] with [as_arb=True] and the python-flint ball
    types.  [arb_le0 v] is the Python test [v <= 0] and so on; a test on
    a ball holds when it holds for every point of the ball. *)
Record NumericOracle : Type := {
  arb : Type;
  acb : Type;
  neval : Expr -> result (arb + acb);
  arb_is_finite : arb -> bool;
  acb_is_finite : acb -> bool;
  acb_of_arb : arb -> acb;
  acb_real : acb -> arb;
  acb_imag : acb -> arb;
  arb_eq0 : arb -> bool;
  arb_ne0 : arb -> bool;
  arb_ge0 : arb -> bool;
  arb_gt0 : arb -> bool;
  arb_le0 : arb -> bool;
  arb_lt0 : arb -> bool;
  acb_ne0 : acb -> bool;
  acb_contains_integer : acb -> bool;
  acb_overlaps : acb -> acb -> bool;
  acb_contains0 : acb -> bool
}.

Inductive alg_unop : Type := ANeg | ASqrt | ASgn | AReal | AImag | AAbs.
Inductive alg_binop : Type := AAdd | ASub | AMul | ADiv | APow.
Inductive alg_trig : Type :=
| AExpPiI | ACosPi | ASinPi | ATanPi | ACotPi | ASecPi | ACscPi.

(** [pygrim.algebraic.alg]: exact algebraic numbers.  Every operation
    reads the current budgets and may raise.  A binary operation can
    meet Python's [None] as one operand (see [evaluate_alg]). *)
Record AlgBackend : Type := {
  alg : Type;
  alg_of_int : Limits -> Z -> result alg;
  alg_i : Limits -> result alg;
  alg_phi : Limits -> result alg;
  alg_unary : Limits -> alg_unop -> alg -> result alg;
  alg_binary : Limits -> alg_binop -> option alg -> option alg -> result alg;
  alg_is_rational : Limits -> alg -> result bool;
  alg_fmpq : Limits -> alg -> result Q;
  alg_trig_pi : Limits -> alg_trig -> Q -> result alg;
  alg_eq : Limits -> alg -> alg -> result bool
}.

(** Everything the two source files take from elsewhere.
    [round_sqrt v] is [int(round(v ** 0.5))], a floating-point
    computation; [pairs_order l] is the order in which Python iterates
    over the set of the pairs [l], which depends on hash values;
    [all_entries] is the list filled by [make_entry] when the formula
    corpus is loaded and [entries_dict] is
    [pygrim.formulas.entries_dict]. *)
Record Platform : Type := {
  oracle : NumericOracle;
  backend : AlgBackend;
  round_sqrt : Z -> Z;
  pairs_order : list (Expr * option string) -> list (Expr * option string);
  all_entries : list Expr;
  entries_dict : list (string * Expr)
}.

(* ================================================================== *)
(** * The monad of method calls *)

Definition St (S A : Type) : Type := S -> outcome A * S.

Definition ret {S A} (a : A) : St S A := fun s => (Ret a, s).
Definition raise {S A} (e : exn) : St S A := fun s => (Raise e, s).
Definition halt {S A} (r : stop) : St S A := fun s => (Stop r, s).
Definition lift {S A} (o : outcome A) : St S A := fun s => (o, s).

Definition bind {S A B} (m : St S A) (k : A -> St S B) : St S B :=
  fun s =>
    match m s with
    | (Ret a, s') => k a s'
    | (Raise e, s') => (Raise e, s')
    | (Stop r, s') => (Stop r, s')
    end.

Notation "'do' x <- m ; k" := (bind m (fun x => k))
  (at level 10, x name, m at level 100, k at level 200,
   format "'[v' 'do'  x  <-  m ; '/' k ']'").
Notation "'do' ' p <- m ; k" :=
  (bind m (fun x => match x with p => k end))
  (at level 10, p pattern, m at level 100, k at level 200).

Definition of_result {S A} (r : result A) : St S A :=
  match r with Ok a => ret a | Err e => raise e end.

(** [try: m  except (e1, ..., en): h]. *)
Definition try_except {S A} (m : St S A) (caught : exn -> bool)
    (h : St S A) : St S A :=
  fun s =>
    match m s with
    | (Raise e, s') => if caught e then h s' else (Raise e, s')
    | r => r
    end.

(** [try: m  finally: f].  The clean-up also runs when the embedding
    stops inside [m]. *)
Definition try_finally {S A} (m : St S A) (f : St S unit) : St S A :=
  fun s =>
    let (o, s') := m s in
    match f s' with
    | (Ret _, s'') => (o, s'')
    | (Raise e, s'') => (Raise e, s'')
    | (Stop r, s'') => (Stop r, s'')
    end.

(** [[f(x) for x in l]]. *)
Fixpoint mapM {S A B} (f : A -> St S B) (l : list A) : St S (list B) :=
  match l with
  | [] => ret []
  | x :: r => do y <- f x; do ys <- mapM f r; ret (y :: ys)
  end.

(** [all(f(x) for x in l)] and [any(f(x) for x in l)]: the generator
    is consumed up to the first element that decides. *)
Fixpoint allM {S A} (f : A -> St S bool) (l : list A) : St S bool :=
  match l with
  | [] => ret true
  | x :: r => do b <- f x; if b then allM f r else ret false
  end.

Fixpoint anyM {S A} (f : A -> St S bool) (l : list A) : St S bool :=
  match l with
  | [] => ret false
  | x :: r => do b <- f x; if b then ret true else anyM f r
  end.

(** [a and b], [a or b] on conditions, with Python's short circuit. *)
Definition andM {S} (a b : St S bool) : St S bool :=
  do x <- a; if x then b else ret false.
Definition orM {S} (a b : St S bool) : St S bool :=
  do x <- a; if x then ret true else b.
Infix "&&&" := andM (at level 40, left associativity).
Infix "|||" := orM (at level 50, left associativity).

(** ** Bodies with early [return]

    A block is a run of statements of a function body; its value is
    [Some v] when a [return v] was executed and [None] when control
    falls out of its end. *)
Definition block (S A : Type) : Type := St S (option A).

Definition fall {S A} : block S A := ret None.
Definition return_ {S A} (v : A) : block S A := ret (Some v).
Definition returnM {S A} (m : St S A) : block S A := do v <- m; ret (Some v).

Definition seqb {S A} (b1 b2 : block S A) : block S A :=
  do r <- b1; match r with Some v => ret (Some v) | None => b2 end.
Infix ";;" := seqb (at level 61, right associativity).

(** [if c: body] with a pure and with an effectful condition. *)
Definition If {S A} (c : bool) (body : block S A) : block S A :=
  if c then body else fall.
Definition IfM {S A} (c : St S bool) (body : block S A) : block S A :=
  do b <- c; if b then body else fall.

(** A whole function body: falling out of the end returns [dflt]
    (Python's [None] for the predicates). *)
Definition body {S A} (b : block S A) (dflt : A) : St S A :=
  do r <- b; match r with Some v => ret v | None => ret dflt end.

(** ** Three-valued answers *)

(** [True], [False] or [None]. *)
Definition tern : Type := option bool.
Definition TTrue : tern := Some true.
Definition TFalse : tern := Some false.
Definition Unknown : tern := None.

(** Truth value of an answer in a condition. *)
Definition truthy (t : tern) : bool :=
  match t with Some true => true | _ => false end.

(** [t == False] and [t == True]. *)
Definition is_False (t : tern) : bool :=
  match t with Some false => true | _ => false end.
Definition is_True (t : tern) : bool := truthy t.

(** [if m:] and [if m == False:] on the answer of a predicate call. *)
Definition holds {S} (m : St S tern) : St S bool := do t <- m; ret (truthy t).
Definition refuted {S} (m : St S tern) : St S bool := do t <- m; ret (is_False t).

(** Tuple unpacking: [x, = l] and [x, y = l]. *)
Definition unpack1 {S} (l : list Expr) : St S Expr :=
  match l with [x] => ret x | _ => raise ValueError end.
Definition unpack2 {S} (l : list Expr) : St S (Expr * Expr) :=
  match l with [x; y] => ret (x, y) | _ => raise ValueError end.
Definition unpack3 {S} (l : list Expr) : St S (Expr * Expr * Expr) :=
  match l with [x; y; z] => ret (x, y, z) | _ => raise ValueError end.

(** [x.args()] after a test on [x.head()] has shown [x] to be an
    application. *)
Definition args_of (x : Expr) : list Expr :=
  match x with Call _ l => l | _ => [] end.

(** Reads and writes of the store. *)
Definition get_limits : St Store Limits := fun s => (Ret (limits s), s).

(** [alg_set_degree_limit(d)] and [alg_set_bits_limit(b)]. *)
Definition alg_set_degree_limit (d : Z) : St Store unit :=
  fun s => (Ret tt, {| limits := {| degree_limit := d;
                                   bits_limit := bits_limit (limits s) |};
                      simple_cache := simple_cache s |}).
Definition alg_set_bits_limit (b : Z) : St Store unit :=
  fun s => (Ret tt, {| limits := {| degree_limit := degree_limit (limits s);
                                   bits_limit := b |};
                      simple_cache := simple_cache s |}).

(** [self.simple_cache.get(expr)] and [self.simple_cache[expr] = v]. *)
Definition cache_get (e : Expr) : St Store (option (option Expr)) :=
  fun s => (Ret (dict_get (simple_cache s) e), s).
Definition cache_set (e : Expr) (v : option Expr) : St Store unit :=
  fun s => (Ret tt, {| limits := limits s;
                      simple_cache := dict_set (simple_cache s) e v |}).

(** [range(a, b + 1)]. *)
Definition range_incl (a b : Z) : list Z :=
  map (fun k => a + Z.of_nat k) (seq 0 (Z.to_nat (b + 1 - a))).

(** The float literal [1e100], exactly. *)
Definition float_1e100 : Z :=
  10000000000000000159028911097599180468360808563945281389781327557747838772170381060813469985856815104.

(** The names [n] for which [hasattr(self, "simple_" + n)] holds and
    whose method is not translated here. *)
Definition other_simple_methods : list string :=
  ["Exp_two_pi_i_k_n"; "Mul"; "Div"; "Pow"; "Exp"; "Sin"; "Cos"; "Abs"; "Re";
   "Im"; "Arg"; "Floor"; "Ceil"; "DirichletCharacter"; "Zeros"; "Det";
   "Spectrum"; "SingularValues"; "Where"; "RiemannZeta"; "Cases"; "AiryAi";
   "AiryBi"; "Erf"; "Erfc"; "HurwitzZeta"; "DigammaFunction"; "Gamma";
   "Factorial"; "RisingFactorial"; "hypergeometric"; "hypergeometric_2";
   "Hypergeometric0F1"; "Hypergeometric0F1Regularized"; "Hypergeometric1F1";
   "Hypergeometric1F1Regularized"; "Hypergeometric2F1";
   "Hypergeometric2F1Regularized"; "HypergeometricPFQ";
   "HypergeometricPFQRegularized"; "ModularJ"; "DedekindEtaEpsilon";
   "ModularLambda"; "DedekindEta"; "EllipticK"; "EllipticE"].

(* ================================================================== *)
(** * brain.py: class Brain *)

Section Methods.

Context (P : Platform) (B : Brain).

Local Abbreviation M := (St Store) (only parsing).
Notation "'acb_'" := (acb (oracle P)).
Notation "'arb_'" := (arb (oracle P)).
Notation "'alg_'" := (alg (backend P)).

(** [e in self.inferences]. *)
Definition known (e : Expr) : bool := Expr_in e (inferences B).

Definition positive_real_constants : list Expr :=
  [Pi; ConstE; ConstGamma; ConstCatalan; GoldenRatio].
Definition complex_constants : list Expr :=
  positive_real_constants ++ [ConstI].

Definition enclosure_errors (e : exn) : bool :=
  match e with
  | NotImplementedError | ValueError | ImportError => true
  | _ => false
  end.

(** [Brain.real_enclosure]. *)
Definition real_enclosure (x : Expr) : M (option arb_) :=
  match neval (oracle P) x with
  | Ok (inl v) => ret (Some v)
  | Ok (inr _) => ret None
  | Err e => if enclosure_errors e then ret None else raise e
  end.

(** [Brain.complex_enclosure]. *)
Definition complex_enclosure (x : Expr) : M (option acb_) :=
  match neval (oracle P) x with
  | Ok (inl v) =>
      if arb_is_finite _ v then ret (Some (acb_of_arb _ v))
      else raise AssertionError
  | Ok (inr v) =>
      if acb_is_finite _ v then ret (Some v) else raise AssertionError
  | Err e => if enclosure_errors e then ret None else raise e
  end.

(** The methods reached through [self] from inside a recursion cycle. *)
Record Self : Type := {
  self_simple : Expr -> M Expr;
  self_is_zero : Expr -> M tern;
  self_is_infinity : Expr -> M tern;
  self_is_nonnegative : Expr -> M tern;
  self_is_positive : Expr -> M tern;
  self_is_integer : Expr -> M tern;
  self_is_rational : Expr -> M tern;
  self_is_algebraic : Expr -> M tern;
  self_is_real : Expr -> M tern;
  self_is_complex : Expr -> M tern;
  self_equal : Expr -> Expr -> M tern;
  self_element : Expr -> Expr -> M tern;
  self_evaluate_alg : Expr -> M (option alg_);
  self_simple_Sqrt : Expr -> M Expr
}.

Section Bodies.

Variable self : Self.

(** [Brain.is_not_zero]. *)
Definition is_not_zero (x : Expr) : M tern :=
  do v <- self_is_zero self x;
  match v with
  | None => ret None
  | Some b => ret (Some (negb b))
  end.

(** [Brain.is_zero]. *)
Definition is_zero (x : Expr) : M tern :=
  body (
    match x with Integer v => return_ (Some (v =? 0)) | _ => fall end ;;
    If (known (app2 Equal x (Integer 0))) (return_ TTrue) ;;
    If (known (app2 NotEqual x (Integer 0))) (return_ TFalse) ;;
    If (known (app2 Greater x (Integer 0))) (return_ TFalse) ;;
    If (known (app2 Less x (Integer 0))) (return_ TFalse) ;;
    IfM (refuted (self_is_integer self x)) (return_ TFalse) ;;
    IfM (holds (self_is_positive self x)) (return_ TFalse) ;;
    (do val <- complex_enclosure x;
     match val with
     | Some v => If (acb_ne0 _ v) (return_ TFalse)
     | None => fall
     end) ;;
    IfM (holds (self_is_infinity self x)) (return_ TFalse)
  ) Unknown.

(** [Brain.is_infinity]. *)
Definition is_infinity (x : Expr) : M tern :=
  body (
    If (x == Infinity) (return_ TTrue) ;;
    If (x == UnsignedInfinity) (return_ TTrue) ;;
    If (x == Undefined) (return_ TFalse) ;;
    If (known (app2 Element x CC)) (return_ TFalse) ;;
    If (head_in x [Pos; Neg])
       (do arg <- unpack1 (args_of x);
        IfM (holds (self_is_infinity self arg)) (return_ TTrue)) ;;
    If (head_is x Mul)
       (IfM (anyM (fun arg => holds (self_is_infinity self arg)) (args_of x))
          (IfM (allM (fun arg =>
                        holds (self_is_infinity self arg)
                        ||| (holds (self_is_complex self arg)
                             &&& holds (is_not_zero arg)))
                     (args_of x))
             (return_ TTrue))) ;;
    (do val <- complex_enclosure x;
     match val with Some _ => return_ TFalse | None => fall end)
  ) Unknown.

(** The tail shared by the sign predicates: decide from the enclosure.
    [yes real] is the test on the real part that proves the property,
    [no real] the one that refutes it. *)
Definition sign_from_enclosure (yes no : arb_ -> bool) (x : Expr)
  : block Store tern :=
  do val <- complex_enclosure x;
  match val with
  | Some v =>
      let real := acb_real _ v in
      let imag := acb_imag _ v in
      If (arb_eq0 _ imag && yes real) (return_ TTrue) ;;
      If (arb_ne0 _ imag || no real) (return_ TFalse)
  | None => fall
  end.

(** [Brain.is_nonnegative]. *)
Definition is_nonnegative (x : Expr) : M tern :=
  body (
    match x with Integer v => return_ (Some (v >=? 0)) | _ => fall end ;;
    If (Expr_in x positive_real_constants) (return_ TTrue) ;;
    If (known (app2 GreaterEqual x (Integer 0))) (return_ TTrue) ;;
    If (known (app2 Greater x (Integer 0))) (return_ TTrue) ;;
    If (known (app2 Less x (Integer 0))) (return_ TFalse) ;;
    IfM (holds (self_is_real self x))
      (If (head_in x [Pos; Add; Mul; Exp; Sqrt])
          (IfM (allM (fun arg => holds (self_is_nonnegative self arg)) (args_of x))
             (return_ TTrue)) ;;
       If (head_is x Div)
          (do '(p, q) <- unpack2 (args_of x);
           IfM (holds (self_is_nonnegative self p)
                &&& holds (self_is_positive self q))
             (return_ TTrue)) ;;
       If (head_is x Pow)
          (do '(base, exp) <- unpack2 (args_of x);
           IfM (holds (self_is_positive self base)) (return_ TTrue))) ;;
    sign_from_enclosure (arb_ge0 _) (arb_lt0 _) x
  ) Unknown.

(** [Brain.is_positive]. *)
Definition is_positive (x : Expr) : M tern :=
  body (
    match x with Integer v => return_ (Some (v >? 0)) | _ => fall end ;;
    If (Expr_in x positive_real_constants) (return_ TTrue) ;;
    If (known (app2 Greater x (Integer 0))) (return_ TTrue) ;;
    If (known (app2 LessEqual x (Integer 0))) (return_ TFalse) ;;
    If (known (app2 Less x (Integer 0))) (return_ TFalse) ;;
    IfM (holds (self_is_real self x))
      (If (head_in x [Exp; Cosh])
          (do t <- unpack1 (args_of x);
           IfM (holds (self_is_real self t)) (return_ TTrue)) ;;
       If (head_in x [Pos; Add; Mul; Sqrt])
          (IfM (allM (fun arg => holds (self_is_positive self arg)) (args_of x))
             (return_ TTrue)) ;;
       If (head_is x Div)
          (do '(p, q) <- unpack2 (args_of x);
           IfM (holds (self_is_positive self p)
                &&& holds (self_is_positive self q))
             (return_ TTrue)) ;;
       If (head_is x Pow)
          (do '(base, exp) <- unpack2 (args_of x);
           IfM (holds (self_is_positive self base)) (return_ TTrue))) ;;
    sign_from_enclosure (arb_gt0 _) (arb_le0 _) x
  ) Unknown.

(** [Brain.is_negative]. *)
Definition is_negative (x : Expr) : M tern :=
  body (
    match x with Integer v => return_ (Some (v <? 0)) | _ => fall end ;;
    If (Expr_in x positive_real_constants) (return_ TFalse) ;;
    If (known (app2 Less x (Integer 0))) (return_ TTrue) ;;
    If (known (app2 GreaterEqual x (Integer 0))) (return_ TFalse) ;;
    If (known (app2 Greater x (Integer 0))) (return_ TFalse) ;;
    sign_from_enclosure (arb_lt0 _) (arb_ge0 _) x
  ) Unknown.

(** [Brain.is_nonpositive]. *)
Definition is_nonpositive (x : Expr) : M tern :=
  body (
    match x with Integer v => return_ (Some (v <=? 0)) | _ => fall end ;;
    If (Expr_in x positive_real_constants) (return_ TFalse) ;;
    If (known (app2 LessEqual x (Integer 0))) (return_ TTrue) ;;
    If (known (app2 Less x (Integer 0))) (return_ TTrue) ;;
    If (known (app2 Greater x (Integer 0))) (return_ TFalse) ;;
    sign_from_enclosure (arb_le0 _) (arb_gt0 _) x
  ) Unknown.

(** [self.is_infinity(x) or x == Undefined], the last test of most
    domain predicates. *)
Definition infinite_or_undefined (x : Expr) : M bool :=
  holds (self_is_infinity self x) ||| ret (x == Undefined).

(** [Brain.is_integer]. *)
Definition Brain_is_integer (x : Expr) : M tern :=
  body (
    If (is_integer x) (return_ TTrue) ;;
    If (known (app2 Element x ZZ)) (return_ TTrue) ;;
    If (known (app2 NotElement x ZZ)) (return_ TFalse) ;;
    If (head_in x [Pos; Neg; Add; Sub; Mul])
       (IfM (allM (fun arg => holds (self_is_integer self arg)) (args_of x))
          (return_ TTrue)) ;;
    If (head_is x Pow)
       (do '(base, exp) <- unpack2 (args_of x);
        IfM (holds (self_is_integer self base)
             &&& holds (self_is_integer self exp)
             &&& holds (self_is_nonnegative self exp))
          (return_ TTrue)) ;;
    If (head_is x Factorial)
       (do n <- unpack1 (args_of x);
        IfM (holds (self_is_integer self n)
             &&& holds (self_is_nonnegative self n))
          (return_ TTrue)) ;;
    If (Expr_in x complex_constants) (return_ TFalse) ;;
    (do val <- complex_enclosure x;
     match val with
     | Some v => If (negb (acb_contains_integer _ v)) (return_ TFalse)
     | None => fall
     end) ;;
    IfM (infinite_or_undefined x) (return_ TFalse)
  ) Unknown.

(** [Brain.is_rational]. *)
Definition is_rational (x : Expr) : M tern :=
  body (
    IfM (holds (self_is_integer self x)) (return_ TTrue) ;;
    If (known (app2 Element x QQ)) (return_ TTrue) ;;
    If (known (app2 NotElement x QQ)) (return_ TFalse) ;;
    If ((x == Pi) || (x == ConstE)) (return_ TFalse) ;;
    If (head_in x [Pos; Neg; Add; Sub; Mul])
       (IfM (allM (fun arg => holds (self_is_rational self arg)) (args_of x))
          (return_ TTrue)) ;;
    If (head_is x Div)
       (do '(p, q) <- unpack2 (args_of x);
        IfM (holds (self_is_rational self p)
             &&& holds (self_is_rational self q)
             &&& holds (is_not_zero q))
          (return_ TTrue)) ;;
    If (head_is x Pow)
       (do '(base, exp) <- unpack2 (args_of x);
        IfM (holds (self_is_rational self base)
             &&& holds (self_is_integer self exp)
             &&& (holds (is_not_zero base)
                  ||| holds (self_is_nonnegative self exp)))
          (return_ TTrue)) ;;
    If (head_is x Sqrt)
       (do v <- unpack1 (args_of x);
        match v with
        | Integer v =>
            If (v <? 0) (return_ TFalse) ;;
            If (v <=? 100)
               (return_ (Some (existsb (Z.eqb v)
                                 [0; 1; 4; 9; 16; 25; 36; 49; 64; 81; 100])))
        | _ => fall
        end) ;;
    IfM (infinite_or_undefined x) (return_ TFalse)
  ) Unknown.

(** [Brain.is_algebraic]. *)
Definition is_algebraic (x : Expr) : M tern :=
  body (
    IfM (holds (self_is_integer self x)) (return_ TTrue) ;;
    If (known (app2 Element x AlgebraicNumbers)) (return_ TTrue) ;;
    If (known (app2 NotElement x AlgebraicNumbers)) (return_ TFalse) ;;
    If ((x == Pi) || (x == ConstE)) (return_ TFalse) ;;
    If ((x == ConstI) || (x == GoldenRatio)) (return_ TTrue) ;;
    If (head_in x [Pos; Neg; Add; Sub; Mul])
       (IfM (allM (fun arg => holds (self_is_algebraic self arg)) (args_of x))
          (return_ TTrue)) ;;
    If (head_is x Div)
       (do '(p, q) <- unpack2 (args_of x);
        IfM (holds (self_is_algebraic self p)
             &&& holds (self_is_algebraic self q)
             &&& holds (is_not_zero q))
          (return_ TTrue)) ;;
    If (head_is x Pow)
       (do '(base, exp) <- unpack2 (args_of x);
        IfM (holds (self_is_algebraic self base))
          (IfM (holds (self_is_rational self exp)
                &&& (holds (is_not_zero base)
                     ||| holds (self_is_nonnegative self exp)))
             (return_ TTrue) ;;
           (* Gelfond-Schneider *)
           IfM (holds (self_is_algebraic self exp)
                &&& refuted (self_is_rational self exp)
                &&& holds (is_not_zero base)
                &&& refuted (self_equal self base (Integer 1)))
             (return_ TFalse)) ;;
        (* transcendental ^ rational *)
        IfM (holds (self_is_complex self base)
             &&& refuted (self_is_algebraic self base)
             &&& holds (self_is_rational self exp)
             &&& holds (is_not_zero exp))
          (return_ TFalse)) ;;
    If (head_is x Sqrt)
       (do v <- unpack1 (args_of x);
        returnM (self_is_algebraic self v)) ;;
    If (head_is x Exp)
       (do v <- unpack1 (args_of x);
        IfM (holds (self_is_algebraic self v) &&& holds (is_not_zero v))
          (return_ TFalse) ;;
        IfM (do w <- self_simple self (app2 Div v (app2 Mul Pi ConstI));
             holds (self_is_rational self w))
          (return_ TTrue)) ;;
    If (head_in x [Sin; Cos; Tan; Cot; Csc; Sec])
       (do v <- unpack1 (args_of x);
        IfM (holds (self_is_algebraic self v) &&& holds (is_not_zero v))
          (return_ TFalse)) ;;
    If (head_is x Log)
       (do v <- unpack1 (args_of x);
        IfM (holds (self_is_algebraic self v)
             &&& refuted (self_equal self v (Integer 1)))
          (return_ TFalse)) ;;
    IfM (infinite_or_undefined x) (return_ TFalse)
  ) Unknown.

(** [Brain.is_real]. *)
Definition is_real (x : Expr) : M tern :=
  body (
    IfM (holds (self_is_rational self x)) (return_ TTrue) ;;
    If (known (app2 Element x RR)) (return_ TTrue) ;;
    If (known (app2 NotElement x RR)) (return_ TFalse) ;;
    If (Expr_in x [Pi; ConstGamma; ConstE; ConstCatalan]) (return_ TTrue) ;;
    If (x == ConstI) (return_ TFalse) ;;
    If (head_in x [Pos; Neg; Add; Sub; Mul; Exp; Sin; Cos])
       (IfM (allM (fun arg => holds (self_is_real self arg)) (args_of x))
          (return_ TTrue)) ;;
    If (head_is x Div)
       (do '(p, q) <- unpack2 (args_of x);
        IfM (holds (self_is_real self p)
             &&& holds (self_is_real self q)
             &&& holds (is_not_zero q))
          (return_ TTrue)) ;;
    If (head_is x Sqrt)
       (do arg <- unpack1 (args_of x);
        IfM (holds (self_is_real self arg)
             &&& holds (self_is_nonnegative self arg))
          (return_ TTrue)) ;;
    If (head_is x Log)
       (do arg <- unpack1 (args_of x);
        IfM (holds (self_is_real self arg)
             &&& holds (self_is_positive self arg))
          (return_ TTrue)) ;;
    If (head_is x Pow)
       (do '(base, exp) <- unpack2 (args_of x);
        IfM (holds (self_is_real self base) &&& holds (self_is_real self exp))
          (IfM (holds (self_is_positive self base)
                &&& holds (self_is_positive self exp))
             (return_ TTrue) ;;
           IfM (holds (is_not_zero base) &&& holds (self_is_integer self exp))
             (return_ TTrue) ;;
           IfM (holds (self_is_integer self exp)
                &&& holds (self_is_nonnegative self exp))
             (return_ TTrue))) ;;
    (do v <- complex_enclosure x;
     match v with
     | Some v =>
         If (arb_eq0 _ (acb_imag _ v)) (return_ TTrue) ;;
         If (arb_ne0 _ (acb_imag _ v)) (return_ TFalse)
     | None => fall
     end) ;;
    IfM (infinite_or_undefined x) (return_ TFalse)
  ) Unknown.

(** [Brain.is_complex]. *)
Definition is_complex (x : Expr) : M tern :=
  body (
    IfM (holds (self_is_real self x)) (return_ TTrue) ;;
    If (x == ConstI) (return_ TTrue) ;;
    If (known (app2 Element x CC)) (return_ TTrue) ;;
    If (known (app2 NotElement x CC)) (return_ TFalse) ;;
    If (head_in x [Pos; Neg; Add; Sub; Mul; Sqrt; Exp; Sin; Cos])
       (IfM (allM (fun arg => holds (self_is_complex self arg)) (args_of x))
          (return_ TTrue)) ;;
    If (head_is x Div)
       (do '(p, q) <- unpack2 (args_of x);
        IfM (holds (self_is_complex self p)
             &&& holds (self_is_complex self q)
             &&& holds (is_not_zero q))
          (return_ TTrue)) ;;
    If (head_is x Pow)
       (do '(base, exp) <- unpack2 (args_of x);
        IfM (holds (self_is_complex self base)
             &&& holds (self_is_complex self exp)
             &&& (holds (is_not_zero base)
                  ||| (holds (self_is_real self exp)
                       &&& holds (self_is_positive self exp))))
          (return_ TTrue)) ;;
    If (head_is x Log)
       (do arg <- unpack1 (args_of x);
        IfM (holds (self_is_complex self arg) &&& holds (is_not_zero arg))
          (return_ TTrue)) ;;
    IfM (infinite_or_undefined x) (return_ TFalse)
  ) Unknown.

(** ** Exact evaluation in the algebraic backend *)

(** A unary operation on the value of a sub-evaluation, which is
    Python's [None] when [evaluate_alg] fell out of its end. *)
Definition alg_un (op : alg_unop) (v : option alg_) : M (option alg_) :=
  match v with
  | Some a =>
      do lim <- get_limits;
      do r <- of_result (alg_unary _ lim op a);
      ret (Some r)
  | None =>
      raise (match op with ANeg | AAbs => TypeError | _ => AttributeError end)
  end.

Definition alg_bin (op : alg_binop) (u v : option alg_) : M (option alg_) :=
  match u, v with
  | None, None => raise TypeError
  | _, _ =>
      do lim <- get_limits;
      do r <- of_result (alg_binary _ lim op u v);
      ret (Some r)
  end.

(** [s = alg(unit); for x in args: s op= self.evaluate_alg(x)]. *)
Fixpoint alg_fold (op : alg_binop) (s : option alg_) (l : list Expr)
  : M (option alg_) :=
  match l with
  | [] => ret s
  | x :: r =>
      do v <- self_evaluate_alg self x;
      do s' <- alg_bin op s v;
      alg_fold op s' r
  end.

Definition trig_of_head (h : Expr) : alg_trig :=
  if h == Exp then AExpPiI
  else if h == Cos then ACosPi
  else if h == Sin then ASinPi
  else if h == Tan then ATanPi
  else if h == Cot then ACotPi
  else if h == Sec then ASecPi
  else ACscPi.

(** [Brain.evaluate_alg]. *)
Definition evaluate_alg (expr : Expr) : M (option alg_) :=
  match expr with
  | Integer v => do lim <- get_limits; do a <- of_result (alg_of_int _ lim v); ret (Some a)
  | Symbol _ | Text _ =>
      if expr == ConstI then
        do lim <- get_limits; do a <- of_result (alg_i _ lim); ret (Some a)
      else if expr == GoldenRatio then
        do lim <- get_limits; do a <- of_result (alg_phi _ lim); ret (Some a)
      else raise ValueError
  | Call head l =>
      if head == Pos then
        do x <- unpack1 l; self_evaluate_alg self x
      else if head == Neg then
        do x <- unpack1 l; do v <- self_evaluate_alg self x; alg_un ANeg v
      else if head == Sub then
        do '(x, y) <- unpack2 l;
        do u <- self_evaluate_alg self x;
        do v <- self_evaluate_alg self y;
        alg_bin ASub u v
      else if head == Add then
        do lim <- get_limits;
        do s <- of_result (alg_of_int _ lim 0);
        alg_fold AAdd (Some s) l
      else if head == Mul then
        do lim <- get_limits;
        do s <- of_result (alg_of_int _ lim 1);
        alg_fold AMul (Some s) l
      else if head == Div then
        do '(x, y) <- unpack2 l;
        do u <- self_evaluate_alg self x;
        do v <- self_evaluate_alg self y;
        alg_bin ADiv u v
      else if head == Sqrt then
        do x <- unpack1 l; do v <- self_evaluate_alg self x; alg_un ASqrt v
      else if head == Pow then
        do '(x, y) <- unpack2 l;
        do u <- self_evaluate_alg self x;
        do v <- self_evaluate_alg self y;
        alg_bin APow u v
      else if head == Sign then
        do x <- unpack1 l; do v <- self_evaluate_alg self x; alg_un ASgn v
      else if head == Re then
        do x <- unpack1 l; do v <- self_evaluate_alg self x; alg_un AReal v
      else if head == Im then
        do x <- unpack1 l; do v <- self_evaluate_alg self x; alg_un AImag v
      else if head == Abs then
        do x <- unpack1 l; do v <- self_evaluate_alg self x; alg_un AAbs v
      else if Expr_in head [Exp; Cos; Sin; Tan; Cot; Sec; Csc] then
        do x <- unpack1 l;
        do v <- self_simple self (app2 Div x Pi);
        do v <- self_evaluate_alg self v;
        do v <- (if head == Exp then alg_un AImag v else ret v);
        match v with
        | None => raise AttributeError
        | Some a =>
            do lim <- get_limits;
            do rat <- of_result (alg_is_rational _ lim a);
            if rat : bool then
              do lim <- get_limits;
              do q <- of_result (alg_fmpq _ lim a);
              do lim <- get_limits;
              do r <- of_result (alg_trig_pi _ lim (trig_of_head head) q);
              ret (Some r)
            else ret None
        end
      else raise NotImplementedError
  end.

(** [Brain.evaluate_alg_or_None]. *)
Definition evaluate_alg_or_None (expr : Expr) : M (option alg_) :=
  try_except (self_evaluate_alg self expr)
    (fun e => match e with ValueError | NotImplementedError => true | _ => false end)
    (ret None).

(** [aq is not None and bq is not None and aq != bq]. *)
Definition differ (aq bq : tern) : bool :=
  match aq, bq with
  | Some a, Some b => negb (Bool.eqb a b)
  | _, _ => false
  end.

(** [Brain.equal]. *)
Definition equal (a b : Expr) : M tern :=
  body (
    If (a == b) (return_ TTrue) ;;
    If (is_integer a && is_integer b) (return_ TFalse) ;;
    If (known (app2 Equal a b)) (return_ TTrue) ;;
    If (known (app2 Equal b a)) (return_ TTrue) ;;
    If (known (app2 NotEqual a b)) (return_ TFalse) ;;
    If (known (app2 NotEqual b a)) (return_ TFalse) ;;
    (* try numerical exclusion test *)
    (do val1 <- complex_enclosure a;
     match val1 with
     | Some val1 =>
         do val2 <- complex_enclosure b;
         match val2 with
         | Some val2 =>
             If (negb (acb_overlaps _ val1 val2)) (return_ TFalse) ;;
             (do val3 <- complex_enclosure (app2 Sub a b);
              match val3 with
              | Some val3 => If (negb (acb_contains0 _ val3)) (return_ TFalse)
              | None => raise AttributeError
              end)
         | None => fall
         end
     | None => fall
     end) ;;
    (* try exact computation *)
    (do orig <- get_limits;
     let orig_degree := degree_limit orig in
     let orig_bits := bits_limit orig in
     try_finally
       (do _ <- alg_set_degree_limit 200;
        do _ <- alg_set_bits_limit 100000;
        do val1 <- evaluate_alg_or_None a;
        match val1 with
        | Some val1 =>
            do val2 <- evaluate_alg_or_None b;
            match val2 with
            | Some val2 =>
                do lim <- get_limits;
                do r <- of_result (alg_eq _ lim val1 val2);
                return_ (Some r)
            | None => fall
            end
        | None => fall
        end)
       (do _ <- alg_set_degree_limit orig_degree;
        alg_set_bits_limit orig_bits)) ;;
    (* try domain exclusions *)
    (do aq <- self_is_rational self a;
     do bq <- self_is_rational self b;
     If (differ aq bq) (return_ TFalse) ;;
     If (truthy aq && truthy bq)
        (do aq <- self_is_integer self a;
         do bq <- self_is_integer self b;
         If (differ aq bq) (return_ TFalse))) ;;
    (do aq <- self_is_complex self a;
     do bq <- self_is_complex self b;
     If (differ aq bq) (return_ TFalse) ;;
     If (truthy aq && truthy bq)
        (do aq <- self_is_real self a;
         do bq <- self_is_real self b;
         If (differ aq bq) (return_ TFalse))) ;;
    (do aq <- self_is_infinity self a;
     do bq <- self_is_infinity self b;
     If (differ aq bq) (return_ TFalse))
  ) Unknown.

(** Reading a literal truth value off a simplified relation. *)
Definition read_truth (v : Expr) : tern :=
  if v == True_ then TTrue else if v == False_ then TFalse else Unknown.

(** [Brain.greater], [Brain.less], [Brain.greater_equal],
    [Brain.less_equal]. *)
Definition greater (a b : Expr) : M tern :=
  do v <- self_simple self (app2 Greater a b); ret (read_truth v).
Definition less (a b : Expr) : M tern :=
  do v <- self_simple self (app2 Less a b); ret (read_truth v).
Definition greater_equal (a b : Expr) : M tern :=
  do v <- self_simple self (app2 GreaterEqual a b); ret (read_truth v).
Definition less_equal (a b : Expr) : M tern :=
  do v <- self_simple self (app2 LessEqual a b); ret (read_truth v).

(** [Brain.is_extended_real]. *)
Definition is_extended_real (x : Expr) : M tern :=
  body (
    If (x == Infinity) (return_ TTrue) ;;
    If (x == app1 Neg Infinity) (return_ TTrue) ;;
    (do v <- self_is_real self x;
     If (truthy v) (return_ TTrue) ;;
     IfM (ret (is_False v) &&& holds (self_is_complex self x)) (return_ TFalse))
  ) Unknown.

(** [if not v: return v], then the rest. *)
Definition unless_return (v : tern) : block Store tern :=
  If (negb (truthy v)) (return_ v).

(** [True in check], [all(c == True for c in check)] and so on. *)
Definition any_True (check : list tern) : bool := existsb is_True check.
Definition any_False (check : list tern) : bool := existsb is_False check.
Definition all_True (check : list tern) : bool := forallb is_True check.
Definition all_False (check : list tern) : bool := forallb is_False check.

Definition interval_heads : list Expr :=
  [ClosedInterval; OpenInterval; ClosedOpenInterval; OpenClosedInterval].

(** [Brain.element]. *)
Definition element (x S : Expr) : M tern :=
  body (
    If (known (app2 Element x S)) (return_ TTrue) ;;
    If (known (app2 NotElement x S)) (return_ TFalse) ;;
    If (S == CC) (returnM (self_is_complex self x)) ;;
    If (S == RR) (returnM (self_is_real self x)) ;;
    If (S == QQ) (returnM (self_is_rational self x)) ;;
    If (S == ZZ) (returnM (self_is_integer self x)) ;;
    If (S == HH)
       (do c1 <- self_is_complex self x;
        unless_return c1 ;;
        returnM (self_is_positive self (app1 Im x))) ;;
    If (S == PP)
       (do z <- self_is_integer self x;
        unless_return z ;;
        match x with
        | Integer v =>
            If (v <=? 20)
               (return_ (Some (existsb (Z.eqb v) [2; 3; 5; 7; 11; 13; 17; 19])))
        | _ => fall
        end ;;
        return_ Unknown) ;;
    If (S == AlgebraicNumbers) (returnM (self_is_algebraic self x)) ;;
    If (head_is S ZZGreaterEqual)
       (do a <- unpack1 (args_of S);
        do v <- self_is_integer self x;
        unless_return v ;;
        returnM (less_equal a x)) ;;
    If (head_is S ZZLessEqual)
       (do b <- unpack1 (args_of S);
        do v <- self_is_integer self x;
        unless_return v ;;
        returnM (less_equal x b)) ;;
    If (head_is S Range)
       (do '(a, b) <- unpack2 (args_of S);
        do v <- self_is_integer self x;
        unless_return v ;;
        (do v <- less_equal a x;
         unless_return v ;;
         returnM (less_equal x b))) ;;
    If (head_in S interval_heads)
       (do '(a, b) <- unpack2 (args_of S);
        (do v <- is_extended_real a; If (negb (truthy v)) (return_ Unknown)) ;;
        (do v <- is_extended_real b; If (negb (truthy v)) (return_ Unknown)) ;;
        (do v <- is_extended_real x; unless_return v) ;;
        If (negb (head_is S ClosedInterval) && (a == b)) (return_ TFalse) ;;
        (if head_is S ClosedInterval || head_is S ClosedOpenInterval
         then do v <- less_equal a x; unless_return v
         else do v <- less a x; unless_return v) ;;
        (if head_is S ClosedInterval || head_is S OpenClosedInterval
         then returnM (less_equal x b)
         else returnM (less x b))) ;;
    If (head_is S Set_)
       (do check <- mapM (fun y => self_equal self x y) (args_of S);
        If (any_True check) (return_ TTrue) ;;
        If (all_False check) (return_ TFalse) ;;
        return_ Unknown) ;;
    If (head_is S Union)
       (If (List.length (args_of S) =? 0)%nat (return_ TFalse) ;;
        (do check <- mapM (fun T => self_element self x T) (args_of S);
         If (any_True check) (return_ TTrue) ;;
         If (all_False check) (return_ TFalse) ;;
         return_ Unknown)) ;;
    If (head_is S Intersection)
       (If (negb (1 <=? List.length (args_of S))%nat) (raise AssertionError) ;;
        (do check <- mapM (fun T => self_element self x T) (args_of S);
         If (all_True check) (return_ TTrue) ;;
         If (any_False check) (return_ TFalse) ;;
         return_ Unknown)) ;;
    If (head_is S SetMinus)
       (If (negb (List.length (args_of S) =? 2)%nat) (raise AssertionError) ;;
        (do '(T, U) <- unpack2 (args_of S);
         do v1 <- self_element self x T;
         If (is_False v1) (return_ TFalse) ;;
         (do v2 <- self_element self x U;
          If (is_True v1 && is_False v2) (return_ TTrue) ;;
          If (is_True v1 && is_True v2) (return_ TFalse) ;;
          return_ Unknown)))
  ) Unknown.

(** ** Operator rules *)

(** A call through getattr of a method declared with one or two positional
    parameters raises [TypeError] on any other number of arguments. *)
Definition call1 (f : Expr -> M Expr) (l : list Expr) : M Expr :=
  match l with [x] => f x | _ => raise TypeError end.
Definition call2 (f : Expr -> Expr -> M Expr) (l : list Expr) : M Expr :=
  match l with [x; y] => f x y | _ => raise TypeError end.

Definition simple_args (l : list Expr) : M (list Expr) :=
  mapM (self_simple self) l.

(** [simple_Not]. *)
Definition simple_Not (x : Expr) : M Expr :=
  do x <- self_simple self x;
  body (
    If (x == True_) (return_ False_) ;;
    If (x == False_) (return_ True_) ;;
    If (head_is x NotEqual && (List.length (args_of x) =? 2)%nat)
       (return_ (app Equal (args_of x))) ;;
    If (head_is x Equal && (List.length (args_of x) =? 2)%nat)
       (return_ (app NotEqual (args_of x))) ;;
    If (head_is x NotElement && (List.length (args_of x) =? 2)%nat)
       (return_ (app Element (args_of x))) ;;
    If (head_is x Element && (List.length (args_of x) =? 2)%nat)
       (return_ (app NotElement (args_of x)))
  ) (app1 Not x).

(** [simple_And]. *)
Definition simple_And (l : list Expr) : M Expr :=
  do l <- simple_args l;
  if Expr_in False_ l then ret False_
  else
    let l := filter (fun arg => arg != True_) l in
    match l with
    | [] => ret True_
    | [a] => ret a
    | _ => ret (app And l)
    end.

(** [simple_Or]. *)
Definition simple_Or (l : list Expr) : M Expr :=
  do l <- simple_args l;
  if Expr_in True_ l then ret True_
  else
    let l := filter (fun arg => arg != False_) l in
    match l with
    | [] => ret False_
    | [a] => ret a
    | _ => ret (app Or l)
    end.

(** [simple_Implies]. *)
Definition simple_Implies (l : list Expr) : M Expr :=
  do l <- simple_args l;
  match l with
  | [p; q] =>
      if p == False_ then ret True_
      else if p == True_ then ret q
      else ret (app Implies l)
  | _ => raise AssertionError
  end.

(** The pairs [(args[i], args[j])], [i < j], in the order of the two
    nested loops. *)
Fixpoint pairs (l : list Expr) : list (Expr * Expr) :=
  match l with
  | [] => []
  | a :: r => map (fun b => (a, b)) r ++ pairs r
  end.

(** [all(self.equal(args[0], arg) for arg in args[1:])]. *)
Definition all_equal_first (l : list Expr) : M bool :=
  match l with
  | [] => raise IndexError
  | a :: r => allM (fun arg => holds (self_equal self a arg)) r
  end.

Definition any_pair_unequal (l : list Expr) : M bool :=
  anyM (fun ab => refuted (self_equal self (fst ab) (snd ab))) (pairs l).

(** [simple_Equal]. *)
Definition simple_Equal (l : list Expr) : M Expr :=
  do l <- simple_args l;
  if negb (2 <=? List.length l)%nat then raise AssertionError
  else
    body (
      IfM (all_equal_first l) (return_ True_) ;;
      IfM (any_pair_unequal l) (return_ False_)
    ) (app Equal l).

(** [simple_NotEqual]. *)
Definition simple_NotEqual (l : list Expr) : M Expr :=
  do l <- simple_args l;
  if negb (List.length l =? 2)%nat then ret (app NotEqual l)
  else
    body (
      IfM (all_equal_first l) (return_ False_) ;;
      IfM (any_pair_unequal l) (return_ True_)
    ) (app NotEqual l).

(** [simple_Element] and [simple_NotElement]. *)
Definition simple_Element (l : list Expr) : M Expr :=
  do l <- simple_args l;
  match l with
  | [x; dom] =>
      do v <- self_element self x dom;
      if is_True v then ret True_
      else if is_False v then ret False_
      else ret (app Element l)
  | _ => raise AssertionError
  end.

Definition simple_NotElement (l : list Expr) : M Expr :=
  do l <- simple_args l;
  match l with
  | [x; dom] =>
      do v <- self_element self x dom;
      if is_True v then ret False_
      else if is_False v then ret True_
      else ret (app NotElement l)
  | _ => raise AssertionError
  end.

Definition both_integers (a b : Expr) : option (Z * Z) :=
  match a, b with
  | Integer x, Integer y => Some (x, y)
  | _, _ => None
  end.

Definition both_real (a b : Expr) : M bool :=
  holds (self_is_real self a) &&& holds (self_is_real self b).
Definition both_extended_real (a b : Expr) : M bool :=
  holds (is_extended_real a) &&& holds (is_extended_real b).

Definition MinusInfinity : Expr := app1 Neg Infinity.

(** [simple_LessEqual]. *)
Definition simple_LessEqual (l : list Expr) : M Expr :=
  do l <- simple_args l;
  body (
    match l with
    | [a; b] =>
        match both_integers a b with
        | Some (x, y) => return_ (if x <=? y then True_ else False_)
        | None => fall
        end ;;
        IfM (both_real a b)
          (do v <- real_enclosure (app2 Sub a b);
           match v with
           | Some v =>
               If (arb_le0 _ v) (return_ True_) ;;
               If (arb_gt0 _ v) (return_ False_)
           | None => fall
           end) ;;
        IfM (both_extended_real a b)
          (IfM (holds (self_equal self a b)) (return_ True_) ;;
           If (a == MinusInfinity) (return_ True_) ;;
           If (b == Infinity) (return_ True_) ;;
           IfM (holds (self_is_real self a) &&& ret (b == MinusInfinity))
             (return_ False_) ;;
           IfM (holds (self_is_real self b) &&& ret (a == Infinity))
             (return_ False_) ;;
           If ((a == Infinity) && (b == MinusInfinity)) (return_ False_))
    | _ => fall
    end
  ) (app LessEqual l).

(** [simple_Less]. *)
Definition simple_Less (l : list Expr) : M Expr :=
  do l <- simple_args l;
  body (
    match l with
    | [a; b] =>
        match both_integers a b with
        | Some (x, y) => return_ (if x <? y then True_ else False_)
        | None => fall
        end ;;
        IfM (both_real a b)
          (do v <- real_enclosure (app2 Sub a b);
           match v with
           | Some v =>
               If (arb_lt0 _ v) (return_ True_) ;;
               If (arb_ge0 _ v) (return_ False_)
           | None => fall
           end) ;;
        IfM (both_extended_real a b)
          (IfM (holds (self_equal self a b)) (return_ False_) ;;
           IfM (ret (a == MinusInfinity) &&& holds (self_is_real self b))
             (return_ True_) ;;
           If ((a == MinusInfinity) && (b == Infinity)) (return_ True_) ;;
           IfM (holds (self_is_real self a) &&& ret (b == Infinity))
             (return_ True_) ;;
           If (a == Infinity) (return_ False_) ;;
           If (b == MinusInfinity) (return_ False_))
    | _ => fall
    end
  ) (app Less l).

(** [simple_GreaterEqual]. *)
Definition simple_GreaterEqual (l : list Expr) : M Expr :=
  do l <- simple_args l;
  body (
    match l with
    | [a; b] =>
        match both_integers a b with
        | Some (x, y) => return_ (if x >=? y then True_ else False_)
        | None => fall
        end ;;
        IfM (both_real a b)
          (do v <- real_enclosure (app2 Sub a b);
           match v with
           | Some v =>
               If (arb_ge0 _ v) (return_ True_) ;;
               If (arb_lt0 _ v) (return_ False_)
           | None => fall
           end) ;;
        IfM (both_extended_real a b)
          (IfM (holds (self_equal self a b)) (return_ True_) ;;
           If (b == MinusInfinity) (return_ True_) ;;
           If (a == Infinity) (return_ True_) ;;
           IfM (holds (self_is_real self b) &&& ret (a == MinusInfinity))
             (return_ False_) ;;
           IfM (holds (self_is_real self a) &&& ret (b == Infinity))
             (return_ False_) ;;
           If ((b == Infinity) && (a == MinusInfinity)) (return_ False_))
    | _ => fall
    end
  ) (app GreaterEqual l).

(** [simple_Greater]. *)
Definition simple_Greater (l : list Expr) : M Expr :=
  do l <- simple_args l;
  body (
    match l with
    | [a; b] =>
        match both_integers a b with
        | Some (x, y) => return_ (if x >? y then True_ else False_)
        | None => fall
        end ;;
        IfM (both_real a b)
          (do v <- real_enclosure (app2 Sub a b);
           match v with
           | Some v =>
               If (arb_gt0 _ v) (return_ True_) ;;
               If (arb_le0 _ v) (return_ False_)
           | None => fall
           end) ;;
        IfM (both_extended_real a b)
          (IfM (holds (self_equal self a b)) (return_ False_) ;;
           IfM (ret (b == MinusInfinity) &&& holds (self_is_real self a))
             (return_ True_) ;;
           If ((b == MinusInfinity) && (a == Infinity)) (return_ True_) ;;
           IfM (holds (self_is_real self b) &&& ret (a == Infinity))
             (return_ True_) ;;
           If (b == Infinity) (return_ False_) ;;
           If (a == MinusInfinity) (return_ False_))
    | _ => fall
    end
  ) (app Greater l).

(** [simple_Pos], [simple_Parentheses], [simple_Brackets],
    [simple_Braces]. *)
Definition simple_Pos (x : Expr) : M Expr := self_simple self x.
Definition simple_Parentheses (x : Expr) : M Expr := self_simple self x.
Definition simple_Brackets (x : Expr) : M Expr := self_simple self x.
Definition simple_Braces (x : Expr) : M Expr := self_simple self x.

(** [simple_Neg]. *)
Definition simple_Neg (x : Expr) : M Expr :=
  do x <- self_simple self x;
  body (
    If (head_is x Neg) (do v <- unpack1 (args_of x); return_ v) ;;
    If (head_is x Sub)
       (do '(a, b) <- unpack2 (args_of x); return_ (app2 Sub b a)) ;;
    match x with Integer v => return_ (Integer (- v)) | _ => fall end
  ) (app1 Neg x).

(** [simple_Add]: the zero- and one-term cases and the case where some
    term is not known to be complex.  The canonical sum of
    coefficient-monomial pairs is not translated. *)
Definition simple_Add (terms : list Expr) : M Expr :=
  match terms with
  | [] => ret (Integer 0)
  | [t] => self_simple self t
  | _ =>
      do terms <- simple_args terms;
      do c <- allM (fun x => holds (self_is_complex self x)) terms;
      if negb c then ret (app Add terms)
      else halt (NotEmbedded "simple_Add: canonical sum")
  end.

(** [simple_Sub]. *)
Definition simple_Sub (x y : Expr) : M Expr :=
  do c <- holds (self_is_complex self x) &&& holds (self_is_complex self y);
  if c then simple_Add [x; app1 Neg y]
  else
    do x' <- self_simple self x;
    do y' <- self_simple self y;
    ret (app2 Sub x' y').

(** [simple_Sqrt]. *)
Definition simple_Sqrt (x : Expr) : M Expr :=
  do x <- self_simple self x;
  body (
    If (Expr_in x [Integer 0; Integer 1; Infinity; UnsignedInfinity; Undefined])
       (return_ x) ;;
    If (x == Integer (-1)) (return_ ConstI) ;;
    If (x == MinusInfinity) (return_ (app2 Mul ConstI Infinity)) ;;
    match x with
    | Integer v =>
        let real := v >=? 0 in
        let v := Z.abs v in
        If (v <? float_1e100)
           (let r := round_sqrt P v in
            If (r * r =? v)
               (return_ (if real then Integer r
                         else app2 Mul (Integer r) ConstI)))
    | _ => fall
    end ;;
    IfM (holds (is_negative x))
      (do y <- self_simple_Sqrt self (app1 Neg x);
       return_ (app2 Mul y ConstI)) ;;
    If (head_is x Pow)
       (do '(base, exp) <- unpack2 (args_of x);
        match exp with
        | Integer exp =>
            IfM (ret ((exp mod 2 =? 0) && (exp >? 0))
                 &&& holds (self_is_real self base)
                 &&& holds (self_is_nonnegative self base))
              (if exp =? 2 then return_ base
               else return_ (app2 Pow base (Integer (exp / 2))))
        | _ => fall
        end)
  ) (app1 Sqrt x).

(** [self.simple(cond.replace({var: i}))] with the Python integer [i].
    When the condition is the variable itself, [replace] returns the
    dictionary value, the integer [i] as it is, and [simple], which
    calls [is_atom] on it, raises [AttributeError]; inside an
    application the integer is made a term when the application is
    rebuilt. *)
Definition simple_instance (cond var : Expr) (i : Z) : M Expr :=
  if cond == var then raise AttributeError
  else self_simple self (replace [(var, Integer i)] cond).

(** The loop of [simple_Sum] over [range(a, b+1)] when a condition is
    given: [Some terms] when every instance of the condition was
    decided, [None] when one was not. *)
Fixpoint sum_terms (expr cond var : Expr) (indices : list Z)
  : M (option (list Expr)) :=
  match indices with
  | [] => ret (Some [])
  | i :: r =>
      do include <- simple_instance cond var i;
      if include == True_ then
        do rest <- sum_terms expr cond var r;
        ret (option_map (cons (replace [(var, Integer i)] expr)) rest)
      else if include == False_ then sum_terms expr cond var r
      else ret None
  end.

(** [simple_Sum]. *)
Definition simple_Sum (l : list Expr) : M Expr :=
  body (
    match l with
    | [expr; forargs] | [expr; forargs; _] =>
        let cond := match l with [_; _; c] => c | _ => True_ end in
        If (head_is forargs For && (List.length (args_of forargs) =? 3)%nat)
           (do '(var, a, b) <- unpack3 (args_of forargs);
            do a <- self_simple self a;
            do b <- self_simple self b;
            match both_integers a b with
            | Some (a, b) =>
                If (b - a <? 100)
                   (do terms <-
                      (if cond == True_
                       then ret (Some (map (fun i => replace [(var, Integer i)] expr)
                                           (range_incl a b)))
                       else sum_terms expr cond var (range_incl a b));
                    match terms with
                    | Some terms => returnM (self_simple self (app Add terms))
                    | None => return_ (app Sum l)
                    end)
            | None => fall
            end)
    | _ => fall
    end
  ) (app Sum l).

(** ** Matching against the formula corpus *)

(** [match_recursive] inside [Brain.match]: [None] is the [ValueError]
    of a failed match, [Some mv] the dictionary of captures. *)
Fixpoint match_recursive (free_variables : list Expr) (rule expr : Expr)
    (match_values : list (Expr * Expr)) {struct rule}
  : option (list (Expr * Expr)) :=
  if Expr_in rule free_variables then
    match dict_get match_values rule with
    | Some v => if expr != v then None else Some match_values
    | None => Some (dict_set match_values rule expr)
    end
  else if expr == rule then Some match_values
  else
    match rule, expr with
    | Call rule_head rule_args, Call expr_head expr_args =>
        if (expr_head != rule_head)
           || negb (List.length expr_args =? List.length rule_args)%nat
        then None
        else
          (fix go (rs es : list Expr) (mv : list (Expr * Expr)) {struct rs}
             : option (list (Expr * Expr)) :=
             match rs, es with
             | r :: rs', e :: es' =>
                 match match_recursive free_variables r e mv with
                 | Some mv' => go rs' es' mv'
                 | None => None
                 end
             | _, _ => Some mv
             end) rule_args expr_args match_values
    | _, _ => None
    end.

(** [Brain.match]. *)
Definition Brain_match (expr rule : Expr) (free_variables : list Expr)
    (assumptions : Expr) : M (option (list (Expr * Expr))) :=
  match match_recursive free_variables rule expr [] with
  | None => ret None
  | Some match_values =>
      do a <- self_simple self (replace match_values assumptions);
      if a == True_ then ret (Some match_values) else ret None
  end.

Fixpoint entries_get (d : list (string * Expr)) (id : string) : option Expr :=
  match d with
  | [] => None
  | (k, v) :: r => if String.eqb k id then Some v else entries_get r id
  end.

(** [x.args()[0]]. *)
Definition first_arg (x : Expr) : M Expr :=
  match args_of x with a :: _ => ret a | [] => raise IndexError end.

(** The rule of an entry, as [rewrite_fungrim] reads it: the variables,
    the two sides of the equation and the assumptions. *)
Definition entry_rule (id : option string)
  : M (list Expr * Expr * Expr * Expr) :=
  match id with
  | None => raise KeyError
  | Some id =>
      match entries_get (entries_dict P) id with
      | None => raise KeyError
      | Some entry =>
          do variables <- lift (get_arg_with_head entry Variables);
          let variables :=
            match variables with None => [] | Some v => args_of v end in
          do formula <- lift (get_arg_with_head entry Formula);
          match formula with
          | None => raise ValueError
          | Some formula =>
              do formula <- first_arg formula;
              do assumptions <- lift (get_arg_with_head entry Assumptions);
              do assumptions <-
                match assumptions with
                | None => ret True_
                | Some a => first_arg a
                end;
              if negb (head_is formula Equal)
                 || negb (List.length (args_of formula) =? 2)%nat
              then raise ValueError
              else
                do '(lhs, rhs) <- unpack2 (args_of formula);
                ret (variables, lhs, rhs, assumptions)
          end
      end
  end.

(** [match_local] inside [Brain.rewrite_fungrim]. *)
Fixpoint match_local (variables : list Expr) (lhs rhs assumptions : Expr)
    (expr : Expr) {struct expr} : M Expr :=
  do m <- Brain_match expr lhs variables assumptions;
  match m with
  | Some m => ret (replace m rhs)
  | None =>
      match expr with
      | Call head l =>
          do l' <- (fix go (l : list Expr) : M (list Expr) :=
                      match l with
                      | [] => ret []
                      | arg :: r =>
                          do y <- match_local variables lhs rhs assumptions arg;
                          do ys <- go r;
                          ret (y :: ys)
                      end) l;
          ret (app head l')
      | _ => ret expr
      end
  end.

(** [Brain.rewrite_fungrim]. *)
Definition rewrite_fungrim (expr : Expr) (id : option string)
    (recursive : bool) : M Expr :=
  do '(variables, lhs, rhs, assumptions) <- entry_rule id;
  if recursive then match_local variables lhs rhs assumptions expr
  else
    do m <- Brain_match expr lhs variables assumptions;
    match m with
    | Some m => ret (replace m rhs)
    | None => ret expr
    end.

(** [min(l, key=key)]: the first element with the least key. *)
Fixpoint min_from {A} (key : A -> Z) (best : A) (l : list A) : A :=
  match l with
  | [] => best
  | y :: r => if key y <? key best then min_from key y r else min_from key best r
  end.

Definition py_min {A} (key : A -> Z) (l : list A) : option A :=
  match l with
  | [] => None
  | x :: r => Some (min_from key x r)
  end.

(** [self.match_db[head]] for a head that is an expression. *)
Fixpoint match_db_get (d : list (option Expr * list (option string)))
    (h : Expr) : option (list (option string)) :=
  match d with
  | [] => None
  | (Some k, v) :: r => if k == h then Some v else match_db_get r h
  | (None, _) :: r => match_db_get r h
  end.

(** The choice made in [fungrim_simplify] among the rewrites of a
    node: the candidate of least complexity, adopted when it differs
    from the node and is strictly cheaper. *)
Definition choose_rewrite (expr : Expr)
    (exprs : list (Expr * option string)) : outcome (option Expr) :=
  match py_min (fun v => complexity (penalty B) (fst v)) exprs with
  | None => Raise ValueError           (* min() of an empty set *)
  | Some (expr2, _) =>
      if (expr2 != expr)
         && (complexity (penalty B) expr2 <? complexity (penalty B) expr)
      then Ret (Some expr2)
      else Ret None
  end.

(** [fungrim_simplify] inside [FungrimBrain.simple].  The rewrites are
    computed in the order in which the ids are stored; [min] walks the
    set of the candidates in the iteration order of that set. *)
Definition fungrim_simplify (expr : Expr) : M Expr :=
  match dict_get (expr_db B) expr with
  | Some v => ret v
  | None =>
      match expr with
      | Call head l =>
          do l' <- simple_args l;
          let expr := app head l' in
          match match_db_get (match_db B) head with
          | Some ids =>
              do exprs <- mapM (fun id =>
                                  do e <- rewrite_fungrim expr id false;
                                  ret (e, id)) ids;
              do choice <- lift (choose_rewrite expr (pairs_order P exprs));
              match choice with
              | Some expr2 => self_simple self expr2
              | None => ret expr
              end
          | None => ret expr
          end
      | _ => ret expr
      end
  end.

(** ** Dispatch *)

(** What [getattr(self, "simple_" + s)] finds. *)
Inductive attribute : Type :=
| Method (f : list Expr -> M Expr)
| NotCallable            (* the dictionary [self.simple_cache] *)
| Absent.

Definition simple_attr (s : string) : attribute :=
  if String.eqb s "Not" then Method (call1 simple_Not)
  else if String.eqb s "And" then Method simple_And
  else if String.eqb s "Or" then Method simple_Or
  else if String.eqb s "Implies" then Method simple_Implies
  else if String.eqb s "Equal" then Method simple_Equal
  else if String.eqb s "NotEqual" then Method simple_NotEqual
  else if String.eqb s "Element" then Method simple_Element
  else if String.eqb s "NotElement" then Method simple_NotElement
  else if String.eqb s "LessEqual" then Method simple_LessEqual
  else if String.eqb s "Less" then Method simple_Less
  else if String.eqb s "GreaterEqual" then Method simple_GreaterEqual
  else if String.eqb s "Greater" then Method simple_Greater
  else if String.eqb s "Pos" then Method (call1 simple_Pos)
  else if String.eqb s "Parentheses" then Method (call1 simple_Parentheses)
  else if String.eqb s "Brackets" then Method (call1 simple_Brackets)
  else if String.eqb s "Braces" then Method (call1 simple_Braces)
  else if String.eqb s "Neg" then Method (call1 simple_Neg)
  else if String.eqb s "Add" then Method simple_Add
  else if String.eqb s "Sub" then Method (call2 simple_Sub)
  else if String.eqb s "Sqrt" then Method (call1 simple_Sqrt)
  else if String.eqb s "Sum" then Method simple_Sum
  else if String.eqb s "cache" then NotCallable
  else if existsb (String.eqb s) other_simple_methods
  then Method (fun _ => halt (NotEmbedded ("simple_" ++ s)))
  else Absent.

(** [Brain.simple]. *)
Definition Brain_simple (expr : Expr) : M Expr :=
  if known expr then ret True_
  else if is_atom expr then ret expr
  else
    do c <- cache_get expr;
    match c with
    | Some None => ret expr
    | Some (Some v) => ret v
    | None =>
        let input_expr := expr in
        do _ <- cache_set input_expr None;
        do expr <-
          match expr with
          | Call (Symbol s as head) l =>
              match simple_attr s with
              | Method f => f l
              | NotCallable => raise TypeError
              | Absent => do l' <- simple_args l; ret (app head l')
              end
          | _ => ret expr
          end;
        do _ <- cache_set input_expr (Some expr);
        ret expr
    end.

(** [FungrimBrain.simple]. *)
Definition FungrimBrain_simple (expr : Expr) : M Expr :=
  if known expr then ret True_
  else if is_atom expr then ret expr
  else
    do c <- cache_get expr;
    match c with
    | Some None => ret expr
    | Some (Some v) => ret v
    | None =>
        let input_expr := expr in
        let has_db := match expr_db B with [] => false | _ => true end in
        do _ <- cache_set input_expr None;
        do expr <- (if has_db then fungrim_simplify expr else ret expr);
        do expr <-
          match expr with
          | Call (Symbol s) l =>
              match simple_attr s with
              | Method f =>
                  do expr2 <- f l;
                  if has_db && (expr2 != expr) then fungrim_simplify expr2
                  else ret expr2
              | NotCallable => raise TypeError
              | Absent => ret expr
              end
          | _ => ret expr
          end;
        do _ <- cache_set input_expr (Some expr);
        ret expr
    end.

(** [self.simple], resolved by the class of the object. *)
Definition simple (expr : Expr) : M Expr :=
  if is_fungrim B then FungrimBrain_simple expr else Brain_simple expr.

End Bodies.

(** ** Closing the recursion *)

Definition no_fuel : Self := {|
  self_simple := fun _ => halt OutOfFuel;
  self_is_zero := fun _ => halt OutOfFuel;
  self_is_infinity := fun _ => halt OutOfFuel;
  self_is_nonnegative := fun _ => halt OutOfFuel;
  self_is_positive := fun _ => halt OutOfFuel;
  self_is_integer := fun _ => halt OutOfFuel;
  self_is_rational := fun _ => halt OutOfFuel;
  self_is_algebraic := fun _ => halt OutOfFuel;
  self_is_real := fun _ => halt OutOfFuel;
  self_is_complex := fun _ => halt OutOfFuel;
  self_equal := fun _ _ => halt OutOfFuel;
  self_element := fun _ _ => halt OutOfFuel;
  self_evaluate_alg := fun _ => halt OutOfFuel;
  self_simple_Sqrt := fun _ => halt OutOfFuel
|}.

(** The object whose method calls may nest [fuel] deep. *)
Fixpoint methods (fuel : nat) : Self :=
  match fuel with
  | O => no_fuel
  | S n =>
      let self := methods n in
      {| self_simple := simple self;
         self_is_zero := is_zero self;
         self_is_infinity := is_infinity self;
         self_is_nonnegative := is_nonnegative self;
         self_is_positive := is_positive self;
         self_is_integer := Brain_is_integer self;
         self_is_rational := is_rational self;
         self_is_algebraic := is_algebraic self;
         self_is_real := is_real self;
         self_is_complex := is_complex self;
         self_equal := equal self;
         self_element := element self;
         self_evaluate_alg := evaluate_alg self;
         self_simple_Sqrt := simple_Sqrt self |}
  end.

End Methods.

(* ================================================================== *)
(** * Sessions: construction and the public calls *)

Section Sessions.

Context (P : Platform).

(** The entry points, for an object whose calls may nest [fuel] deep. *)
Definition run_simple (B : Brain) (fuel : nat) (e : Expr) : St Store Expr :=
  simple P B (methods P B fuel) e.
Definition run_equal (B : Brain) (fuel : nat) (a b : Expr) : St Store tern :=
  equal P B (methods P B fuel) a b.
Definition run_element (B : Brain) (fuel : nat) (x dom : Expr)
  : St Store tern :=
  element P B (methods P B fuel) x dom.

Definition plain_brain (facts : list Expr) (pen : list (Expr * Z)) : Brain :=
  {| is_fungrim := false; inferences := facts; penalty := pen;
     expr_db := []; match_db := [] |}.

(** [e.simple()]: a fresh [Brain] without assumptions simplifies [e].
    The new object has its own empty cache and shares the process-wide
    budgets.  ([Expr.simple] also computes [free_variables], which only
    fills [Brain.variables], a field no embedded method reads.) *)
Definition Expr_simple (fuel : nat) (e : Expr) : St Limits Expr :=
  fun lim =>
    let (o, s) :=
      run_simple (plain_brain [] []) fuel e
        {| limits := lim; simple_cache := [] |} in
    (o, limits s).

(** [inferences.add(e)]. *)
Definition set_add (inferences : list Expr) (e : Expr) : list Expr :=
  if Expr_in e inferences then inferences else (inferences ++ [e])%list.

Definition add_all (inferences : list Expr) (l : list Expr) : list Expr :=
  fold_left set_add l inferences.

(** [infer_not_domain] on a domain that is not a [Union]. *)
Definition infer_not_domain1 (inferences : list Expr) (x dom : Expr)
  : list Expr :=
  let add d := app2 NotElement x d in
  let inferences := set_add inferences (add dom) in
  let inferences :=
    match dom with
    | Call h [a] =>
        if h == Set_ then set_add inferences (app2 NotEqual x a) else inferences
    | _ => inferences
    end in
  if dom == CC then
    add_all inferences (map add [RR; QQ; ZZ; PP; HH; AlgebraicNumbers])
  else if dom == RR then add_all inferences (map add [QQ; ZZ; PP])
  else if dom == QQ then add_all inferences (map add [ZZ; PP])
  else if dom == ZZ then add_all inferences (map add [PP])
  else if dom == AlgebraicNumbers then add_all inferences (map add [QQ; ZZ])
  else inferences.

(** [infer_not_domain]: a [Union] is flattened and each member, which
    is then not a [Union], is handled in turn. *)
Definition infer_not_domain (inferences : list Expr) (x dom : Expr)
  : list Expr :=
  if head_is dom Union then
    fold_left (fun inf dom2 => infer_not_domain1 inf x dom2)
      (head_args_flattened Union dom) inferences
  else infer_not_domain1 inferences x dom.

Section Construction.

Variable fuel : nat.

(** [e.simple() == True_]. *)
Definition simplifies_to_True (e : Expr) : St Limits bool :=
  do r <- Expr_simple fuel e; ret (r == True_).

(** The loop [for v in (-1, 0, 1)] of the interval cases: [lo] and
    [lo'] are the heads of the two facts added when [a >= v] is shown,
    [hi] and [hi'] those added when [b <= v] is shown. *)
Fixpoint interval_loop (lo lo' hi hi' : Expr) (x a b : Expr)
    (vs : list Z) (inferences : list Expr) : St Limits (list Expr) :=
  match vs with
  | [] => ret inferences
  | v :: r =>
      let v := Integer v in
      do ge <- simplifies_to_True (app2 GreaterEqual a v);
      let inferences :=
        if ge then add_all inferences [app2 lo x v; app2 lo' v x]
        else inferences in
      do le <- simplifies_to_True (app2 LessEqual b v);
      let inferences :=
        if le then add_all inferences [app2 hi x v; app2 hi' v x]
        else inferences in
      interval_loop lo lo' hi hi' x a b r inferences
  end.

(** [infer_domain] on a domain that is not an [Intersection]. *)
Definition infer_domain1 (inferences : list Expr) (x dom : Expr)
  : St Limits (list Expr) :=
  let add d := app2 Element x d in
  let inferences := set_add inferences (add dom) in
  let inferences :=
    match dom with
    | Call h [a] =>
        if h == Set_ then set_add inferences (app2 Equal x a) else inferences
    | _ => inferences
    end in
  if dom == RR then ret (add_all inferences (map add [CC]))
  else if dom == QQ then
    ret (add_all inferences (map add [RR; CC; AlgebraicNumbers]))
  else if dom == ZZ then
    ret (add_all inferences (map add [QQ; RR; CC; AlgebraicNumbers]))
  else if dom == HH then ret (add_all inferences (map add [CC]))
  else if dom == PP then
    ret (add_all inferences
           (map add [app1 ZZGreaterEqual (Integer 2);
                     app2 ClosedOpenInterval (Integer 2) Infinity;
                     ZZ; QQ; RR; CC; AlgebraicNumbers]))
  else if dom == AlgebraicNumbers then ret (add_all inferences (map add [CC]))
  else if head_in dom [ZZGreaterEqual; ZZLessEqual; Range] then
    ret (add_all inferences (map add [ZZ; QQ; RR; CC; AlgebraicNumbers]))
  else if head_is dom OpenInterval then
    let inferences := add_all inferences (map add [RR; CC]) in
    do '(a, b) <- unpack2 (args_of dom);
    let inferences :=
      add_all inferences [app2 Less a x; app2 Less x b;
                          app2 Greater x a; app2 Greater b x] in
    interval_loop Greater Less Less Greater x a b [-1; 0; 1] inferences
  else if head_is dom ClosedInterval then
    do '(a, b) <- unpack2 (args_of dom);
    let inferences :=
      add_all inferences [app2 LessEqual a x; app2 LessEqual x b;
                          app2 GreaterEqual x a; app2 GreaterEqual b x] in
    do r <- simplifies_to_True (app2 Element a RR)
            &&& simplifies_to_True (app2 Element b RR);
    let inferences :=
      if r then add_all inferences (map add [RR; CC]) else inferences in
    interval_loop GreaterEqual LessEqual LessEqual GreaterEqual
      x a b [-1; 0; 1] inferences
  else if head_is dom OpenClosedInterval then
    do '(a, b) <- unpack2 (args_of dom);
    let inferences :=
      add_all inferences [app2 Less a x; app2 LessEqual x b;
                          app2 Greater x a; app2 GreaterEqual b x] in
    do r <- simplifies_to_True (app2 Element b RR);
    let inferences :=
      if r then add_all inferences (map add [RR; CC]) else inferences in
    interval_loop Greater Less LessEqual GreaterEqual
      x a b [-1; 0; 1] inferences
  else if head_is dom ClosedOpenInterval then
    do '(a, b) <- unpack2 (args_of dom);
    let inferences :=
      add_all inferences [app2 LessEqual a x; app2 Less x b;
                          app2 GreaterEqual x a; app2 Greater b x] in
    do r <- simplifies_to_True (app2 Element a RR);
    let inferences :=
      if r then add_all inferences (map add [RR; CC]) else inferences in
    interval_loop GreaterEqual LessEqual Less Greater
      x a b [-1; 0; 1] inferences
  else ret inferences.

Fixpoint foldM {S A X} (f : A -> X -> St S A) (l : list X) (a : A) : St S A :=
  match l with
  | [] => ret a
  | x :: r => do a' <- f a x; foldM f r a'
  end.

(** [infer_domain]: an [Intersection] is flattened and each member,
    which is then not an [Intersection], is handled in turn. *)
Definition infer_domain (inferences : list Expr) (x dom : Expr)
  : St Limits (list Expr) :=
  if head_is dom Intersection then
    foldM (fun inf dom2 => infer_domain1 inf x dom2)
      (head_args_flattened Intersection dom) inferences
  else infer_domain1 inferences x dom.

(** [Brain.infer]. *)
Definition infer (inferences : list Expr) (thm : Expr)
  : St Limits (list Expr) :=
  let inferences := set_add inferences thm in
  if head_is thm Element then
    do '(x, dom) <- unpack2 (args_of thm);
    do inferences <- infer_domain inferences x dom;
    if head_is dom SetMinus then
      do '(inset, outset) <- unpack2 (args_of dom);
      do inferences <- infer_domain inferences x inset;
      ret (infer_not_domain inferences x outset)
    else ret inferences
  else ret inferences.

(** [Brain.__init__]: the assumptions are the flattened conjunction;
    each one is passed to [infer].  [assumptions = None] gives no
    facts. *)
Definition Brain_init (assumptions : option Expr) (pen : list (Expr * Z))
  : St Limits Brain :=
  let asms :=
    match assumptions with
    | None => []
    | Some a => head_args_flattened And a
    end in
  do facts <- foldM infer asms [];
  ret (plain_brain facts pen).

(** The cheapest side of a constant equation, first one on ties. *)
Definition best_side (pen : list (Expr * Z)) (first : Expr) (rest : list Expr)
  : Expr :=
  min_from (complexity pen) first rest.

(** The three tables filled by the loop of [FungrimBrain.__init__]. *)
Record Tables : Type := {
  t_inferences : list Expr;
  t_expr_db : list (Expr * Expr);
  t_match_db : list (option Expr * list (option string))
}.

Definition option_Expr_eqb (a b : option Expr) : bool :=
  match a, b with
  | Some x, Some y => x == y
  | None, None => true
  | _, _ => false
  end.

Definition option_string_eqb (a b : option string) : bool :=
  match a, b with
  | Some x, Some y => String.eqb x y
  | None, None => true
  | _, _ => false
  end.

(** [match_db[k].add(eid)], or a new singleton set. *)
Fixpoint match_db_add (d : list (option Expr * list (option string)))
    (k : option Expr) (eid : option string)
  : list (option Expr * list (option string)) :=
  match d with
  | [] => [(k, [eid])]
  | (k', ids) :: r =>
      if option_Expr_eqb k' k
      then (k', if existsb (option_string_eqb eid) ids then ids
                else (ids ++ [eid])%list) :: r
      else (k', ids) :: match_db_add r k eid
  end.

(** One turn of the loop over [all_entries]. *)
Definition add_entry (pen : list (Expr * Z)) (t : Tables) (entry : Expr)
  : St Limits Tables :=
  do formula <- lift (get_arg_with_head entry Formula);
  match formula with
  | None => ret t
  | Some formula =>
      do variables <- lift (get_arg_with_head entry Variables);
      match variables with
      | None =>
          (* constant expression *)
          do content <-
            match args_of formula with
            | c :: _ => ret c
            | [] => raise IndexError
            end;
          do inf <- infer (t_inferences t) content;
          if head_is content Equal then
            match args_of content with
            | [] => raise IndexError
            | first :: rest =>
                let best := best_side pen first rest in
                let db :=
                  fold_left
                    (fun db arg => if arg != best then dict_set db arg best else db)
                    (first :: rest) (t_expr_db t) in
                ret {| t_inferences := inf; t_expr_db := db;
                       t_match_db := t_match_db t |}
            end
          else ret {| t_inferences := inf; t_expr_db := t_expr_db t;
                      t_match_db := t_match_db t |}
      | Some _ =>
          (* nonconstant expression for matching *)
          do content <-
            match args_of formula with
            | c :: _ => ret c
            | [] => raise IndexError
            end;
          match content with
          | Call h [lhs; _] =>
              if h == Equal then
                do eid <- lift (Expr_id entry);
                ret {| t_inferences := t_inferences t;
                       t_expr_db := t_expr_db t;
                       t_match_db := match_db_add (t_match_db t) (head lhs) eid |}
              else ret t
          | _ => ret t
          end
      end
  end.

(** [FungrimBrain.__init__]. *)
Definition FungrimBrain_init (assumptions : option Expr)
    (pen : list (Expr * Z)) : St Limits Brain :=
  do b <- Brain_init assumptions pen;
  do t <- foldM (add_entry pen) (all_entries P)
            {| t_inferences := inferences b; t_expr_db := [];
               t_match_db := [] |};
  ret {| is_fungrim := true; inferences := t_inferences t; penalty := pen;
         expr_db := t_expr_db t; match_db := t_match_db t |}.

End Construction.

End Sessions.

(* ================================================================== *)
(** * Concrete collaborators for the examples *)

(** An oracle that encloses nothing: every shape is unsupported.  This
    is what the numeric evaluator answers on a term with a free
    symbol. *)
Definition no_enclosure : NumericOracle := {|
  arb := unit;
  acb := unit;
  neval := fun _ => Err NotImplementedError;
  arb_is_finite := fun _ => true;
  acb_is_finite := fun _ => true;
  acb_of_arb := fun _ => tt;
  acb_real := fun _ => tt;
  acb_imag := fun _ => tt;
  arb_eq0 := fun _ => false;
  arb_ne0 := fun _ => false;
  arb_ge0 := fun _ => false;
  arb_gt0 := fun _ => false;
  arb_le0 := fun _ => false;
  arb_lt0 := fun _ => false;
  acb_ne0 := fun _ => false;
  acb_contains_integer := fun _ => true;
  acb_overlaps := fun _ _ => true;
  acb_contains0 := fun _ => true
|}.

(** A backend that represents the integers only, each within the
    current bit budget.  Anything else is not representable
    ([ValueError]); a division by zero raises [ZeroDivisionError]. *)
Definition fits (lim : Limits) (z : Z) : result Z :=
  if bit_length z <=? bits_limit lim then Ok z else Err ValueError.

Definition integer_backend : AlgBackend := {|
  alg := Z;
  alg_of_int := fits;
  alg_i := fun _ => Err ValueError;
  alg_phi := fun _ => Err ValueError;
  alg_unary := fun lim op a =>
    match op with
    | ANeg => fits lim (- a)
    | ASgn => fits lim (Z.sgn a)
    | AReal => Ok a
    | AImag => Ok 0
    | AAbs => fits lim (Z.abs a)
    | ASqrt =>
        if (0 <=? a) && (Z.sqrt a * Z.sqrt a =? a) then Ok (Z.sqrt a)
        else Err ValueError
    end;
  alg_binary := fun lim op u v =>
    match u, v with
    | Some a, Some b =>
        match op with
        | AAdd => fits lim (a + b)
        | ASub => fits lim (a - b)
        | AMul => fits lim (a * b)
        | ADiv =>
            if b =? 0 then Err ZeroDivisionError
            else if a mod b =? 0 then fits lim (a / b)
            else Err ValueError
        | APow => if 0 <=? b then fits lim (a ^ b) else Err ValueError
        end
    | _, _ => Err TypeError
    end;
  alg_is_rational := fun _ _ => Ok true;
  alg_fmpq := fun _ a => Ok (inject_Z a);
  alg_trig_pi := fun _ _ _ => Err ValueError;
  alg_eq := fun _ a b => Ok (a =? b)
|}.

(** The integer nearest to the square root of [v]. *)
Definition nearest_sqrt (v : Z) : Z :=
  let r := Z.sqrt v in
  if v - r * r <=? r then r else r + 1.

(** The quotient [n / d], for [0 < d], rounded to the nearest integer,
    a tie to the even one. *)
Definition div_half_even (n d : Z) : Z :=
  let q := n / d in
  let r := n mod d in
  if 2 * r <? d then q
  else if d <? 2 * r then q + 1
  else if Z.even q then q else q + 1.

(** [float(v)] for an integer [0 <= v] within the range of the doubles:
    the nearest number with a significand of 53 bits, a tie to the even
    significand.  The result is an integer again. *)
Definition to_double (v : Z) : Z :=
  let e := Z.log2 v + 1 - 53 in
  if e <=? 0 then v else div_half_even v (2 ^ e) * 2 ^ e.

(** [int(round(v ** 0.5))] in IEEE 754 double precision, for an integer
    [0 <= v]: [v] is converted to a double [x]; the power is taken to
    be the correctly rounded square root of [x], the double
    [m * 2 ^ (- sh)] nearest to it, with [2 ^ 52 <= m <= 2 ^ 53];
    [round] gives the nearest integer, a tie to the even one. *)
Definition double_round_sqrt (v : Z) : Z :=
  let x := to_double v in
  let s := Z.sqrt x in
  let sh := 53 - (Z.log2 s + 1) in
  if x =? 0 then 0
  else if 0 <=? sh then
    div_half_even (nearest_sqrt (x * 4 ^ sh)) (2 ^ sh)
  else
    let e := - sh in
    let q := Z.sqrt (x / 4 ^ e) in
    let mid := (q * q + q) * 4 ^ e + 4 ^ (e - 1) in
    (if x <? mid then q
     else if mid <? x then q + 1
     else if Z.even q then q else q + 1) * 2 ^ e.

(** A platform without a formula corpus. *)
Definition bare_platform : Platform := {|
  oracle := no_enclosure;
  backend := integer_backend;
  round_sqrt := double_round_sqrt;
  pairs_order := fun l => l;
  all_entries := [];
  entries_dict := []
|}.

Definition default_limits : Limits :=
  {| degree_limit := 120; bits_limit := 12000 |}.

Definition fresh_store (lim : Limits) : Store :=
  {| limits := lim; simple_cache := [] |}.

(** A session built by [Brain(assumptions=a)] or
    [FungrimBrain(assumptions=a)] on the bare platform, and a call of
    [simple] in it, for the examples. *)
Definition session (fungrim : bool) (a : option Expr) (fuel : nat)
  : outcome Brain :=
  fst ((if fungrim then FungrimBrain_init bare_platform fuel a []
        else Brain_init bare_platform fuel a []) default_limits).

Definition simple_in (B : Brain) (fuel : nat) (e : Expr) : outcome Expr :=
  fst (run_simple bare_platform B fuel e (fresh_store default_limits)).

(** Two calls of [simple] in a row in the same session: the results of
    [simple(t)] and of [simple(simple(t))]. *)
Definition simple_twice (P : Platform) (B : Brain) (fuel : nat) (t : Expr)
    (s : Store) : outcome Expr * outcome Expr :=
  match run_simple P B fuel t s with
  | (Ret r, s') => (Ret r, fst (run_simple P B fuel r s'))
  | (o, _) => (o, o)
  end.


(* ================================================================== *)
(** * The terms selected by the condition of a [Sum] *)

(** [condition_run P self cond var is st kept st'] describes the loop
    of [simple_Sum] over the indices [is], started in store [st]: each
    instance of the condition is simplified in turn; an index is kept
    when its instance becomes [True_] and dropped when it becomes
    [False_]; [kept] is [None] when an instance that was reached became
    neither. *)
Inductive condition_run (P : Platform) (self : Self P) (cond var : Expr)
  : list Z -> Store -> option (list Z) -> Store -> Prop :=
| run_done (st : Store) : condition_run P self cond var [] st (Some []) st
| run_keep (i : Z) (r : list Z) (st st' : Store) (kept : option (list Z))
    (st'' : Store) :
    self_simple P self (replace [(var, Integer i)] cond) st = (Ret True_, st') ->
    condition_run P self cond var r st' kept st'' ->
    condition_run P self cond var (i :: r) st (option_map (cons i) kept) st''
| run_drop (i : Z) (r : list Z) (st st' : Store) (kept : option (list Z))
    (st'' : Store) :
    self_simple P self (replace [(var, Integer i)] cond) st = (Ret False_, st') ->
    condition_run P self cond var r st' kept st'' ->
    condition_run P self cond var (i :: r) st kept st''
| run_undecided (i : Z) (r : list Z) (st : Store) (v : Expr) (st' : Store) :
    self_simple P self (replace [(var, Integer i)] cond) st = (Ret v, st') ->
    (v == True_) = false -> (v == False_) = false ->
    condition_run P self cond var (i :: r) st None st'.

(** The condition of [Sum(expr, forargs)] or [Sum(expr, forargs, cond)]. *)
Definition condition_of (conds : list Expr) : Expr :=
  match conds with [c] => c | _ => True_ end.

(** [expr] with [var := i], for each index. *)
Definition instances (expr var : Expr) (indices : list Z) : list Expr :=
  map (fun i => replace [(var, Integer i)] expr) indices.

(* ================================================================== *)
(** * A one-entry formula corpus for the examples *)

Definition Entry := Symbol "Entry".

(** [Entry(ID("sqrt_m4"), Formula(Equal(Sqrt(-4), Pow(-4, Div(1, 2)))))]:
    a constant equation, without [Variables]. *)
Definition sqrt_entry : Expr :=
  Call Entry
    [Call ID [Text "sqrt_m4"];
     Call Formula
       [app2 Equal (app1 Sqrt (Integer (-4)))
          (app2 Pow (Integer (-4)) (app2 Div (Integer 1) (Integer 2)))]].

Definition corpus_platform : Platform := {|
  oracle := no_enclosure;
  backend := integer_backend;
  round_sqrt := double_round_sqrt;
  pairs_order := fun l => l;
  all_entries := [sqrt_entry];
  entries_dict := [("sqrt_m4", sqrt_entry)]
|}.

(** The session [FungrimBrain()] built on that corpus. *)
Definition corpus_session : Brain := {|
  is_fungrim := true;
  inferences :=
    [app2 Equal (app1 Sqrt (Integer (-4)))
       (app2 Pow (Integer (-4)) (app2 Div (Integer 1) (Integer 2)))];
  penalty := [];
  expr_db :=
    [(app2 Pow (Integer (-4)) (app2 Div (Integer 1) (Integer 2)),
      app1 Sqrt (Integer (-4)))];
  match_db := []
|}.

(** The facts that [infer] derives from the hypothesis [x] in [ZZ]. *)
Definition int_facts (x : string) : list Expr :=
  map (app2 Element (Symbol x)) [ZZ; QQ; RR; CC; AlgebraicNumbers].

(* ================================================================== *)
(** * Terms without operator rules *)

(** The operator rules translated above. *)
Definition embedded_simple_methods : list string :=
  ["Not"; "And"; "Or"; "Implies"; "Equal"; "NotEqual"; "Element";
   "NotElement"; "LessEqual"; "Less"; "GreaterEqual"; "Greater"; "Pos";
   "Parentheses"; "Brackets"; "Braces"; "Neg"; "Add"; "Sub"; "Sqrt"; "Sum"].

(** [hasattr(self, "simple_" + s)]. *)
Definition has_rule (s : string) : bool :=
  existsb (String.eqb s)
    (embedded_simple_methods ++ "cache" :: other_simple_methods)%list.

(** A term in which every application that [simple] can reach either
    has a symbol head without operator rule, or a head that is not a
    symbol (such an application is returned as it is). *)
Fixpoint rule_free (t : Expr) : bool :=
  match t with
  | Call (Symbol s) l =>
      negb (has_rule s) &&
      (fix all (l : list Expr) : bool :=
         match l with
         | [] => true
         | x :: r => rule_free x && all r
         end) l
  | _ => true
  end.

(** Nesting depth of applications. *)
Fixpoint height (t : Expr) : nat :=
  match t with
  | Call _ l =>
      S ((fix top (l : list Expr) : nat :=
            match l with
            | [] => O
            | x :: r => Nat.max (height x) (top r)
            end) l)
  | _ => O
  end.

(** The literal [True_] is the term or occurs in it below some
    argument position. *)
Fixpoint has_True (e : Expr) : bool :=
  (e == True_) ||
  match e with
  | Call _ l =>
      (fix any (l : list Expr) : bool :=
         match l with
         | [] => false
         | x :: r => has_True x || any r
         end) l
  | _ => false
  end.

Definition has_True_arg (e : Expr) : bool :=
  match e with
  | Call _ l => existsb has_True l
  | _ => false
  end.

(** No fact of the session has the literal [True_] among its
    arguments, at any depth. *)
Definition true_free (facts : list Expr) : bool :=
  forallb (fun f => negb (has_True_arg f)) facts.

(** What [Brain.simple] computes on a term without operator rules:
    a fact becomes [True_]; an application of a symbol is rebuilt from
    its simplified arguments; anything else is returned as it is. *)
Fixpoint replace_facts (facts : list Expr) (t : Expr) : Expr :=
  if Expr_in t facts then True_
  else
    match t with
    | Call (Symbol s) l => Call (Symbol s) (map (replace_facts facts) l)
    | _ => t
    end.

(** Two properties of a cache, relative to the facts of the session:
    every finished entry holds what [replace_facts] gives on its key;
    [pending c k] says that [k] is marked as in progress. *)
Definition cache_done (facts : list Expr) (c : list (Expr * option Expr))
  : Prop :=
  forall k v, dict_get c k = Some (Some v) -> v = replace_facts facts k.

Definition pending (c : list (Expr * option Expr)) (k : Expr) : Prop :=
  dict_get c k = Some None.

(* ================================================================== *)
(** * expr.py: traversals, substitution and construction *)

(** [escape_title(name)]: [name.replace(" ", "_")]. *)
Fixpoint escape_title (name : string) : string :=
  match name with
  | EmptyString => EmptyString
  | String c r =>
      String (if Ascii.eqb c " " then "_"%char else c) (escape_title r)
  end.

(** [self._args] of an application: the head, then the arguments. *)
Definition _args (h : Expr) (l : list Expr) : list Expr := h :: l.

(** [Expr.atoms()], as the list it generates. *)
Fixpoint atoms (self : Expr) : list Expr :=
  match self with
  | Call h l => atoms h ++ flat_map atoms l
  | _ => [self]
  end.

(** The loop [for x in l: if x not in seen: yield x; seen.add(x)]. *)
Fixpoint unseen (seen : list Expr) (l : list Expr) : list Expr :=
  match l with
  | [] => []
  | x :: r =>
      if Expr_in x seen then unseen seen r else x :: unseen (x :: seen) r
  end.

(** [Expr.atoms(unique=True)]. *)
Definition atoms_unique (self : Expr) : list Expr :=
  match self with
  | Call h l => unseen [] (flat_map atoms (_args h l))
  | _ => [self]
  end.

(** [Expr.symbols()] and [Expr.symbols(unique=True)]. *)
Fixpoint symbols (self : Expr) : list Expr :=
  match self with
  | Symbol _ => [self]
  | Call h l => symbols h ++ flat_map symbols l
  | _ => []
  end.

Definition symbols_unique (self : Expr) : list Expr :=
  match self with
  | Symbol _ => [self]
  | Call h l => unseen [] (flat_map symbols (_args h l))
  | _ => []
  end.

(** [Expr.subexpressions()] and [Expr.subexpressions(unique=True)]. *)
Fixpoint subexpressions (self : Expr) : list Expr :=
  self ::
  match self with
  | Call h l => subexpressions h ++ flat_map subexpressions l
  | _ => []
  end.

Definition subexpressions_unique (self : Expr) : list Expr :=
  self ::
  match self with
  | Call h l => unseen [] (flat_map subexpressions (_args h l))
  | _ => []
  end.

(** [Expr.subexpressions_with_head(head)]. *)
Fixpoint subexpressions_with_head (head : Expr) (self : Expr) : list Expr :=
  ((if head_is self head then [self] else []) ++
   match self with
   | Call h l =>
       subexpressions_with_head head h
       ++ flat_map (subexpressions_with_head head) l
   | _ => []
   end)%list.

(** brain.py: [And_terms(expr)]. *)
Fixpoint And_terms (expr : Expr) : list Expr :=
  match expr with
  | Call g l => if g == And then flat_map And_terms l else [expr]
  | _ => [expr]
  end.

(** Number of nodes of a term. *)
Fixpoint size (e : Expr) : nat :=
  match e with
  | Call h l => S (size h + list_sum (map size l))
  | _ => 1
  end.

(** Some subexpression of [e] (the term itself included) is one of
    [ks]. *)
Definition mentions (ks : list Expr) (e : Expr) : bool :=
  existsb (fun s => Expr_in s ks) (subexpressions e).

(** [rules.keys()]. *)
Definition keys {V} (rules : list (Expr * V)) : list Expr := map fst rules.

(* ================================================================== *)
(** * brain.py: matching against a rule *)

(** The loop [for a, b in zip(expr_args, rule_args): match_recursive(a, b)]
    of [Brain.match], on argument lists of the same length. *)
Fixpoint match_args (free_variables : list Expr) (rs es : list Expr)
    (mv : list (Expr * Expr)) : option (list (Expr * Expr)) :=
  match rs, es with
  | r :: rs', e :: es' =>
      match match_recursive free_variables r e mv with
      | Some mv' => match_args free_variables rs' es' mv'
      | None => None
      end
  | _, _ => Some mv
  end.

(** Every binding of [m] is a binding of [m']. *)
Definition extends (m m' : list (Expr * Expr)) : Prop :=
  forall k v, dict_get m k = Some v -> dict_get m' k = Some v.

(** Every key of [m] is one of [ks]. *)
Definition keys_in (ks : list Expr) (m : list (Expr * Expr)) : Prop :=
  forall k v, dict_get m k = Some v -> Expr_in k ks = true.

(** An entry with a variable, for the examples:
    [Entry(ID("twice"), Formula(Equal(f(x), g(x, x))), Variables(x))]. *)
Definition twice_entry : Expr :=
  Call Entry
    [Call ID [Text "twice"];
     Call Formula
       [app2 Equal (app1 (Symbol "f") (Symbol "x"))
          (app2 (Symbol "g") (Symbol "x") (Symbol "x"))];
     Call Variables [Symbol "x"]].

Definition rules_platform : Platform := {|
  oracle := no_enclosure;
  backend := integer_backend;
  round_sqrt := double_round_sqrt;
  pairs_order := fun l => l;
  all_entries := [twice_entry];
  entries_dict := [("twice", twice_entry)]
|}.

(* ================================================================== *)
(** * brain.py: the simplification cache *)

(** The shape of a memoized call: the term is marked as in progress,
    the work is done, the result is stored. *)
Definition memo (e : Expr) (m : St Store Expr) : St Store Expr :=
  do _ <- cache_set e None;
  do x <- m;
  do _ <- cache_set e (Some x);
  ret x.

(* ================================================================== *)
(** * brain.py: building a session *)

(** [Brain(assumptions=a)] or [FungrimBrain(assumptions=a)]. *)
Definition new_session (P : Platform) (fuel : nat) (fungrim : bool)
    (a : option Expr) (pen : list (Expr * Z)) : St Limits Brain :=
  if fungrim then FungrimBrain_init P fuel a pen else Brain_init P fuel a pen.

(** The conjuncts of the assumptions given to [Brain.__init__]. *)
Definition conjuncts (a : option Expr) : list Expr :=
  match a with
  | None => []
  | Some a => head_args_flattened And a
  end.

(** The session [Brain(assumptions=And(Element(x, ZZ), Greater(x, 0)))]
    on the bare platform, for the examples. *)
Definition positive_integer_session : Brain :=
  plain_brain
    (int_facts "x" ++ [app2 Greater (Symbol "x") (Integer 0)])%list [].

(* ================================================================== *)
(** * brain.py: integer literals *)

(** How [self] answers on integer atoms when no atom is a fact. *)
Definition plain_atoms (P : Platform) (self : Self P) : Prop :=
  forall v st, self_simple P self (Integer v) st = (Ret (Integer v), st).

(** The store after a memoized call that found nothing in the cache
    and whose rule left the store alone. *)
Definition remember (e r : Expr) (st : Store) : Store :=
  snd (cache_set e (Some r) (snd (cache_set e None st))).

(* ================================================================== *)
(** * brain.py: propositional formulas *)

(** Propositional formulas over the truth literals: [True_], [False_],
    and applications of [And] and [Or] to any number of formulas, of
    [Not] to one and of [Implies] to two. *)
Fixpoint formula (t : Expr) : bool :=
  match t with
  | Symbol s => String.eqb s "True_" || String.eqb s "False_"
  | Call (Symbol s) l =>
      (String.eqb s "And" || String.eqb s "Or"
       || (String.eqb s "Not" && (List.length l =? 1)%nat)
       || (String.eqb s "Implies" && (List.length l =? 2)%nat))
      && (fix all (l : list Expr) : bool :=
            match l with
            | [] => true
            | x :: r => formula x && all r
            end) l
  | _ => false
  end.

(** The truth value of a formula. *)
Fixpoint value (t : Expr) : bool :=
  match t with
  | Symbol s => String.eqb s "True_"
  | Call (Symbol s) l =>
      if String.eqb s "And" then
        (fix all (l : list Expr) : bool :=
           match l with
           | [] => true
           | x :: r => value x && all r
           end) l
      else if String.eqb s "Or" then
        (fix any (l : list Expr) : bool :=
           match l with
           | [] => false
           | x :: r => value x || any r
           end) l
      else if String.eqb s "Not" then
        match l with [x] => negb (value x) | _ => false end
      else if String.eqb s "Implies" then
        match l with [p; q] => implb (value p) (value q) | _ => false end
      else false
  | _ => false
  end.

Definition literal (b : bool) : Expr := if b then True_ else False_.

(** Finished cache entries of formulas hold their truth values. *)
Definition cache_valued (c : list (Expr * option Expr)) : Prop :=
  forall k v, dict_get c k = Some (Some v) -> formula k = true ->
              v = literal (value k).

(* ================================================================== *)
(** * brain.py: custom_cartesian *)

(** [range(n)]. *)
Definition range (n : Z) : list Z := map Z.of_nat (seq 0 (Z.to_nat n)).

(** [l[i]] for an index that was checked to be within bounds. *)
Definition item {T} (l : list T) (i : Z) : option T :=
  nth_error l (Z.to_nat i).

(** [0 <= i < n]. *)
Definition within (i n : Z) : bool := (0 <=? i) && (i <? n).

(** [itertools.product] of the lists: the rightmost position advances
    fastest; the product of no lists is the empty tuple alone. *)
Fixpoint product {T} (lists : list (list T)) : list (list T) :=
  match lists with
  | [] => [[]]
  | l :: r => flat_map (fun x => map (cons x) (product r)) l
  end.

(** The tuple of the items picked at the given positions; nothing when
    a position is out of bounds. *)
Fixpoint pick {T} (lists : list (list T)) (pos : list Z)
  : list (list T) :=
  match lists, pos with
  | [], [] => [[]]
  | l :: ls, i :: is_ =>
      match item l i with
      | Some x => map (cons x) (pick ls is_)
      | None => []
      end
  | _, _ => []
  end.

Definition len {T} (l : list T) : Z := Z.of_nat (List.length l).

(** [custom_cartesian] of the lists, tuples as lists: the yielded tuples in
    the order of the generator. *)
Definition custom_cartesian {T} (lists : list (list T)) : list (list T) :=
  match lists with
  | [l0] => map (fun v => [v]) l0
  | [l0; l1] =>
      let A := len l0 in
      let B := len l1 in
      flat_map (fun N =>
        flat_map (fun i =>
          let a := i in
          let b := N - i in
          if within a A && within b B
          then pick [l0; l1] [a; b] else [])
          (range (N + 1)))
        (range (Z.max A B))
  | [l0; l1; l2] =>
      let A := len l0 in
      let B := len l1 in
      let C := len l2 in
      flat_map (fun N =>
        flat_map (fun i =>
          flat_map (fun j =>
            let a := i in
            let b := N - i in
            let c := N - i - j in
            if within a A && within b B && within c C
            then pick [l0; l1; l2] [a; b; c] else [])
            (range (N + 1)))
          (range (N + 1)))
        (range (Z.max (Z.max A B) C))
  | [l0; l1; l2; l3] =>
      let A := len l0 in
      let B := len l1 in
      let C := len l2 in
      let D := len l3 in
      flat_map (fun N =>
        flat_map (fun i =>
          flat_map (fun j =>
            flat_map (fun k =>
              let a := i in
              let b := N - i in
              let c := N - i - j in
              let d := N - i - j - k in
              if within a A && within b B && within c C && within d D
              then pick [l0; l1; l2; l3] [a; b; c; d] else [])
              (range (N + 1)))
            (range (N + 1)))
          (range (N + 1)))
        (range (Z.max (Z.max (Z.max A B) C) D))
  | _ => product lists
  end.

(* ================================================================== *)
(** * brain.py: interleave_longest *)

From Stdlib Require Import Permutation.

(** [zip_longest] of the iterables with a fill value [o], chained: the
    items at position 0 of every iterable, then those at position 1,
    and so on up to the longest; [None] stands for the fill value, a
    fresh object. *)
Definition zip_longest_chained {T} (iterables : list (list T))
  : list (option T) :=
  flat_map (fun i => map (fun l => nth_error l i) iterables)
    (seq 0 (fold_right Nat.max 0%nat (map (@List.length T) iterables))).

(** [interleave_longest]: the chained items that are not the fill
    value. *)
Definition interleave_longest {T} (iterables : list (list T)) : list T :=
  flat_map (fun x => match x with Some v => [v] | None => [] end)
    (zip_longest_chained iterables).

(** The items at the front of the lists, and the rest. *)
Definition fronts {T} (ls : list (list T)) : list T :=
  flat_map (fun l => match l with x :: _ => [x] | [] => [] end) ls.

Fixpoint rounds {T} (n : nat) (ls : list (list T)) : list T :=
  match n with
  | O => []
  | S n => fronts ls ++ rounds n (map (@tl T) ls)
  end.
(* ================================================================== *)
(** * Term model: equality, constructor, head and args *)

Lemma Expr_eqb_refl (e : Expr) : (e == e) = true.
Proof.
  induction e as [s | z | s | h l IHh IHl] using Expr_ind'; simpl.
  - apply String.eqb_refl.
  - apply Z.eqb_refl.
  - apply String.eqb_refl.
  - rewrite IHh. simpl.
    induction IHl as [| x r Hx _ IHr]; [reflexivity |].
    now rewrite Hx, IHr.
Qed.

Lemma Expr_eqb_eq (a b : Expr) : (a == b) = true <-> a = b.
Proof.
  split; [| intros ->; apply Expr_eqb_refl].
  revert b.
  induction a as [s | z | s | h l IHh IHl] using Expr_ind';
    intros [t | y | t | h' l']; simpl; try discriminate.
  - intros H. apply String.eqb_eq in H. now subst.
  - intros H. apply Z.eqb_eq in H. now subst.
  - intros H. apply String.eqb_eq in H. now subst.
  - intros H. apply andb_true_iff in H as [Hh Hl].
    apply IHh in Hh. subst h'. f_equal.
    revert l' Hl.
    induction IHl as [| x r Hx _ IHr]; intros [| y r'] Hl;
      try discriminate; [reflexivity |].
    apply andb_true_iff in Hl as [Hxy Hr].
    apply Hx in Hxy. apply IHr in Hr. now subst.
Qed.

Lemma Expr_eqb_neq (a b : Expr) : (a == b) = false <-> a <> b.
Proof.
  split.
  - intros H E. apply Expr_eqb_eq in E. congruence.
  - intros H. destruct (a == b) eqn:E; [| reflexivity].
    apply Expr_eqb_eq in E. contradiction.
Qed.

Lemma Expr_eqb_sym (a b : Expr) : (a == b) = (b == a).
Proof.
  destruct (a == b) eqn:E.
  - apply Expr_eqb_eq in E. subst. symmetry. apply Expr_eqb_refl.
  - destruct (b == a) eqn:E'; [| reflexivity].
    apply Expr_eqb_eq in E'. subst. now rewrite Expr_eqb_refl in E.
Qed.

Lemma Expr_in_In (e : Expr) (l : list Expr) : Expr_in e l = true <-> In e l.
Proof.
  unfold Expr_in. rewrite existsb_exists. split.
  - intros [x [Hx E]]. apply Expr_eqb_eq in E. now subst.
  - intros H. exists e. split; [assumption | apply Expr_eqb_refl].
Qed.

Lemma Expr_new_default (arg : PyVal) : Expr_new arg None None = Expr_of arg.
Proof. destruct arg; reflexivity. Qed.

(** C10.  On every atom, whether symbol, integer or text, [head()] and
    [args()] both return [None]; neither of them can raise. *)
Theorem head_args_of_atom :
  (forall s, head (Symbol s) = None /\ args (Symbol s) = None) /\
  (forall z, head (Integer z) = None /\ args (Integer z) = None) /\
  (forall s, head (Text s) = None /\ args (Text s) = None).
Proof. repeat split. Qed.

(** C9, as the claim states it, fails: an application with a head and
    no arguments is built without any fault, both by [Expr(call=(f,))]
    and by calling the symbol [f] with no arguments. *)
Lemma zero_arity_application_is_built :
  Expr_new PyNone None (Some [PyExpr (Symbol "f")]) = Ret (Call (Symbol "f") [])
  /\ Expr_call (Symbol "f") [] = Ret (Call (Symbol "f") [])
  /\ raises (Expr_call (Symbol "f") []) = false.
Proof. repeat split. Qed.

(** C9, amended.  The assertion of the constructor rejects only an
    empty call tuple, one without a head: [Expr(call=())] raises
    [AssertionError].  A call tuple that holds just a head [f], and so
    the call [f()] of any expression [f], yields the application with
    head [f] and the empty argument tuple. *)
Theorem empty_call_tuple_faults :
  Expr_new PyNone None (Some []) = Raise AssertionError /\
  (forall f : Expr,
     Expr_new PyNone None (Some [PyExpr f]) = Ret (Call f []) /\
     Expr_call f [] = Ret (Call f []) /\
     head (Call f []) = Some f /\ args (Call f []) = Some []).
Proof. repeat split. Qed.

(* ================================================================== *)
(** * The complexity metric *)

Lemma bit_length_nonneg (v : Z) : 0 <= bit_length v.
Proof. destruct v; simpl; lia. Qed.

Lemma complexity_Call (pen : list (Expr * Z)) (h : Expr) (l : list Expr) :
  dict_get pen (Call h l) = None ->
  complexity pen (Call h l)
  = complexity pen h + 2 * sum_complexity pen l + 1.
Proof.
  intros H.
  assert (E : forall l,
             (fix sum (l : list Expr) : Z :=
                match l with
                | [] => 0
                | arg :: r => complexity pen arg + sum r
                end) l = sum_complexity pen l).
  { intros l0. induction l0 as [| x r IH]; [reflexivity |].
    cbn [sum_complexity]. now rewrite <- IH. }
  rewrite <- E.
  replace (complexity pen (Call h l))
    with (match dict_get pen (Call h l) with
          | Some p => p
          | None =>
              complexity pen h
              + 2 * (fix sum (l : list Expr) : Z :=
                       match l with
                       | [] => 0
                       | arg :: r => complexity pen arg + sum r
                       end) l + 1
          end) by reflexivity.
  now rewrite H.
Qed.

Lemma complexity_atom_pos (e : Expr) :
  is_atom e = true -> 1 <= complexity [] e.
Proof.
  destruct e as [s | z | s | h l]; intros H; try discriminate;
    cbn [complexity dict_get].
  - repeat match goal with
           | |- context [if Expr_in ?a ?b then _ else _] => destruct (Expr_in a b)
           end; lia.
  - pose proof (bit_length_nonneg z). destruct (z <? 0); lia.
Qed.

Lemma complexity_pos (e : Expr) : 1 <= complexity [] e.
Proof.
  induction e as [s | z | s | h l IHh IHl] using Expr_ind';
    try (apply complexity_atom_pos; reflexivity).
  rewrite complexity_Call by reflexivity.
  assert (0 <= sum_complexity [] l).
  { induction IHl as [| x r Hx _ IHr]; simpl; lia. }
  lia.
Qed.

(** C8, as the claim states it, fails on negative integers: [-1] costs
    3, while 1 + bitlength(-1) is 2. *)
Lemma negative_integer_costs_more :
  complexity [] (Integer (-1)) = 3 /\ 1 + bit_length (-1) = 2 /\
  complexity [] (Integer (-1)) <> 1 + bit_length (-1).
Proof. repeat split. discriminate. Qed.

(** C8, amended.  With an empty penalty map the complexity is a total
    function with value at least 1 on every term; an integer atom [n]
    costs 1 + bitlength(n), plus 1 when [n] is negative; an application
    costs complexity(head) + 2 * (sum of the complexities of the
    arguments) + 1. *)
Theorem complexity_metric :
  (forall e, 1 <= complexity [] e) /\
  (forall n, complexity [] (Integer n)
             = 1 + bit_length n + (if n <? 0 then 1 else 0)) /\
  (forall h l, complexity [] (Call h l)
               = complexity [] h + 2 * sum_complexity [] l + 1).
Proof.
  split; [exact complexity_pos |].
  split; [reflexivity |].
  intros h l. now apply complexity_Call.
Qed.

(* ================================================================== *)
(** * The backend budgets are left as they were found *)

(** A computation is framed when the budgets after it are the budgets
    before it, whatever its outcome. *)
Definition frame {A} (m : St Store A) : Prop :=
  forall s, limits (snd (m s)) = limits s.

Section Frame.

Context {A B : Type}.

Lemma frame_ret (a : A) : frame (ret a).
Proof. intros s. reflexivity. Qed.

Lemma frame_raise (e : exn) : frame (@raise Store A e).
Proof. intros s. reflexivity. Qed.

Lemma frame_halt (r : stop) : frame (@halt Store A r).
Proof. intros s. reflexivity. Qed.

Lemma frame_lift (o : outcome A) : frame (lift o).
Proof. intros s. reflexivity. Qed.

Lemma frame_of_result (r : result A) : frame (of_result r).
Proof. destruct r; intros s; reflexivity. Qed.

Lemma frame_bind (m : St Store A) (k : A -> St Store B) :
  frame m -> (forall a, frame (k a)) -> frame (bind m k).
Proof.
  intros Hm Hk s. unfold bind.
  specialize (Hm s). destruct (m s) as [[a | e | r] s']; simpl in *.
  - rewrite Hk. exact Hm.
  - exact Hm.
  - exact Hm.
Qed.

Lemma frame_try_except (m h : St Store A) (caught : exn -> bool) :
  frame m -> frame h -> frame (try_except m caught h).
Proof.
  intros Hm Hh s. unfold try_except.
  specialize (Hm s). destruct (m s) as [[a | e | r] s']; simpl in *;
    try exact Hm.
  destruct (caught e); simpl; [rewrite Hh |]; exact Hm.
Qed.

End Frame.

Lemma frame_get_limits : frame get_limits.
Proof. intros s. reflexivity. Qed.

Lemma frame_cache_get (e : Expr) : frame (cache_get e).
Proof. intros s. reflexivity. Qed.

Lemma frame_cache_set (e : Expr) (v : option Expr) : frame (cache_set e v).
Proof. intros s. reflexivity. Qed.

(** The one place that writes the budgets: they are read, widened for
    the duration of [m], and written back by the [finally] clause. *)
Lemma frame_scoped {A} (d b : Z) (m : St Store A) :
  frame m ->
  frame (do orig <- get_limits;
         try_finally
           (do _ <- alg_set_degree_limit d;
            do _ <- alg_set_bits_limit b;
            m)
           (do _ <- alg_set_degree_limit (degree_limit orig);
            alg_set_bits_limit (bits_limit orig))).
Proof.
  intros Hm s. unfold bind, get_limits, try_finally,
    alg_set_degree_limit, alg_set_bits_limit. simpl.
  destruct (m _) as [o s']. simpl.
  destruct (limits s). reflexivity.
Qed.

Lemma frame_mapM {A B} (f : A -> St Store B) (l : list A) :
  (forall a, frame (f a)) -> frame (mapM f l).
Proof.
  intros Hf. induction l as [| x r IH]; simpl.
  - apply frame_ret.
  - apply frame_bind; [apply Hf | intros y].
    apply frame_bind; [exact IH | intros ys]. apply frame_ret.
Qed.

Lemma frame_allM {A} (f : A -> St Store bool) (l : list A) :
  (forall a, frame (f a)) -> frame (allM f l).
Proof.
  intros Hf. induction l as [| x r IH]; simpl.
  - apply frame_ret.
  - apply frame_bind; [apply Hf | intros [|]]; [exact IH | apply frame_ret].
Qed.

Lemma frame_anyM {A} (f : A -> St Store bool) (l : list A) :
  (forall a, frame (f a)) -> frame (anyM f l).
Proof.
  intros Hf. induction l as [| x r IH]; simpl.
  - apply frame_ret.
  - apply frame_bind; [apply Hf | intros [|]]; [apply frame_ret | exact IH].
Qed.

Lemma frame_andM (a b : St Store bool) : frame a -> frame b -> frame (a &&& b).
Proof.
  intros Ha Hb. apply frame_bind; [exact Ha | intros [|]];
    [exact Hb | apply frame_ret].
Qed.

Lemma frame_orM (a b : St Store bool) : frame a -> frame b -> frame (a ||| b).
Proof.
  intros Ha Hb. apply frame_bind; [exact Ha | intros [|]];
    [apply frame_ret | exact Hb].
Qed.

Lemma frame_holds (m : St Store tern) : frame m -> frame (holds m).
Proof. intros H. apply frame_bind; [exact H | intros t; apply frame_ret]. Qed.

Lemma frame_refuted (m : St Store tern) : frame m -> frame (refuted m).
Proof. intros H. apply frame_bind; [exact H | intros t; apply frame_ret]. Qed.

Lemma frame_fall {A} : frame (@fall Store A).
Proof. apply frame_ret. Qed.

Lemma frame_return_ {A} (v : A) : frame (@return_ Store A v).
Proof. apply frame_ret. Qed.

Lemma frame_returnM {A} (m : St Store A) : frame m -> frame (returnM m).
Proof. intros H. apply frame_bind; [exact H | intros v; apply frame_ret]. Qed.

Lemma frame_seqb {A} (b1 b2 : block Store A) :
  frame b1 -> frame b2 -> frame (b1 ;; b2).
Proof.
  intros H1 H2. apply frame_bind; [exact H1 | intros [v |]];
    [apply frame_ret | exact H2].
Qed.

Lemma frame_If {A} (c : bool) (b : block Store A) : frame b -> frame (If c b).
Proof. intros H. destruct c; [exact H | apply frame_fall]. Qed.

Lemma frame_IfM {A} (c : St Store bool) (b : block Store A) :
  frame c -> frame b -> frame (IfM c b).
Proof.
  intros Hc Hb. apply frame_bind; [exact Hc | intros [|]];
    [exact Hb | apply frame_fall].
Qed.

Lemma frame_body {A} (b : block Store A) (d : A) : frame b -> frame (body b d).
Proof.
  intros H. apply frame_bind; [exact H | intros [v |]]; apply frame_ret.
Qed.

Lemma frame_unpack1 (l : list Expr) : frame (unpack1 l).
Proof.
  destruct l as [| x [| y r]]; first [apply frame_ret | apply frame_raise].
Qed.

Lemma frame_unpack2 (l : list Expr) : frame (unpack2 l).
Proof.
  destruct l as [| x [| y [| z r]]]; first [apply frame_ret | apply frame_raise].
Qed.

Lemma frame_unpack3 (l : list Expr) : frame (unpack3 l).
Proof.
  destruct l as [| x [| y [| z [| w r]]]];
    first [apply frame_ret | apply frame_raise].
Qed.

Lemma frame_call1 (f : Expr -> St Store Expr) (l : list Expr) :
  (forall x, frame (f x)) -> frame (call1 f l).
Proof.
  intros H. destruct l as [| x [| y r]]; first [apply H | apply frame_raise].
Qed.

Lemma frame_call2 (f : Expr -> Expr -> St Store Expr) (l : list Expr) :
  (forall x y, frame (f x y)) -> frame (call2 f l).
Proof.
  intros H. destruct l as [| x [| y [| z r]]];
    first [apply H | apply frame_raise].
Qed.

Create HintDb frame_db.
#[local] Hint Resolve frame_ret frame_raise frame_halt frame_lift
  frame_of_result frame_get_limits frame_cache_get frame_cache_set
  frame_fall frame_return_ frame_unpack1 frame_unpack2 frame_unpack3
  : frame_db.

Section FrameMethods.

Context (P : Platform) (B : Brain).

(** Every method reached through [self] is framed. *)
Record frame_self (self : Self P) : Prop := {
  fr_simple : forall e, frame (self_simple P self e);
  fr_is_zero : forall e, frame (self_is_zero P self e);
  fr_is_infinity : forall e, frame (self_is_infinity P self e);
  fr_is_nonnegative : forall e, frame (self_is_nonnegative P self e);
  fr_is_positive : forall e, frame (self_is_positive P self e);
  fr_is_integer : forall e, frame (self_is_integer P self e);
  fr_is_rational : forall e, frame (self_is_rational P self e);
  fr_is_algebraic : forall e, frame (self_is_algebraic P self e);
  fr_is_real : forall e, frame (self_is_real P self e);
  fr_is_complex : forall e, frame (self_is_complex P self e);
  fr_equal : forall a b, frame (self_equal P self a b);
  fr_element : forall a b, frame (self_element P self a b);
  fr_evaluate_alg : forall e, frame (self_evaluate_alg P self e);
  fr_simple_Sqrt : forall e, frame (self_simple_Sqrt P self e)
}.

Ltac framed :=
  repeat first
    [ progress intros
    | solve [eauto with frame_db]
    | match goal with
      | |- frame (_ ;; _) => apply frame_seqb
      | |- frame (If _ _) => apply frame_If
      | |- frame (IfM _ _) => apply frame_IfM
      | |- frame (body _ _) => apply frame_body
      | |- frame (holds _) => apply frame_holds
      | |- frame (refuted _) => apply frame_refuted
      | |- frame (returnM _) => apply frame_returnM
      | |- frame (_ &&& _) => apply frame_andM
      | |- frame (_ ||| _) => apply frame_orM
      | |- frame (allM _ _) => apply frame_allM
      | |- frame (anyM _ _) => apply frame_anyM
      | |- frame (mapM _ _) => apply frame_mapM
      | |- frame (try_except _ _ _) => apply frame_try_except
      | |- frame (call1 _ _) => apply frame_call1
      | |- frame (call2 _ _) => apply frame_call2
      | |- frame (bind get_limits _) =>
          first [apply frame_scoped | apply frame_bind]
      | |- frame (bind _ _) => apply frame_bind
      | |- frame (match ?x with _ => _ end) => destruct x
      | |- frame (if ?c then _ else _) => destruct c
      | |- frame (let _ := _ in _) => cbv zeta
      end ].

Lemma frame_real_enclosure (x : Expr) : frame (real_enclosure P x).
Proof. unfold real_enclosure. framed. Qed.

Lemma frame_complex_enclosure (x : Expr) : frame (complex_enclosure P x).
Proof. unfold complex_enclosure. framed. Qed.

#[local] Hint Resolve frame_real_enclosure frame_complex_enclosure : frame_db.

Lemma frame_sign_from_enclosure yes no (x : Expr) :
  frame (sign_from_enclosure P yes no x).
Proof. unfold sign_from_enclosure. framed. Qed.

#[local] Hint Resolve frame_sign_from_enclosure : frame_db.

Lemma frame_is_negative (x : Expr) : frame (is_negative P B x).
Proof. unfold is_negative. framed. Qed.

Lemma frame_is_nonpositive (x : Expr) : frame (is_nonpositive P B x).
Proof. unfold is_nonpositive. framed. Qed.

#[local] Hint Resolve frame_is_negative frame_is_nonpositive : frame_db.

Section WithSelf.

Variable self : Self P.
Hypothesis Hself : frame_self self.

Let H1 := fr_simple self Hself.
Let H2 := fr_is_zero self Hself.
Let H3 := fr_is_infinity self Hself.
Let H4 := fr_is_nonnegative self Hself.
Let H5 := fr_is_positive self Hself.
Let H6 := fr_is_integer self Hself.
Let H7 := fr_is_rational self Hself.
Let H8 := fr_is_algebraic self Hself.
Let H9 := fr_is_real self Hself.
Let H10 := fr_is_complex self Hself.
Let H11 := fr_equal self Hself.
Let H12 := fr_element self Hself.
Let H13 := fr_evaluate_alg self Hself.
Let H14 := fr_simple_Sqrt self Hself.

#[local] Hint Resolve H1 H2 H3 H4 H5 H6 H7 H8 H9 H10 H11 H12 H13 H14 : frame_db.

Lemma frame_is_not_zero (x : Expr) : frame (is_not_zero P self x).
Proof. unfold is_not_zero. framed. Qed.

#[local] Hint Resolve frame_is_not_zero : frame_db.

Lemma frame_is_zero (x : Expr) : frame (is_zero P B self x).
Proof. unfold is_zero. framed. Qed.

Lemma frame_is_infinity (x : Expr) : frame (is_infinity P B self x).
Proof. unfold is_infinity. framed. Qed.

Lemma frame_is_nonnegative (x : Expr) : frame (is_nonnegative P B self x).
Proof. unfold is_nonnegative. framed. Qed.

Lemma frame_is_positive (x : Expr) : frame (is_positive P B self x).
Proof. unfold is_positive. framed. Qed.

Lemma frame_infinite_or_undefined (x : Expr) :
  frame (infinite_or_undefined P self x).
Proof. unfold infinite_or_undefined. framed. Qed.

#[local] Hint Resolve frame_infinite_or_undefined : frame_db.

Lemma frame_Brain_is_integer (x : Expr) : frame (Brain_is_integer P B self x).
Proof. unfold Brain_is_integer. framed. Qed.

Lemma frame_is_rational (x : Expr) : frame (is_rational P B self x).
Proof. unfold is_rational. framed. Qed.

Lemma frame_is_algebraic (x : Expr) : frame (is_algebraic P B self x).
Proof. unfold is_algebraic. framed. Qed.

Lemma frame_is_real (x : Expr) : frame (is_real P B self x).
Proof. unfold is_real. framed. Qed.

Lemma frame_is_complex (x : Expr) : frame (is_complex P B self x).
Proof. unfold is_complex. framed. Qed.

Lemma frame_alg_un op v : frame (alg_un P op v).
Proof. unfold alg_un. framed. Qed.

Lemma frame_alg_bin op u v : frame (alg_bin P op u v).
Proof. unfold alg_bin. framed. Qed.

#[local] Hint Resolve frame_alg_un frame_alg_bin : frame_db.

Lemma frame_alg_fold op s l : frame (alg_fold P self op s l).
Proof. revert s. induction l as [| x r IH]; intros s; simpl; framed. Qed.

#[local] Hint Resolve frame_alg_fold : frame_db.

Lemma frame_evaluate_alg (e : Expr) : frame (evaluate_alg P self e).
Proof. unfold evaluate_alg. framed. Qed.

Lemma frame_evaluate_alg_or_None (e : Expr) :
  frame (evaluate_alg_or_None P self e).
Proof. unfold evaluate_alg_or_None. framed. Qed.

#[local] Hint Resolve frame_evaluate_alg_or_None : frame_db.

Lemma frame_equal (a b : Expr) : frame (equal P B self a b).
Proof. unfold equal. framed. Qed.

Lemma frame_less (a b : Expr) : frame (less P self a b).
Proof. unfold less. framed. Qed.

Lemma frame_less_equal (a b : Expr) : frame (less_equal P self a b).
Proof. unfold less_equal. framed. Qed.

Lemma frame_greater (a b : Expr) : frame (greater P self a b).
Proof. unfold greater. framed. Qed.

Lemma frame_greater_equal (a b : Expr) : frame (greater_equal P self a b).
Proof. unfold greater_equal. framed. Qed.

Lemma frame_is_extended_real (x : Expr) : frame (is_extended_real P self x).
Proof. unfold is_extended_real. framed. Qed.

#[local] Hint Resolve frame_less frame_less_equal frame_greater
  frame_greater_equal frame_is_extended_real : frame_db.

Lemma frame_unless_return (v : tern) : frame (unless_return v).
Proof. unfold unless_return. framed. Qed.

#[local] Hint Resolve frame_unless_return : frame_db.

Lemma frame_element (x dom : Expr) : frame (element P B self x dom).
Proof. unfold element. framed. Qed.

Lemma frame_simple_args (l : list Expr) : frame (simple_args P self l).
Proof. unfold simple_args. framed. Qed.

#[local] Hint Resolve frame_simple_args : frame_db.

Lemma frame_all_equal_first (l : list Expr) : frame (all_equal_first P self l).
Proof. unfold all_equal_first. framed. Qed.

Lemma frame_any_pair_unequal (l : list Expr) :
  frame (any_pair_unequal P self l).
Proof. unfold any_pair_unequal. framed. Qed.

Lemma frame_both_real (a b : Expr) : frame (both_real P self a b).
Proof. unfold both_real. framed. Qed.

Lemma frame_both_extended_real (a b : Expr) :
  frame (both_extended_real P self a b).
Proof. unfold both_extended_real. framed. Qed.

#[local] Hint Resolve frame_all_equal_first frame_any_pair_unequal
  frame_both_real frame_both_extended_real : frame_db.

Lemma frame_simple_Not (x : Expr) : frame (simple_Not P self x).
Proof. unfold simple_Not. framed. Qed.

Lemma frame_simple_And (l : list Expr) : frame (simple_And P self l).
Proof. unfold simple_And. framed. Qed.

Lemma frame_simple_Or (l : list Expr) : frame (simple_Or P self l).
Proof. unfold simple_Or. framed. Qed.

Lemma frame_simple_Implies (l : list Expr) : frame (simple_Implies P self l).
Proof. unfold simple_Implies. framed. Qed.

Lemma frame_simple_Equal (l : list Expr) : frame (simple_Equal P self l).
Proof. unfold simple_Equal. framed. Qed.

Lemma frame_simple_NotEqual (l : list Expr) : frame (simple_NotEqual P self l).
Proof. unfold simple_NotEqual. framed. Qed.

Lemma frame_simple_Element (l : list Expr) : frame (simple_Element P self l).
Proof. unfold simple_Element. framed. Qed.

Lemma frame_simple_NotElement (l : list Expr) :
  frame (simple_NotElement P self l).
Proof. unfold simple_NotElement. framed. Qed.

Lemma frame_simple_LessEqual (l : list Expr) :
  frame (simple_LessEqual P self l).
Proof. unfold simple_LessEqual. framed. Qed.

Lemma frame_simple_Less (l : list Expr) : frame (simple_Less P self l).
Proof. unfold simple_Less. framed. Qed.

Lemma frame_simple_GreaterEqual (l : list Expr) :
  frame (simple_GreaterEqual P self l).
Proof. unfold simple_GreaterEqual. framed. Qed.

Lemma frame_simple_Greater (l : list Expr) : frame (simple_Greater P self l).
Proof. unfold simple_Greater. framed. Qed.

Lemma frame_simple_Pos (x : Expr) : frame (simple_Pos P self x).
Proof. unfold simple_Pos. framed. Qed.

Lemma frame_simple_Parentheses (x : Expr) : frame (simple_Parentheses P self x).
Proof. unfold simple_Parentheses. framed. Qed.

Lemma frame_simple_Brackets (x : Expr) : frame (simple_Brackets P self x).
Proof. unfold simple_Brackets. framed. Qed.

Lemma frame_simple_Braces (x : Expr) : frame (simple_Braces P self x).
Proof. unfold simple_Braces. framed. Qed.

Lemma frame_simple_Neg (x : Expr) : frame (simple_Neg P self x).
Proof. unfold simple_Neg. framed. Qed.

Lemma frame_simple_Add (l : list Expr) : frame (simple_Add P self l).
Proof. unfold simple_Add. framed. Qed.

#[local] Hint Resolve frame_simple_Add : frame_db.

Lemma frame_simple_Sub (x y : Expr) : frame (simple_Sub P self x y).
Proof. unfold simple_Sub. framed. Qed.

Lemma frame_simple_Sqrt (x : Expr) : frame (simple_Sqrt P B self x).
Proof. unfold simple_Sqrt. framed. Qed.

Lemma frame_sum_terms expr cond var l : frame (sum_terms P self expr cond var l).
Proof. induction l as [| i r IH]; simpl; unfold simple_instance; framed. Qed.

#[local] Hint Resolve frame_sum_terms : frame_db.

Lemma frame_simple_Sum (l : list Expr) : frame (simple_Sum P self l).
Proof. unfold simple_Sum. framed. Qed.

Lemma frame_Brain_match expr rule fv asm :
  frame (Brain_match P self expr rule fv asm).
Proof. unfold Brain_match. framed. Qed.

Lemma frame_first_arg (x : Expr) : frame (first_arg x).
Proof. unfold first_arg. framed. Qed.

#[local] Hint Resolve frame_Brain_match frame_first_arg : frame_db.

Lemma frame_entry_rule id : frame (entry_rule P id).
Proof. unfold entry_rule. framed. Qed.

#[local] Hint Resolve frame_entry_rule : frame_db.

Lemma frame_match_local vars lhs rhs asm (e : Expr) :
  frame (match_local P self vars lhs rhs asm e).
Proof.
  induction e as [s | z | s | h l IHh IHl] using Expr_ind'; simpl;
    try (framed; fail).
  apply frame_bind; [framed | intros [m |]; [framed |]].
  apply frame_bind; [| framed].
  induction IHl as [| x r Hx _ IHr]; framed.
Qed.

#[local] Hint Resolve frame_match_local : frame_db.

Lemma frame_rewrite_fungrim e id rec : frame (rewrite_fungrim P self e id rec).
Proof. unfold rewrite_fungrim. framed. Qed.

#[local] Hint Resolve frame_rewrite_fungrim : frame_db.

Lemma frame_fungrim_simplify (e : Expr) : frame (fungrim_simplify P B self e).
Proof. unfold fungrim_simplify. framed. Qed.

#[local] Hint Resolve frame_fungrim_simplify : frame_db.

Lemma frame_simple_attr (s : string) (f : list Expr -> St Store Expr) :
  simple_attr P B self s = Method f -> forall l, frame (f l).
Proof.
  unfold simple_attr.
  repeat match goal with
         | |- (if ?c then _ else _) = _ -> _ => destruct c
         end;
    intros E l; inversion E; subst; clear E;
    first [ apply frame_halt
          | apply frame_call1; intros
          | apply frame_call2; intros
          | idtac ];
    first [ apply frame_simple_Not | apply frame_simple_And
          | apply frame_simple_Or | apply frame_simple_Implies
          | apply frame_simple_Equal | apply frame_simple_NotEqual
          | apply frame_simple_Element | apply frame_simple_NotElement
          | apply frame_simple_LessEqual | apply frame_simple_Less
          | apply frame_simple_GreaterEqual | apply frame_simple_Greater
          | apply frame_simple_Pos | apply frame_simple_Parentheses
          | apply frame_simple_Brackets | apply frame_simple_Braces
          | apply frame_simple_Neg | apply frame_simple_Add
          | apply frame_simple_Sub | apply frame_simple_Sqrt
          | apply frame_simple_Sum | idtac ].
Qed.

Lemma frame_Brain_simple (e : Expr) : frame (Brain_simple P B self e).
Proof.
  unfold Brain_simple.
  destruct (known B e); [framed |].
  destruct (is_atom e); [framed |].
  apply frame_bind; [framed | intros [[v |] |]]; [framed | framed |].
  apply frame_bind; [framed | intros _].
  apply frame_bind; [| framed].
  destruct e as [s | z | s | [s | z | s | h' l'] l]; try (framed; fail).
  destruct (simple_attr P B self s) eqn:E; [| framed | framed].
  eapply frame_simple_attr; eassumption.
Qed.

Lemma frame_FungrimBrain_simple (e : Expr) :
  frame (FungrimBrain_simple P B self e).
Proof.
  unfold FungrimBrain_simple.
  destruct (known B e); [framed |].
  destruct (is_atom e); [framed |].
  apply frame_bind; [framed | intros [[v |] |]]; [framed | framed |].
  cbv zeta.
  apply frame_bind; [framed | intros _].
  apply frame_bind; [framed | intros e1].
  apply frame_bind; [| framed].
  destruct e1 as [s | z | s | [s | z | s | h' l'] l]; try (framed; fail).
  destruct (simple_attr P B self s) eqn:E; [| framed | framed].
  apply frame_bind; [eapply frame_simple_attr; eassumption | framed].
Qed.

Lemma frame_simple (e : Expr) : frame (simple P B self e).
Proof.
  unfold simple. destruct (is_fungrim B);
    [apply frame_FungrimBrain_simple | apply frame_Brain_simple].
Qed.

End WithSelf.

Lemma frame_methods (fuel : nat) : frame_self (methods P B fuel).
Proof.
  induction fuel as [| n IH].
  - constructor; intros; apply frame_halt.
  - constructor; intros; cbn [methods self_simple self_is_zero
      self_is_infinity self_is_nonnegative self_is_positive self_is_integer
      self_is_rational self_is_algebraic self_is_real self_is_complex
      self_equal self_element self_evaluate_alg self_simple_Sqrt].
    + now apply frame_simple.
    + now apply frame_is_zero.
    + now apply frame_is_infinity.
    + now apply frame_is_nonnegative.
    + now apply frame_is_positive.
    + now apply frame_Brain_is_integer.
    + now apply frame_is_rational.
    + now apply frame_is_algebraic.
    + now apply frame_is_real.
    + now apply frame_is_complex.
    + now apply frame_equal.
    + now apply frame_element.
    + now apply frame_evaluate_alg.
    + now apply frame_simple_Sqrt.
Qed.

End FrameMethods.

(** C3.  Whatever the terms [a] and [b], the session and the budgets in
    force: after [Brain.equal(a, b)], whether it returned an answer or
    raised, the degree limit and the bit-size limit of the algebraic
    backend have the values they had before the call, although the
    exact test runs under the widened budget (200, 100000). *)
Theorem equal_restores_limits (P : Platform) (B : Brain) (fuel : nat)
    (a b : Expr) (s : Store) :
  limits (snd (run_equal P B fuel a b s)) = limits s.
Proof.
  unfold run_equal. apply frame_equal. apply frame_methods.
Qed.

(* ================================================================== *)
(** * Running [simple] *)

Lemma simple_known P B self e st :
  known B e = true -> simple P B self e st = (Ret True_, st).
Proof.
  intros Hk. unfold simple, FungrimBrain_simple, Brain_simple.
  rewrite Hk. now destruct (is_fungrim B).
Qed.

Lemma simple_atom P B self e st :
  known B e = false -> is_atom e = true ->
  simple P B self e st = (Ret e, st).
Proof.
  intros Hk Ha. unfold simple, FungrimBrain_simple, Brain_simple.
  rewrite Hk, Ha. now destruct (is_fungrim B).
Qed.

(** A term that is not a fact and not in the cache, with a symbol head
    that has an operator rule [f], in a session without ground-term
    table: the result is that of [f] on the arguments, run with the
    term marked as in progress, and it is cached. *)
Lemma simple_method P B self s0 l f st r st' :
  expr_db B = [] ->
  known B (Call (Symbol s0) l) = false ->
  dict_get (simple_cache st) (Call (Symbol s0) l) = None ->
  simple_attr P B self s0 = Method f ->
  f l (snd (cache_set (Call (Symbol s0) l) None st)) = (Ret r, st') ->
  simple P B self (Call (Symbol s0) l) st
  = (Ret r, snd (cache_set (Call (Symbol s0) l) (Some r) st')).
Proof.
  intros Hdb Hk Hc Hf Hrun.
  unfold simple, FungrimBrain_simple, Brain_simple.
  rewrite Hk, Hdb. cbn [is_atom].
  destruct (is_fungrim B).
  - unfold bind at 1. unfold cache_get at 1. cbv beta iota. rewrite Hc.
    cbv zeta. unfold bind at 1.
    change (cache_set (Call (Symbol s0) l) None st)
      with (Ret tt, snd (cache_set (Call (Symbol s0) l) None st)).
    cbv iota beta. unfold bind at 1. unfold bind at 1. unfold ret at 1.
    cbv iota beta. rewrite Hf.
    unfold bind at 1. rewrite Hrun. cbn [andb]. reflexivity.
  - unfold bind at 1. unfold cache_get at 1. cbv beta iota. rewrite Hc.
    cbv zeta. unfold bind at 1.
    change (cache_set (Call (Symbol s0) l) None st)
      with (Ret tt, snd (cache_set (Call (Symbol s0) l) None st)).
    cbv iota beta. unfold bind at 1. rewrite Hf. rewrite Hrun. reflexivity.
Qed.

(** The same for any outcome of the rule: what [simple] gives is what
    the rule gives. *)
Lemma simple_method_outcome P B self s0 l f st :
  expr_db B = [] ->
  known B (Call (Symbol s0) l) = false ->
  dict_get (simple_cache st) (Call (Symbol s0) l) = None ->
  simple_attr P B self s0 = Method f ->
  fst (simple P B self (Call (Symbol s0) l) st)
  = fst (f l (snd (cache_set (Call (Symbol s0) l) None st))).
Proof.
  intros Hdb Hk Hc Hf.
  destruct (f l (snd (cache_set (Call (Symbol s0) l) None st)))
    as [[r | e | r] st'] eqn:Hrun.
  - rewrite (simple_method _ _ _ _ _ _ _ _ _ Hdb Hk Hc Hf Hrun). reflexivity.
  - unfold simple, FungrimBrain_simple, Brain_simple.
    rewrite Hk, Hdb. cbn [is_atom].
    destruct (is_fungrim B);
      unfold bind at 1; unfold cache_get at 1; cbv beta iota; rewrite Hc;
      cbv zeta; unfold bind at 1;
      change (cache_set (Call (Symbol s0) l) None st)
        with (Ret tt, snd (cache_set (Call (Symbol s0) l) None st));
      cbv iota beta.
    + unfold bind at 1. unfold bind at 1. unfold ret at 1.
      cbv iota beta. rewrite Hf. unfold bind at 1. rewrite Hrun. reflexivity.
    + unfold bind at 1. rewrite Hf. rewrite Hrun. reflexivity.
  - unfold simple, FungrimBrain_simple, Brain_simple.
    rewrite Hk, Hdb. cbn [is_atom].
    destruct (is_fungrim B);
      unfold bind at 1; unfold cache_get at 1; cbv beta iota; rewrite Hc;
      cbv zeta; unfold bind at 1;
      change (cache_set (Call (Symbol s0) l) None st)
        with (Ret tt, snd (cache_set (Call (Symbol s0) l) None st));
      cbv iota beta.
    + unfold bind at 1. unfold bind at 1. unfold ret at 1.
      cbv iota beta. rewrite Hf. unfold bind at 1. rewrite Hrun. reflexivity.
    + unfold bind at 1. rewrite Hf. rewrite Hrun. reflexivity.
Qed.

(* ================================================================== *)
(** * Unrolling of finite sums *)

Lemma sum_terms_run P self expr cond var l st kept st' :
  (cond == var) = false \/ l = [] ->
  condition_run P self cond var l st kept st' ->
  sum_terms P self expr cond var l st
  = (Ret (option_map (instances expr var) kept), st').
Proof.
  intros Hv Hrun. revert Hv.
  induction Hrun as [st | i r st st1 kept st2 Hi Hr IH
                     | i r st st1 kept st2 Hi Hr IH
                     | i r st v st1 Hi Hv1 Hv2];
    intros Hv; cbn [sum_terms]; [reflexivity | | |];
    (destruct Hv as [Hc | Hc]; [| discriminate]);
    unfold bind at 1; unfold simple_instance; rewrite Hc, Hi.
  - cbn [Expr_eqb True_ String.eqb Ascii.eqb Bool.eqb].
    unfold bind. rewrite IH by (now left). unfold ret.
    destruct kept; reflexivity.
  - cbn. apply IH. now left.
  - rewrite Hv1, Hv2. reflexivity.
Qed.

Lemma sum_terms_variable P self expr cond var i r st :
  (cond == var) = true ->
  sum_terms P self expr cond var (i :: r) st = (Raise AttributeError, st).
Proof.
  intros Hc. cbn [sum_terms]. unfold bind at 1, simple_instance.
  rewrite Hc. reflexivity.
Qed.

Lemma range_incl_cons a b :
  a <= b -> exists r, range_incl a b = a :: r.
Proof.
  intros H. unfold range_incl.
  destruct (Z.to_nat (b + 1 - a)) as [| n] eqn:E; [lia |].
  cbn [seq map]. rewrite Z.add_0_r. eauto.
Qed.

Lemma range_incl_nil a b : b < a -> range_incl a b = [].
Proof.
  intros H. unfold range_incl.
  replace (Z.to_nat (b + 1 - a)) with 0%nat by lia. reflexivity.
Qed.

(** The body of [simple_Sum] once the bounds are simplified to integer
    literals. *)
Lemma simple_Sum_bounds P self expr var a0 b0 conds a b st st1 st2 :
  (List.length conds <= 1)%nat ->
  self_simple P self a0 st = (Ret (Integer a), st1) ->
  self_simple P self b0 st1 = (Ret (Integer b), st2) ->
  simple_Sum P self (expr :: Call For [var; a0; b0] :: conds) st
  = body (If (b - a <? 100)
            (do terms <- (if (condition_of conds == True_)%expr
                          then ret (Some (instances expr var (range_incl a b)))
                          else sum_terms P self expr (condition_of conds) var
                                 (range_incl a b));
             match terms with
             | Some terms0 => returnM (self_simple P self (app Add terms0))
             | None =>
                 return_ (app Sum (expr :: Call For [var; a0; b0] :: conds))
             end))
      (app Sum (expr :: Call For [var; a0; b0] :: conds)) st2.
Proof.
  intros Hlen Ha Hb.
  assert (Hl : conds = [] \/ exists c, conds = [c]).
  { destruct conds as [| c [| c' r]]; [now left | right; now exists c |].
    simpl in Hlen. lia. }
  unfold simple_Sum.
  destruct Hl as [-> | [c ->]];
    cbn [head_is head For Expr_eqb String.eqb Ascii.eqb Bool.eqb andb
         args_of List.length Nat.eqb If unpack3 condition_of];
    unfold body; unfold bind at 1; unfold bind at 1; unfold ret at 1;
    cbv beta iota; unfold bind at 1; rewrite Ha;
    unfold bind at 1; rewrite Hb; reflexivity.
Qed.




(* ================================================================== *)
(** * The knowledge-base rewriter *)

Lemma min_from_le {A} (key : A -> Z) (l : list A) (best : A) :
  key (min_from key best l) <= key best /\
  forall y, In y l -> key (min_from key best l) <= key y.
Proof.
  revert best. induction l as [| y r IH]; intros best; simpl.
  - split; [lia | intros y []].
  - destruct (key y <? key best) eqn:E.
    + apply Z.ltb_lt in E. destruct (IH y) as [H1 H2].
      split; [lia |]. intros z [<- | Hz]; [exact H1 | now apply H2].
    + apply Z.ltb_ge in E. destruct (IH best) as [H1 H2].
      split; [exact H1 |]. intros z [<- | Hz]; [lia | now apply H2].
Qed.

Lemma min_from_In {A} (key : A -> Z) (l : list A) (best : A) :
  In (min_from key best l) (best :: l).
Proof.
  revert best. induction l as [| y r IH]; intros best; simpl.
  - now left.
  - destruct (key y <? key best).
    + right. apply IH.
    + destruct (IH best) as [H | H]; [now left | right; now right].
Qed.

Lemma py_min_spec {A} (key : A -> Z) (l : list A) (m : A) :
  py_min key l = Some m ->
  In m l /\ forall y, In y l -> key m <= key y.
Proof.
  destruct l as [| x r]; [discriminate |].
  simpl. intros [= <-]. split; [apply min_from_In |].
  destruct (min_from_le key r x) as [H1 H2].
  intros y [<- | Hy]; [exact H1 | now apply H2].
Qed.


Lemma choose_rewrite_kept (B : Brain) (expr : Expr)
    (exprs : list (Expr * option string)) :
  exprs <> [] ->
  (forall c id, In (c, id) exprs ->
     complexity (penalty B) expr <= complexity (penalty B) c) ->
  choose_rewrite B expr exprs = Ret None.
Proof.
  intros Hne Hall. unfold choose_rewrite.
  destruct (py_min _ exprs) as [[e id] |] eqn:Hmin.
  - apply py_min_spec in Hmin as [Hin _].
    specialize (Hall e id Hin).
    replace (complexity (penalty B) e <? complexity (penalty B) expr)
      with false by (symmetry; apply Z.ltb_ge; exact Hall).
    now rewrite andb_false_r.
  - destruct exprs; [now destruct Hne | discriminate].
Qed.

Lemma choose_rewrite_adopted (B : Brain) (expr : Expr)
    (exprs : list (Expr * option string)) (c : Expr) (id : option string) :
  In (c, id) exprs ->
  complexity (penalty B) c < complexity (penalty B) expr ->
  exists expr2 id2,
    In (expr2, id2) exprs /\
    (forall c' id', In (c', id') exprs ->
       complexity (penalty B) expr2 <= complexity (penalty B) c') /\
    complexity (penalty B) expr2 < complexity (penalty B) expr /\
    expr2 <> expr /\
    choose_rewrite B expr exprs = Ret (Some expr2).
Proof.
  intros Hin Hlt. unfold choose_rewrite.
  destruct (py_min _ exprs) as [[e ide] |] eqn:Hmin.
  - apply py_min_spec in Hmin as [Hine Hle].
    pose proof (Hle (c, id) Hin) as Hc. cbn [fst] in Hc.
    assert (Hlt2 : complexity (penalty B) e < complexity (penalty B) expr)
      by lia.
    assert (Hne : e <> expr) by (intros ->; lia).
    exists e, ide. repeat split; try assumption.
    + intros c' id' H'. apply (Hle (c', id') H').
    + replace (e != expr) with true
        by (symmetry; unfold Expr_neb; apply negb_true_iff;
            now apply Expr_eqb_neq).
      replace (complexity (penalty B) e <? complexity (penalty B) expr)
        with true by (symmetry; now apply Z.ltb_lt).
      reflexivity.
  - destruct exprs; [destruct Hin | discriminate].
Qed.



(* ================================================================== *)
(** * The facts derived from an integer hypothesis *)

Lemma elem_eqb x D D2 :
  Expr_eqb (app2 Element (Symbol x) D) (app2 Element (Symbol x) D2) = Expr_eqb D D2.
Proof.
  cbn. rewrite String.eqb_refl. cbn. now rewrite andb_true_r.
Qed.

Lemma set_add_in l e : Expr_in e l = true -> set_add l e = l.
Proof. unfold set_add. now intros ->. Qed.

Lemma set_add_notin l e : Expr_in e l = false -> set_add l e = (l ++ [e])%list.
Proof. unfold set_add. now intros ->. Qed.

Ltac elem_in := unfold Expr_in; cbn [existsb List.app]; rewrite ?elem_eqb; reflexivity.

Lemma Brain_init_integer P fuel0 x pen lim :
  Brain_init P fuel0 (Some (app2 Element (Symbol x) ZZ)) pen lim
  = (Ret (plain_brain (int_facts x) pen), lim).
Proof.
  unfold Brain_init. cbn [head_args_flattened app2 Expr_eqb Element And String.eqb Ascii.eqb Bool.eqb foldM].
  unfold bind at 1. unfold bind at 1. unfold infer.
  cbn [head_is head app2 Expr_eqb Element String.eqb Ascii.eqb Bool.eqb args_of unpack2].
  unfold bind at 1. unfold ret at 1. cbv beta iota.
  unfold bind at 1. unfold infer_domain.
  cbn [head_is head ZZ]. unfold infer_domain1.
  cbn -[add_all set_add].
  change (Call Element [Symbol x; ZZ]) with (app2 Element (Symbol x) ZZ).
  unfold add_all. cbn [fold_left].
  rewrite (set_add_notin []) by reflexivity. cbn [List.app].
  repeat match goal with
         | |- context [set_add (?a :: ?l) ?e] =>
             first [ rewrite (set_add_in (a :: l) e) by elem_in
                   | rewrite (set_add_notin (a :: l) e) by elem_in ];
             cbn [List.app]
         end.
  reflexivity.
Qed.

Lemma Brain_is_integer_known P B self x st :
  known B (app2 Element x ZZ) = true ->
  Brain_is_integer P B self x st = (Ret TTrue, st).
Proof.
  intros Hk. unfold Brain_is_integer. rewrite Hk.
  destruct (is_integer x); reflexivity.
Qed.

Ltac mrun :=
  cbv beta iota zeta delta
    [body seqb If IfM bind ret fall returnM return_ unless_return raise
     holds refuted andM orM].

Lemma element_primes P B self x st :
  known B (app2 Element x PP) = false ->
  known B (app2 NotElement x PP) = false ->
  is_integer x = false ->
  self_is_integer P self x st = (Ret TTrue, st) ->
  element P B self x PP st = (Ret Unknown, st).
Proof.
  intros Hk1 Hk2 Hx Hint. unfold element. rewrite Hk1, Hk2.
  cbn [Expr_eqb PP CC RR QQ ZZ HH String.eqb Ascii.eqb Bool.eqb].
  mrun. rewrite Hint. cbn [truthy TTrue negb].
  destruct x; try discriminate; reflexivity.
Qed.

Lemma simple_Element_primes P pen fuel x st :
  simple_Element P
    (methods P (plain_brain (int_facts x) pen) (2 + fuel)) [Symbol x; PP] st
  = (Ret (app2 Element (Symbol x) PP), st).
Proof.
  set (B := plain_brain (int_facts x) pen).
  assert (Hx : known B (Symbol x) = false) by reflexivity.
  assert (Hp : known B PP = false) by reflexivity.
  change (2 + fuel)%nat with (S (S fuel)).
  set (self := methods P B (S (S fuel))).
  assert (E1 : forall e st, self_simple P self e st = simple P B (methods P B (S fuel)) e st) by reflexivity.
  assert (E2 : forall a b st, self_element P self a b st = element P B (methods P B (S fuel)) a b st) by reflexivity.
  assert (E3 : forall e st, self_is_integer P (methods P B (S fuel)) e st = Brain_is_integer P B (methods P B fuel) e st) by reflexivity.
  unfold simple_Element, simple_args. cbn [mapM].
  mrun. rewrite E1, (simple_atom _ _ _ _ _ Hx eq_refl).
  rewrite E1, (simple_atom _ _ _ _ _ Hp eq_refl).
  rewrite E2, element_primes; [reflexivity | | | reflexivity |].
  - unfold known, B, Expr_in. cbn [plain_brain inferences int_facts map existsb].
    rewrite !elem_eqb. reflexivity.
  - reflexivity.
  - rewrite E3. apply Brain_is_integer_known.
    unfold known, B, Expr_in. cbn [plain_brain inferences int_facts map existsb].
    rewrite !elem_eqb. reflexivity.
Qed.

(** C4.  In the session built from the single hypothesis that the
    symbol [x] is in [ZZ], [simple] of [Element(x, D)] is the literal
    [True_] for [D] each of [ZZ], [QQ], [RR], [CC] and
    [AlgebraicNumbers], while [simple(Element(x, PP))] returns
    [Element(x, PP)] itself, which is neither [True_] nor [False_]. *)
Theorem integer_hypothesis_closure (P : Platform) (fuel0 fuel : nat)
    (x : string) (lim : Limits) (s : Store) :
  dict_get (simple_cache s) (app2 Element (Symbol x) PP) = None ->
  let B := plain_brain (int_facts x) [] in
  fst (Brain_init P fuel0 (Some (app2 Element (Symbol x) ZZ)) [] lim) = Ret B /\
  (forall D, In D [ZZ; QQ; RR; CC; AlgebraicNumbers] ->
     fst (run_simple P B fuel (app2 Element (Symbol x) D) s) = Ret True_) /\
  fst (run_simple P B (2 + fuel) (app2 Element (Symbol x) PP) s)
  = Ret (app2 Element (Symbol x) PP) /\
  app2 Element (Symbol x) PP <> True_ /\
  app2 Element (Symbol x) PP <> False_.
Proof.
  intros Hc B. split; [now rewrite Brain_init_integer |].
  split; [| split; [| split; discriminate]].
  - intros D HD. unfold run_simple. rewrite simple_known; [reflexivity |].
    apply Expr_in_In. unfold B, plain_brain, int_facts. cbn [inferences].
    now apply in_map.
  - unfold run_simple, app2, Element.
    erewrite simple_method; [reflexivity | reflexivity | | exact Hc
                            | reflexivity | apply simple_Element_primes].
    fold Element. change (Call Element [Symbol x; PP])
      with (app2 Element (Symbol x) PP).
    unfold known, B, Expr_in. cbn [plain_brain inferences int_facts map existsb].
    rewrite !elem_eqb. reflexivity.
Qed.

Lemma integer_hypothesis_closure_witness :
  fst (run_simple bare_platform (plain_brain (int_facts "x") []) 2
         (app2 Element (Symbol "x") PP) (fresh_store default_limits))
  = Ret (app2 Element (Symbol "x") PP).
Proof.
  apply (integer_hypothesis_closure bare_platform 0 0 "x" default_limits
           (fresh_store default_limits)).
  reflexivity.
Defined.

(* ================================================================== *)
(** * Membership in intersections and differences *)

Ltac heads :=
  cbn [Expr_eqb head_is head_in head existsb interval_heads orb andb
       PP CC RR QQ ZZ HH AlgebraicNumbers ZZGreaterEqual ZZLessEqual Range
       ClosedInterval OpenInterval ClosedOpenInterval OpenClosedInterval
       Set_ Union Intersection SetMinus String.eqb Ascii.eqb Bool.eqb args_of].

Lemma element_Intersection P B self x l st :
  known B (app2 Element x (Call Intersection l)) = false ->
  known B (app2 NotElement x (Call Intersection l)) = false ->
  element P B self x (Call Intersection l) st
  = match l with
    | [] => (Raise AssertionError, st)
    | _ =>
        match mapM (fun T => self_element P self x T) l st with
        | (Ret check, st') =>
            (Ret (if all_True check then TTrue
                  else if any_False check then TFalse else Unknown), st')
        | (Raise e, st') => (Raise e, st')
        | (Stop r, st') => (Stop r, st')
        end
    end.
Proof.
  intros Hk1 Hk2. unfold element. rewrite Hk1, Hk2. heads.
  destruct l as [| T r].
  - reflexivity.
  - mrun. cbn [List.length Nat.leb negb].
    destruct (mapM _ (T :: r) st) as [[check | e | r0] st']; try reflexivity.
    destruct (all_True check); [reflexivity |].
    destruct (any_False check); reflexivity.
Qed.

Lemma element_SetMinus P B self x l st :
  known B (app2 Element x (Call SetMinus l)) = false ->
  known B (app2 NotElement x (Call SetMinus l)) = false ->
  element P B self x (Call SetMinus l) st
  = match l with
    | [T; U] =>
        match self_element P self x T st with
        | (Ret v1, st1) =>
            if is_False v1 then (Ret TFalse, st1)
            else
              match self_element P self x U st1 with
              | (Ret v2, st2) =>
                  (Ret (if is_True v1 && is_False v2 then TTrue
                        else if is_True v1 && is_True v2 then TFalse
                        else Unknown), st2)
              | (Raise e, st2) => (Raise e, st2)
              | (Stop r, st2) => (Stop r, st2)
              end
        | (Raise e, st1) => (Raise e, st1)
        | (Stop r, st1) => (Stop r, st1)
        end
    | _ => (Raise AssertionError, st)
    end.
Proof.
  intros Hk1 Hk2. unfold element. rewrite Hk1, Hk2. heads.
  destruct l as [| T [| U [| V r]]]; try reflexivity.
  cbn [List.length Nat.eqb negb unpack2]. mrun.
  destruct (self_element P self x T st) as [[v1 | e | r0] st1]; try reflexivity.
  destruct (is_False v1); [reflexivity |].
  destruct (self_element P self x U st1) as [[v2 | e | r0] st2];
    try reflexivity.
  destruct (is_True v1 && is_False v2); [reflexivity |].
  destruct (is_True v1 && is_True v2); reflexivity.
Qed.

(** C2, as the claim states it, fails: on an [Intersection] with no
    member sets and on a [SetMinus] with one argument [element] raises
    [AssertionError]; and [is_integer] raises [ValueError] on a [Pow]
    with a single argument. *)
Lemma predicates_raise_on_malformed_terms :
  fst (run_element bare_platform (plain_brain [] []) 5 (Symbol "x")
         (Call Intersection []) (fresh_store default_limits))
  = Raise AssertionError /\
  fst (run_element bare_platform (plain_brain [] []) 5 (Symbol "x")
         (Call SetMinus [ZZ]) (fresh_store default_limits))
  = Raise AssertionError /\
  fst (self_is_integer bare_platform
         (methods bare_platform (plain_brain [] []) 5)
         (Call Pow [Integer 2]) (fresh_store default_limits))
  = Raise ValueError.
Proof. repeat split; vm_compute; reflexivity. Qed.

(** C2, amended.  [element(x, S)] can raise.  When neither
    [Element(x, S)] nor [NotElement(x, S)] is a fact of the session:
    on an [Intersection] with no member sets, and on a [SetMinus] whose
    argument count is not two, it raises [AssertionError]; on an
    [Intersection] with members it asks [element] for each member in
    turn and, when all these calls return, answers true if all are
    true, false if one is false, and unknown otherwise; on
    [SetMinus(T, U)] it answers false when [x] is not in [T], and
    otherwise asks for [U] and answers true when [x] is in [T] and not
    in [U], false when in both, unknown otherwise.  In the two
    well-formed cases it raises only what a member call raises. *)
Theorem element_of_set_operation (P : Platform) (B : Brain) (fuel : nat)
    (x : Expr) (l : list Expr) (st : Store) (op : Expr) :
  let self := methods P B fuel in
  op = Intersection \/ op = SetMinus ->
  known B (app2 Element x (Call op l)) = false ->
  known B (app2 NotElement x (Call op l)) = false ->
  run_element P B fuel x (Call op l) st
  = if op == Intersection then
      match l with
      | [] => (Raise AssertionError, st)
      | _ =>
          match mapM (fun T => self_element P self x T) l st with
          | (Ret check, st') =>
              (Ret (if all_True check then TTrue
                    else if any_False check then TFalse else Unknown), st')
          | (Raise e, st') => (Raise e, st')
          | (Stop r, st') => (Stop r, st')
          end
      end
    else
      match l with
      | [T; U] =>
          match self_element P self x T st with
          | (Ret v1, st1) =>
              if is_False v1 then (Ret TFalse, st1)
              else
                match self_element P self x U st1 with
                | (Ret v2, st2) =>
                    (Ret (if is_True v1 && is_False v2 then TTrue
                          else if is_True v1 && is_True v2 then TFalse
                          else Unknown), st2)
                | (Raise e, st2) => (Raise e, st2)
                | (Stop r, st2) => (Stop r, st2)
                end
          | (Raise e, st1) => (Raise e, st1)
          | (Stop r, st1) => (Stop r, st1)
          end
      | _ => (Raise AssertionError, st)
      end.
Proof.
  intros self [-> | ->] Hk1 Hk2; unfold run_element.
  - now rewrite element_Intersection.
  - now rewrite element_SetMinus.
Qed.

Lemma element_of_set_operation_witness :
  run_element bare_platform (plain_brain [] []) 5 (Integer 3)
    (Call Intersection [ZZ; QQ]) (fresh_store default_limits)
  = (Ret TTrue, fresh_store default_limits).
Proof.
  rewrite (element_of_set_operation bare_platform (plain_brain [] []) 5
             (Integer 3) [ZZ; QQ] (fresh_store default_limits) Intersection
             (or_introl eq_refl) eq_refl eq_refl).
  reflexivity.
Defined.

(* ================================================================== *)
(** * Simplifying twice *)

Lemma rule_free_Call s l :
  rule_free (Call (Symbol s) l) = negb (has_rule s) && forallb rule_free l.
Proof.
  reflexivity.
Qed.

Lemma has_True_Call h l :
  has_True (Call h l) = existsb has_True l.
Proof.
  reflexivity.
Qed.

Lemma has_True_True : has_True True_ = true.
Proof. reflexivity. Qed.

Lemma replace_facts_unchanged_or_True F t :
  replace_facts F t = t \/ has_True (replace_facts F t) = true.
Proof.
  induction t as [s | z | s | h l IHh IHl] using Expr_ind';
    cbn [replace_facts];
    try (destruct (Expr_in _ F); [right; reflexivity | left; reflexivity]).
  destruct (Expr_in (Call h l) F); [right; reflexivity |].
  destruct h as [s | z | s | h' l']; try (left; reflexivity).
  assert (H : map (replace_facts F) l = l
              \/ existsb has_True (map (replace_facts F) l) = true).
  { clear IHh. induction IHl as [| x r Hx _ IHr]; [left; reflexivity |].
    cbn [map existsb].
    destruct Hx as [Hx | Hx]; [| right; rewrite Hx; reflexivity].
    destruct IHr as [Hr | Hr]; [left; now rewrite Hx, Hr |].
    right. rewrite Hr. apply orb_true_r. }
  destruct H as [H | H]; [left; now rewrite H | right].
  now rewrite has_True_Call.
Qed.

Lemma replace_facts_True F : replace_facts F True_ = True_.
Proof. cbn [replace_facts True_]. now destruct (Expr_in _ F). Qed.

Lemma true_free_not_fact F h l :
  true_free F = true -> existsb has_True l = true ->
  Expr_in (Call h l) F = false.
Proof.
  intros HF Hl. destruct (Expr_in (Call h l) F) eqn:E; [| reflexivity].
  apply Expr_in_In in E. unfold true_free in HF.
  rewrite forallb_forall in HF. specialize (HF _ E).
  cbn [has_True_arg] in HF. rewrite Hl in HF. discriminate.
Qed.

Lemma replace_facts_idem F t :
  true_free F = true ->
  replace_facts F (replace_facts F t) = replace_facts F t.
Proof.
  intros HF.
  induction t as [s | z | s | h l IHh IHl] using Expr_ind'.
  - cbn [replace_facts]. destruct (Expr_in (Symbol s) F) eqn:E.
    + apply replace_facts_True.
    + cbn [replace_facts]. now rewrite E.
  - cbn [replace_facts]. destruct (Expr_in (Integer z) F) eqn:E.
    + apply replace_facts_True.
    + cbn [replace_facts]. now rewrite E.
  - cbn [replace_facts]. destruct (Expr_in (Text s) F) eqn:E.
    + apply replace_facts_True.
    + cbn [replace_facts]. now rewrite E.
  - cbn [replace_facts]. destruct (Expr_in (Call h l) F) eqn:E.
    + apply replace_facts_True.
    + destruct h as [s | z | s | h' l'];
        try (cbn [replace_facts]; now rewrite E).
      assert (Hmap : map (replace_facts F) (map (replace_facts F) l)
                     = map (replace_facts F) l).
      { clear E IHh. induction IHl as [| x r Hx _ IHr]; [reflexivity |].
        cbn [map]. now rewrite Hx, IHr. }
      assert (Hnf : Expr_in (Call (Symbol s) (map (replace_facts F) l)) F = false).
      { assert (H : map (replace_facts F) l = l
                    \/ existsb has_True (map (replace_facts F) l) = true).
        { clear. induction l as [| x r IHr]; [left; reflexivity |].
          cbn [map existsb].
          destruct (replace_facts_unchanged_or_True F x) as [Hx | Hx];
            [| right; rewrite Hx; reflexivity].
          destruct IHr as [Hr | Hr]; [left; now rewrite Hx, Hr |].
          right. rewrite Hr. apply orb_true_r. }
        destruct H as [H | H]; [now rewrite H |].
        now apply true_free_not_fact. }
      cbn [replace_facts]. rewrite Hnf. now rewrite Hmap.
Qed.

Lemma dict_get_del {V} (d : list (Expr * V)) k k2 :
  dict_get (dict_del d k) k2 = if Expr_eqb k k2 then None else dict_get d k2.
Proof.
  induction d as [| [k1 v1] r IH]; cbn [dict_del dict_get].
  - now destruct (Expr_eqb k k2).
  - destruct (Expr_eqb k1 k) eqn:E1.
    + apply Expr_eqb_eq in E1. subst k1. rewrite IH.
      now destruct (Expr_eqb k k2).
    + cbn [dict_get]. rewrite IH.
      destruct (Expr_eqb k1 k2) eqn:E2; [| reflexivity].
      apply Expr_eqb_eq in E2. subst k2.
      rewrite Expr_eqb_sym, E1. reflexivity.
Qed.

Lemma dict_get_set {V} (d : list (Expr * V)) k v k2 :
  dict_get (dict_set d k v) k2 = if Expr_eqb k k2 then Some v else dict_get d k2.
Proof.
  unfold dict_set. cbn [dict_get]. rewrite dict_get_del.
  now destruct (Expr_eqb k k2).
Qed.

Lemma simple_attr_absent P B self s :
  has_rule s = false -> simple_attr P B self s = Absent.
Proof.
  unfold has_rule. rewrite existsb_app. cbn [existsb].
  intros H. apply orb_false_elim in H as [H1 H2].
  apply orb_false_elim in H2 as [Hc Ho].
  unfold embedded_simple_methods in H1. cbn [existsb] in H1.
  repeat (apply orb_false_elim in H1; destruct H1 as [?E H1]).
  unfold simple_attr.
  repeat match goal with
         | E : String.eqb s ?n = false |- context [String.eqb s ?n] =>
             rewrite E; clear E
         end.
  rewrite Ho. reflexivity.
Qed.

Lemma simple_cached P B self h l v st :
  known B (Call h l) = false ->
  dict_get (simple_cache st) (Call h l) = Some (Some v) ->
  simple P B self (Call h l) st = (Ret v, st).
Proof.
  intros Hk Hc. unfold simple, FungrimBrain_simple, Brain_simple.
  rewrite Hk. cbn [is_atom].
  destruct (is_fungrim B); unfold cache_get; mrun; rewrite Hc; reflexivity.
Qed.

Lemma simple_default P B self s0 l st :
  is_fungrim B = false ->
  known B (Call (Symbol s0) l) = false ->
  dict_get (simple_cache st) (Call (Symbol s0) l) = None ->
  has_rule s0 = false ->
  simple P B self (Call (Symbol s0) l) st
  = match simple_args P self l (snd (cache_set (Call (Symbol s0) l) None st)) with
    | (Ret l2, st2) =>
        (Ret (Call (Symbol s0) l2),
         snd (cache_set (Call (Symbol s0) l) (Some (Call (Symbol s0) l2)) st2))
    | (Raise e, st2) => (Raise e, st2)
    | (Stop r, st2) => (Stop r, st2)
    end.
Proof.
  intros Hf Hk Hc Hr. unfold simple, Brain_simple.
  rewrite Hf, Hk. cbn [is_atom]. rewrite (simple_attr_absent _ _ _ _ Hr).
  unfold cache_get. mrun. rewrite Hc.
  change (cache_set (Call (Symbol s0) l) None st)
    with (Ret tt, snd (cache_set (Call (Symbol s0) l) None st)).
  cbv beta iota.
  destruct (simple_args P self l _) as [[l2 | e | r] st2]; reflexivity.
Qed.

Lemma simple_opaque_head P B self h l st :
  is_fungrim B = false ->
  is_symbol h = false ->
  known B (Call h l) = false ->
  dict_get (simple_cache st) (Call h l) = None ->
  simple P B self (Call h l) st
  = (Ret (Call h l),
     snd (cache_set (Call h l) (Some (Call h l))
            (snd (cache_set (Call h l) None st)))).
Proof.
  intros Hf Hs Hk Hc. unfold simple, Brain_simple.
  rewrite Hf, Hk. cbn [is_atom]. unfold cache_get. mrun. rewrite Hc.
  destruct h; try discriminate; reflexivity.
Qed.

Lemma height_arg h l a : In a l -> (height a < height (Call h l))%nat.
Proof.
  intros Ha. cbn [height]. apply Nat.lt_succ_r.
  induction l as [| x r IH]; [destruct Ha |].
  destruct Ha as [-> | Ha]; [apply Nat.le_max_l |].
  etransitivity; [apply IH, Ha | apply Nat.le_max_r].
Qed.

Section RuleFree.

Context (P : Platform) (F : list Expr) (pen : list (Expr * Z)).

Let B := plain_brain F pen.

Lemma simple_args_rule_free (f : nat) (l : list Expr) :
  Forall (fun t =>
            forall fuel s,
              rule_free t = true -> (height t <= fuel)%nat ->
              cache_done F (simple_cache s) ->
              (forall k, pending (simple_cache s) k -> (height t < height k)%nat) ->
              exists s',
                simple P B (methods P B fuel) t s = (Ret (replace_facts F t), s')
                /\ cache_done F (simple_cache s')
                /\ (forall k, pending (simple_cache s') k
                              <-> pending (simple_cache s) k)) l ->
  forall s,
    forallb rule_free l = true ->
    (forall a, In a l -> (height a <= f)%nat) ->
    cache_done F (simple_cache s) ->
    (forall k a, pending (simple_cache s) k -> In a l ->
                 (height a < height k)%nat) ->
    exists s',
      mapM (simple P B (methods P B f)) l s
      = (Ret (map (replace_facts F) l), s')
      /\ cache_done F (simple_cache s')
      /\ (forall k, pending (simple_cache s') k <-> pending (simple_cache s) k).
Proof.
  induction 1 as [| x r Hx _ IHr]; intros s Hrf Hh Hd Hp.
  - exists s. repeat split; auto.
  - cbn [forallb] in Hrf. apply andb_true_iff in Hrf as [Hrx Hrr].
    destruct (Hx f s Hrx) as [s1 [E1 [Hd1 Hp1]]].
    { apply Hh. now left. }
    { exact Hd. }
    { intros k Hk. apply (Hp k x Hk). now left. }
    destruct (IHr s1 Hrr) as [s2 [E2 [Hd2 Hp2]]].
    { intros a Ha. apply Hh. now right. }
    { exact Hd1. }
    { intros k a Hk Ha. apply (Hp k a); [now apply Hp1 | now right]. }
    exists s2. cbn [mapM map]. mrun. rewrite E1, E2.
    repeat split; auto.
    + intros Hk. apply Hp1. now apply Hp2.
    + intros Hk. apply Hp2. now apply Hp1.
Qed.

Lemma simple_rule_free (t : Expr) :
  forall fuel s,
    rule_free t = true -> (height t <= fuel)%nat ->
    cache_done F (simple_cache s) ->
    (forall k, pending (simple_cache s) k -> (height t < height k)%nat) ->
    exists s',
      simple P B (methods P B fuel) t s = (Ret (replace_facts F t), s')
      /\ cache_done F (simple_cache s')
      /\ (forall k, pending (simple_cache s') k <-> pending (simple_cache s) k).
Proof.
  induction t as [n | z | n | h l IHh IHl] using Expr_ind';
    intros fuel s Hrf Hh Hd Hp.
  1-3: (cbn [replace_facts];
        match goal with
        | |- context [Expr_in ?e F] => destruct (Expr_in e F) eqn:E
        end;
        [ exists s; rewrite simple_known by exact E; repeat split; auto
        | exists s; rewrite simple_atom by (exact E || reflexivity);
          repeat split; auto ]).
  cbn [replace_facts]. destruct (Expr_in (Call h l) F) eqn:E.
  { exists s. rewrite simple_known by exact E. repeat split; auto. }
  assert (Hk : known B (Call h l) = false) by exact E.
  destruct (dict_get (simple_cache s) (Call h l)) as [[v |] |] eqn:Hc.
  - (* finished entry *)
    exists s. rewrite (simple_cached _ _ _ _ _ _ _ Hk Hc).
    apply Hd in Hc. subst v. cbn [replace_facts]. rewrite E.
    repeat split; auto.
  - (* in progress: excluded *)
    apply Hp in Hc. lia.
  - (* not in the cache *)
    destruct h as [s0 | z | n | h2 l2].
    2-4: (eexists; rewrite simple_opaque_head by (reflexivity || assumption);
          split; [reflexivity |]; cbn [cache_set snd simple_cache];
          split;
          [ intros k v; rewrite !dict_get_set;
            destruct (Expr_eqb _ k) eqn:Ek;
            [ intros [= <-]; apply Expr_eqb_eq in Ek; subst k;
              cbn [replace_facts]; now rewrite E
            | apply Hd ]
          | intros k; unfold pending; rewrite !dict_get_set;
            destruct (Expr_eqb _ k) eqn:Ek;
            [ apply Expr_eqb_eq in Ek; subst k; rewrite Hc;
              split; discriminate
            | reflexivity ] ]).
    rewrite rule_free_Call in Hrf. apply andb_true_iff in Hrf as [Hr Hrl].
    apply negb_true_iff in Hr.
    destruct fuel as [| f]; [cbn [height] in Hh; lia |].
    rewrite (simple_default P B _ s0 l s eq_refl Hk Hc Hr).
    destruct (simple_args_rule_free f l IHl
                (snd (cache_set (Call (Symbol s0) l) None s)) Hrl)
      as [s2 [E2 [Hd2 Hp2]]].
    { intros a Ha. pose proof (height_arg (Symbol s0) l a Ha). lia. }
    { cbn [cache_set snd simple_cache]. intros k v. rewrite dict_get_set.
      destruct (Expr_eqb _ k); [discriminate | apply Hd]. }
    { cbn [cache_set snd simple_cache]. intros k a Hpk Ha.
      pose proof (height_arg (Symbol s0) l a Ha) as Hlt.
      unfold pending in Hpk. rewrite dict_get_set in Hpk.
      destruct (Expr_eqb _ k) eqn:Ek.
      - apply Expr_eqb_eq in Ek. now subst k.
      - apply Hp in Hpk. lia. }
    unfold simple_args.
    change (self_simple P (methods P B (S f)))
      with (simple P B (methods P B f)).
    rewrite E2. eexists. split; [reflexivity |].
    cbn [cache_set snd simple_cache] in *. split.
    + intros k v. rewrite dict_get_set.
      destruct (Expr_eqb _ k) eqn:Ek; [| apply Hd2].
      intros [= <-]. apply Expr_eqb_eq in Ek. subst k.
      cbn [replace_facts]. now rewrite E.
    + intros k. unfold pending. rewrite dict_get_set.
      destruct (Expr_eqb _ k) eqn:Ek.
      * apply Expr_eqb_eq in Ek. subst k. rewrite Hc. split; discriminate.
      * specialize (Hp2 k). unfold pending in Hp2.
        rewrite dict_get_set, Ek in Hp2. exact Hp2.
Qed.

End RuleFree.

Lemma rule_free_replace F t :
  rule_free t = true -> rule_free (replace_facts F t) = true.
Proof.
  induction t as [n | z | n | h l IHh IHl] using Expr_ind'; intros Hrf;
    cbn [replace_facts];
    match goal with
    | |- context [Expr_in ?e F] => destruct (Expr_in e F)
    end; try reflexivity.
  destruct h as [s0 | z | n | h2 l2]; try reflexivity.
  rewrite rule_free_Call in *. apply andb_true_iff in Hrf as [Hr Hl].
  rewrite Hr. cbn [andb]. clear Hr IHh.
  induction IHl as [| x r Hx _ IHr]; [reflexivity |].
  cbn [forallb map] in *. apply andb_true_iff in Hl as [Hlx Hlr].
  now rewrite Hx, IHr.
Qed.

Lemma height_replace F t : (height (replace_facts F t) <= height t)%nat.
Proof.
  induction t as [n | z | n | h l IHh IHl] using Expr_ind';
    cbn [replace_facts];
    match goal with
    | |- context [Expr_in ?e F] => destruct (Expr_in e F)
    end; try (cbn; lia).
  destruct h as [s0 | z | n | h2 l2]; try lia.
  cbn [height]. apply le_n_S. clear IHh.
  induction IHl as [| x r Hx _ IHr]; [reflexivity |].
  cbn [map]. lia.
Qed.

(** C1, as the claim states it, fails.  In the session with the single
    hypothesis [Subset(x, y)], [simple(Subset(Parentheses(x), y))] is
    [Subset(x, y)]: the node is rebuilt from its simplified arguments
    and the rebuilt node is not looked up among the facts.  Simplifying
    that result gives [True_]. *)
Lemma simple_twice_differs :
  session false (Some (app2 Subset (Symbol "x") (Symbol "y"))) 5
  = Ret (plain_brain [app2 Subset (Symbol "x") (Symbol "y")] []) /\
  simple_twice bare_platform
    (plain_brain [app2 Subset (Symbol "x") (Symbol "y")] []) 5
    (app2 Subset (app1 (Symbol "Parentheses") (Symbol "x")) (Symbol "y"))
    (fresh_store default_limits)
  = (Ret (app2 Subset (Symbol "x") (Symbol "y")), Ret True_).
Proof. split; vm_compute; reflexivity. Qed.

(** C1, amended.  Take a term in which every application that [simple]
    reaches has a symbol head without operator rule or a head that is
    not a symbol, and a session none of whose facts has the literal
    [True_] among its arguments at any depth.  Then, from a fresh
    cache, simplifying twice gives the same as simplifying once: both
    calls return the term with its facts replaced by [True_]. *)
Theorem simple_idempotent_without_rules (P : Platform) (F : list Expr)
    (pen : list (Expr * Z)) (fuel : nat) (t : Expr) (lim : Limits) :
  rule_free t = true -> true_free F = true -> (height t <= fuel)%nat ->
  simple_twice P (plain_brain F pen) fuel t (fresh_store lim)
  = (Ret (replace_facts F t), Ret (replace_facts F t)).
Proof.
  intros Hrf HF Hh. unfold simple_twice, run_simple.
  destruct (simple_rule_free P F pen t fuel (fresh_store lim) Hrf Hh)
    as [s1 [E1 [Hd1 Hp1]]].
  { intros k v. discriminate. }
  { intros k. discriminate. }
  rewrite E1.
  destruct (simple_rule_free P F pen (replace_facts F t) fuel s1)
    as [s2 [E2 _]].
  { now apply rule_free_replace. }
  { pose proof (height_replace F t). lia. }
  { exact Hd1. }
  { intros k Hk. apply Hp1 in Hk. discriminate. }
  rewrite E2. cbn [fst]. now rewrite replace_facts_idem.
Qed.

Lemma simple_idempotent_without_rules_witness :
  simple_twice bare_platform
    (plain_brain [app2 Subset (Symbol "x") (Symbol "y")] []) 2
    (app2 (Symbol "f") (app2 Subset (Symbol "x") (Symbol "y"))
       (app1 (Symbol "g") (Symbol "x")))
    (fresh_store default_limits)
  = (Ret (app2 (Symbol "f") True_ (app1 (Symbol "g") (Symbol "x"))),
     Ret (app2 (Symbol "f") True_ (app1 (Symbol "g") (Symbol "x")))).
Proof.
  apply (simple_idempotent_without_rules bare_platform
           [app2 Subset (Symbol "x") (Symbol "y")] [] 2
           (app2 (Symbol "f") (app2 Subset (Symbol "x") (Symbol "y"))
              (app1 (Symbol "g") (Symbol "x")))
           default_limits).
  - reflexivity.
  - reflexivity.
  - simpl. lia.
Defined.

(* ================================================================== *)
(** * Square roots of integer atoms *)

Lemma simple_Sqrt_integer (P : Platform) B self n k st :
  (forall st, self_simple P self (Integer n) st = (Ret (Integer n), st)) ->
  0 <= k -> Z.abs n = k * k -> Z.abs n < float_1e100 ->
  round_sqrt P (k * k) = k ->
  simple_Sqrt P B self (Integer n) st
  = (Ret (if n >=? 0 then Integer k
          else if k =? 1 then ConstI else app2 Mul (Integer k) ConstI), st).
Proof.
  intros Hself Hk Habs Hlt Hr.
  unfold simple_Sqrt. unfold bind at 1. rewrite Hself.
  unfold body, seqb, If, IfM, return_, fall, bind, ret.
  cbn [Expr_in existsb Expr_eqb Infinity UnsignedInfinity Undefined orb
       MinusInfinity app1 ConstI].
  destruct (n =? 0) eqn:E0.
  { apply Z.eqb_eq in E0. subst n. assert (k = 0) by nia. subst k. reflexivity. }
  destruct (n =? 1) eqn:E1.
  { apply Z.eqb_eq in E1. subst n. assert (k = 1) by nia. subst k. reflexivity. }
  cbn [orb].
  destruct (n =? -1) eqn:Em1.
  { apply Z.eqb_eq in Em1. subst n. assert (k = 1) by nia. subst k. reflexivity. }
  apply Z.ltb_lt in Hlt. rewrite Hlt, Habs, Hr, Z.eqb_refl.
  destruct (n >=? 0) eqn:Eg; [reflexivity |].
  assert ((k =? 1) = false) as ->; [| reflexivity].
  apply Z.eqb_neq. apply Z.eqb_neq in Em1. intro. subst k.
  rewrite Z.geb_leb in Eg. apply Z.leb_gt in Eg. lia.
Qed.

(** [simple_Sqrt] on a term that simplifies to an integer [m], neither
    0 nor 1 nor -1, on which the perfect-square test is not made or
    fails. *)
Lemma simple_Sqrt_untested (P : Platform) B self x m st st1 :
  self_simple P self x st = (Ret (Integer m), st1) ->
  2 <= Z.abs m ->
  (Z.abs m <? float_1e100)
  && (round_sqrt P (Z.abs m) * round_sqrt P (Z.abs m) =? Z.abs m) = false ->
  simple_Sqrt P B self x st
  = if m <? 0
    then (do y <- self_simple_Sqrt P self (app1 Neg (Integer m));
          ret (app2 Mul y ConstI)) st1
    else (Ret (app1 Sqrt (Integer m)), st1).
Proof.
  intros Hself Hn Ht.
  unfold simple_Sqrt. unfold bind at 1. rewrite Hself.
  unfold body, seqb, If, IfM, return_, fall.
  cbn [Expr_in existsb Expr_eqb Infinity UnsignedInfinity Undefined orb
       MinusInfinity app1 ConstI].
  replace (m =? 0) with false by (symmetry; apply Z.eqb_neq; lia).
  replace (m =? 1) with false by (symmetry; apply Z.eqb_neq; lia).
  replace (m =? -1) with false by (symmetry; apply Z.eqb_neq; lia).
  cbn [orb]. cbv zeta.
  assert (Hneg : holds (is_negative P B (Integer m)) st1
                 = (Ret (m <? 0), st1)).
  { unfold holds, is_negative, body, seqb, return_, bind, ret.
    destruct (m <? 0); reflexivity. }
  destruct (Z.abs m <? float_1e100); cbn [andb] in Ht; [rewrite Ht |];
    unfold bind, ret; rewrite Hneg;
    (destruct (m <? 0); [| reflexivity]);
    destruct (self_simple_Sqrt P self (app1 Neg (Integer m)) st1)
      as [[y | e | r] s']; reflexivity.
Qed.

(** [simple] on the negation of an integer literal. *)
Lemma simple_Neg_integer (P : Platform) B f n st :
  expr_db B = [] ->
  known B (Integer n) = false ->
  known B (app1 Neg (Integer n)) = false ->
  dict_get (simple_cache st) (app1 Neg (Integer n)) = None ->
  fst (simple P B (methods P B (S f)) (app1 Neg (Integer n)) st)
  = Ret (Integer (- n)).
Proof.
  intros Hdb Hn Hk Hc. unfold app1, Neg.
  rewrite (simple_method_outcome P B _ "Neg" [Integer n]
             (call1 (simple_Neg P (methods P B (S f)))));
    try assumption; try reflexivity.
  cbn [call1]. unfold simple_Neg. unfold bind at 1.
  cbn [methods self_simple].
  rewrite simple_atom by (assumption || reflexivity). reflexivity.
Qed.

Lemma double_round_sqrt_exact (k : Z) :
  0 <= k -> k * k < 2 ^ 53 -> double_round_sqrt (k * k) = k.
Proof.
  intros Hk Hlt. unfold double_round_sqrt, to_double.
  destruct (Z.eq_dec k 0) as [-> | Hk0]; [reflexivity |].
  assert (H1 : 0 < k) by lia.
  assert (H2 : 0 < k * k) by nia.
  assert (Hl : Z.log2 (k * k) < 53) by (apply Z.log2_lt_pow2; assumption).
  replace (Z.log2 (k * k) + 1 - 53 <=? 0) with true
    by (symmetry; apply Z.leb_le; lia).
  cbv zeta.
  replace (k * k =? 0) with false by (symmetry; apply Z.eqb_neq; lia).
  rewrite Z.sqrt_square by exact Hk.
  assert (Hlk : Z.log2 k <= Z.log2 (k * k)) by (apply Z.log2_le_mono; nia).
  set (sh := 53 - (Z.log2 k + 1)).
  assert (Hsh : 0 <= sh) by (unfold sh; lia).
  replace (0 <=? sh) with true by (symmetry; apply Z.leb_le; exact Hsh).
  assert (Hp : 0 < 2 ^ sh) by (apply Z.pow_pos_nonneg; lia).
  replace (k * k * 4 ^ sh) with ((k * 2 ^ sh) * (k * 2 ^ sh)).
  2:{ change 4 with (2 * 2). rewrite Z.pow_mul_l. ring. }
  unfold nearest_sqrt. rewrite Z.sqrt_square by nia.
  replace (k * 2 ^ sh * (k * 2 ^ sh) - k * 2 ^ sh * (k * 2 ^ sh)
           <=? k * 2 ^ sh) with true
    by (symmetry; apply Z.leb_le; nia).
  unfold div_half_even.
  rewrite Z.div_mul, Z.mod_mul by lia. cbv zeta.
  replace (2 * 0 <? 2 ^ sh) with true by (symmetry; apply Z.ltb_lt; lia).
  reflexivity.
Qed.

(** C6, as the claim states it, fails on large integers: 10^102 is the
    square of 10^51, yet [Sqrt(10^102)] is returned unevaluated, because
    the perfect-square test is made only below the float [1e100].  It
    fails below that bound as well: 10^100 is the square of 10^50 and
    less than the float [1e100], yet [Sqrt(10^100)] is returned
    unevaluated, because the root is computed in double precision. *)
Lemma Sqrt_of_large_square_unevaluated :
  10 ^ 102 = 10 ^ 51 * 10 ^ 51 /\
  simple_in (plain_brain [] []) 3 (app1 Sqrt (Integer (10 ^ 102)))
  = Ret (app1 Sqrt (Integer (10 ^ 102))) /\
  simple_in (plain_brain [] []) 3 (app1 Sqrt (Integer (10 ^ 102)))
  <> Ret (Integer (10 ^ 51)) /\
  10 ^ 100 = 10 ^ 50 * 10 ^ 50 /\
  10 ^ 100 < float_1e100 /\
  simple_in (plain_brain [] []) 3 (app1 Sqrt (Integer (10 ^ 100)))
  = Ret (app1 Sqrt (Integer (10 ^ 100))).
Proof.
  split; [reflexivity |].
  assert (E : simple_in (plain_brain [] []) 3 (app1 Sqrt (Integer (10 ^ 102)))
              = Ret (app1 Sqrt (Integer (10 ^ 102)))) by (vm_compute; reflexivity).
  split; [exact E |]. split; [rewrite E; discriminate |].
  split; [reflexivity |]. split; [reflexivity |].
  vm_compute. reflexivity.
Qed.

(** C6, amended.  Let [n] be an integer atom with |n| = k^2.
    When |n| is below the float [1e100] and the floating-point square
    root [int(round(|n| ** 0.5))] yields the true root [k],
    [simple(Sqrt(n))] is exact: the integer atom [k] when [n >= 0], and
    for [n = -k^2] the term [ConstI] when [k = 1] and [Mul(k, ConstI)]
    otherwise.  When the floating-point root yields a number that is
    neither [k] nor [-k], and when |n| is not below the float [1e100],
    where the root is not computed at all, the square root is left
    unevaluated for [k >= 2]: the result is [Sqrt(n)] for [n >= 0] and
    [Mul(Sqrt(-n), ConstI)] for [n < 0].  In double precision with a
    correctly rounded root, the floating-point root is the true root
    whenever |n| is less than 2^53.  (The session has no ground-term
    table; [n], [Neg(n)] and [Sqrt(n)] are not among its facts, and
    [Neg(n)] and [Sqrt(n)] are not yet in its cache.) *)
Theorem Sqrt_of_square_is_exact (P : Platform) (B : Brain) (fuel : nat)
    (n k : Z) (s : Store) :
  let t := app1 Sqrt (Integer n) in
  let unevaluated :=
    if n <? 0 then app2 Mul (app1 Sqrt (Integer (- n))) ConstI else t in
  let result := fst (run_simple P B (S (S (S fuel))) t s) in
  0 <= k -> Z.abs n = k * k ->
  expr_db B = [] ->
  forallb (fun e => negb (known B e)) [Integer n; app1 Neg (Integer n); t]
  = true ->
  forallb (fun e => match dict_get (simple_cache s) e with
                    | None => true
                    | Some _ => false
                    end) [app1 Neg (Integer n); t] = true ->
  (Z.abs n < float_1e100 -> round_sqrt P (k * k) = k ->
   result = Ret (if n >=? 0 then Integer k
                 else if k =? 1 then ConstI else app2 Mul (Integer k) ConstI))
  /\
  (2 <= k -> Z.abs n < float_1e100 -> Z.abs (round_sqrt P (k * k)) <> k ->
   result = Ret unevaluated) /\
  (float_1e100 <= Z.abs n -> result = Ret unevaluated) /\
  (k * k < 2 ^ 53 -> double_round_sqrt (k * k) = k).
Proof.
  intros t unevaluated result Hk Habs Hdb Hfacts Hcache.
  cbn [forallb] in Hfacts, Hcache.
  apply andb_true_iff in Hfacts as [Hn Hfacts].
  apply andb_true_iff in Hfacts as [Hneg Hfacts].
  apply andb_true_iff in Hfacts as [Ht _].
  apply negb_true_iff in Hn, Hneg, Ht.
  apply andb_true_iff in Hcache as [Hcn Hcache].
  apply andb_true_iff in Hcache as [Hct _].
  destruct (dict_get (simple_cache s) (app1 Neg (Integer n))) eqn:Ecn;
    [discriminate |].
  destruct (dict_get (simple_cache s) t) eqn:Ect; [discriminate |].
  clear Hcn Hct.
  set (s0 := snd (cache_set t None s)).
  assert (E : result
              = fst (simple_Sqrt P B (methods P B (S (S (S fuel))))
                       (Integer n) s0)).
  { unfold result, run_simple, t, app1, Sqrt.
    erewrite simple_method_outcome; [| assumption | exact Ht | exact Ect
                                    | reflexivity].
    reflexivity. }
  assert (Hatom : forall f st,
             self_simple P (methods P B (S f)) (Integer n) st
             = (Ret (Integer n), st)).
  { intros f st. cbn [methods self_simple]. now apply simple_atom. }
  assert (Hfail : 2 <= k ->
             (Z.abs n <? float_1e100)
             && (round_sqrt P (Z.abs n) * round_sqrt P (Z.abs n) =? Z.abs n)
             = false ->
             result = Ret unevaluated).
  { intros H2 Htest. rewrite E.
    rewrite (simple_Sqrt_untested P B _ (Integer n) n s0 s0);
      [| apply Hatom | nia | exact Htest].
    unfold unevaluated. destruct (n <? 0) eqn:En; [| reflexivity].
    apply Z.ltb_lt in En.
    assert (Hc0 : dict_get (simple_cache s0) (app1 Neg (Integer n)) = None).
    { unfold s0, cache_set. cbn [snd simple_cache]. rewrite dict_get_set.
      replace (t == app1 Neg (Integer n)) with false by reflexivity.
      exact Ecn. }
    pose proof (simple_Neg_integer P B fuel n s0 Hdb Hn Hneg Hc0) as Hs.
    destruct (simple P B (methods P B (S fuel)) (app1 Neg (Integer n)) s0)
      as [o s1] eqn:Es.
    cbn [fst] in Hs. subst o.
    cbn [methods self_simple_Sqrt]. unfold bind.
    rewrite (simple_Sqrt_untested P B _ (app1 Neg (Integer n)) (- n) s0 s1).
    - replace (- n <? 0) with false by (symmetry; apply Z.ltb_ge; lia).
      reflexivity.
    - cbn [methods self_simple]. exact Es.
    - rewrite Z.abs_opp. nia.
    - rewrite Z.abs_opp. exact Htest. }
  repeat split.
  - intros Hlt Hr. rewrite E.
    rewrite (simple_Sqrt_integer P B _ n k s0); try assumption;
      [reflexivity | apply Hatom].
  - intros H2 Hlt Hr. apply Hfail; [exact H2 |].
    apply andb_false_iff. right. apply Z.eqb_neq.
    rewrite Habs. intros Hsq. apply Hr.
    assert (Hq : Z.abs (round_sqrt P (k * k)) * Z.abs (round_sqrt P (k * k))
                 = k * k) by (rewrite <- Z.abs_mul, Hsq; apply Z.abs_eq; nia).
    nia.
  - intros Hge. apply Hfail.
    + assert (4 <= float_1e100) by (vm_compute; discriminate). nia.
    + apply andb_false_iff. left. now apply Z.ltb_ge.
  - intros Hlt. now apply double_round_sqrt_exact.
Qed.

Lemma Sqrt_of_square_is_exact_witness :
  fst (run_simple bare_platform (plain_brain [] []) 3
         (app1 Sqrt (Integer (-49))) (fresh_store default_limits))
  = Ret (app2 Mul (Integer 7) ConstI).
Proof.
  refine (proj1 (Sqrt_of_square_is_exact bare_platform (plain_brain [] []) 0
                   (-49) 7 (fresh_store default_limits) _ _ _ _ _) _ _).
  - lia.
  - reflexivity.
  - reflexivity.
  - reflexivity.
  - reflexivity.
  - reflexivity.
  - reflexivity.
Defined.

(* ================================================================== *)
(** * expr.py: traversals, substitution and construction *)

Lemma filter_flat_map {A B} (p : B -> bool) (f g : A -> list B) (l : list A) :
  Forall (fun x => g x = filter p (f x)) l ->
  flat_map g l = filter p (flat_map f l).
Proof.
  induction 1 as [| x r Hx _ IH]; simpl.
  - reflexivity.
  - now rewrite filter_app, Hx, IH.
Qed.

Lemma symbols_atoms (e : Expr) : symbols e = filter is_symbol (atoms e).
Proof.
  induction e as [s | z | s | h l IHh IHl] using Expr_ind'; try reflexivity.
  simpl. rewrite filter_app, IHh. f_equal. now apply filter_flat_map.
Qed.

Lemma atoms_subexpressions (e : Expr) :
  atoms e = filter is_atom (subexpressions e).
Proof.
  induction e as [s | z | s | h l IHh IHl] using Expr_ind'; try reflexivity.
  simpl. rewrite filter_app, IHh. f_equal. now apply filter_flat_map.
Qed.

Lemma subexpressions_with_head_filter (hd e : Expr) :
  subexpressions_with_head hd e
  = filter (fun s => head_is s hd) (subexpressions e).
Proof.
  induction e as [s | z | s | h l IHh IHl] using Expr_ind'; try reflexivity.
  cbn [subexpressions_with_head subexpressions filter].
  rewrite filter_app, IHh.
  rewrite (filter_flat_map (fun s => head_is s hd) subexpressions
             (subexpressions_with_head hd) l IHl).
  destruct (head_is (Call h l) hd); reflexivity.
Qed.

Lemma unseen_In (l seen : list Expr) (x : Expr) :
  In x (unseen seen l) <-> In x l /\ ~ In x seen.
Proof.
  revert seen. induction l as [| y r IH]; intros seen; simpl.
  - tauto.
  - destruct (Expr_in y seen) eqn:E.
    + apply Expr_in_In in E. rewrite IH. split.
      * tauto.
      * intros [[-> | H] Hn]; [contradiction | tauto].
    + assert (Hy : ~ In y seen).
      { intros H. apply Expr_in_In in H. congruence. }
      simpl. rewrite IH. simpl. split.
      * intros [-> | [H Hn]]; [tauto |]. split; [tauto |]. tauto.
      * intros [[-> | H] Hn]; [tauto |].
        destruct (Expr_eqb y x) eqn:Eyx.
        -- apply Expr_eqb_eq in Eyx. tauto.
        -- apply Expr_eqb_neq in Eyx. right. split; [exact H |].
           intros [H' | H']; [congruence | tauto].
Qed.

Lemma unseen_NoDup (l seen : list Expr) : NoDup (unseen seen l).
Proof.
  revert seen. induction l as [| y r IH]; intros seen; simpl.
  - constructor.
  - destruct (Expr_in y seen); [apply IH |].
    constructor; [| apply IH].
    rewrite unseen_In. simpl. tauto.
Qed.

Lemma size_pos (e : Expr) : (1 <= size e)%nat.
Proof. destruct e; simpl; lia. Qed.

Lemma size_arg (a : Expr) (l : list Expr) :
  In a l -> (size a <= list_sum (map size l))%nat.
Proof.
  induction l as [| x r IH]; simpl; [tauto |].
  intros [-> | H]; [lia | apply IH in H; lia].
Qed.

Lemma subexpressions_size (e s : Expr) :
  In s (subexpressions e) -> (size s <= size e)%nat.
Proof.
  revert s. induction e as [n | z | n | h l IHh IHl] using Expr_ind';
    intros s; simpl; try (intros [<- | []]; simpl; lia).
  intros [<- | H]; [simpl; lia |].
  apply in_app_or in H. destruct H as [H | H].
  - apply IHh in H. lia.
  - apply in_flat_map in H. destruct H as [a [Ha Hs]].
    rewrite Forall_forall in IHl. apply (IHl a Ha) in Hs.
    pose proof (size_arg a l Ha). lia.
Qed.

Lemma head_args_flattened_heads (hd e : Expr) :
  Forall (fun x => head_is x hd = false) (head_args_flattened hd e).
Proof.
  induction e as [n | z | n | h l IHh IHl] using Expr_ind'; simpl;
    try (constructor; [reflexivity | constructor]).
  destruct (h == hd) eqn:E.
  - clear IHh. induction IHl as [| x r Hx _ IH]; simpl.
    + constructor.
    + apply Forall_app. split; assumption.
  - constructor; [| constructor]. unfold head_is. simpl. exact E.
Qed.

Lemma head_args_flattened_other (hd e : Expr) :
  head_is e hd = false -> head_args_flattened hd e = [e].
Proof.
  destruct e as [n | z | n | h l]; try reflexivity.
  unfold head_is. simpl. intros ->. reflexivity.
Qed.

Lemma And_terms_flattened (e : Expr) : And_terms e = head_args_flattened And e.
Proof.
  induction e as [n | z | n | h l IHh IHl] using Expr_ind'; try reflexivity.
  simpl. destruct (h == And); [| reflexivity].
  clear IHh. induction IHl as [| x r Hx _ IH]; simpl; [reflexivity |].
  now rewrite Hx, IH.
Qed.

Lemma replace_nil (e : Expr) : replace [] e = e.
Proof. destruct e; reflexivity. Qed.

Lemma replace_Call rules h l :
  dict_get rules (Call h l) = None ->
  replace rules (Call h l) = Call (replace rules h) (map (replace rules) l).
Proof.
  intros H. destruct rules as [| p r].
  - cbn [replace dict_get]. rewrite replace_nil. f_equal.
    induction l as [| x t IH]; simpl; [reflexivity |].
    now rewrite replace_nil, <- IH.
  - cbn [replace]. rewrite H. reflexivity.
Qed.

Lemma replace_atom rules e :
  is_atom e = true -> dict_get rules e = None -> replace rules e = e.
Proof.
  intros Ha H. destruct e; try discriminate; cbn [replace]; now rewrite H.
Qed.

Lemma replace_untouched (rules : list (Expr * Expr)) (e : Expr) :
  (forall s, In s (subexpressions e) -> dict_get rules s = None) ->
  replace rules e = e.
Proof.
  induction e as [n | z | n | h l IHh IHl] using Expr_ind'; intros H;
    try (apply replace_atom; [reflexivity | apply H; simpl; tauto]).
  rewrite replace_Call by (apply H; simpl; tauto).
  rewrite IHh.
  2:{ intros s Hs. apply H. simpl. right. apply in_or_app. now left. }
  f_equal.
  assert (Hl : forall a, In a l -> replace rules a = a).
  { intros a Ha. rewrite Forall_forall in IHl. apply (IHl a Ha).
    intros s Hs. apply H. simpl. right. apply in_or_app. right.
    apply in_flat_map. now exists a. }
  clear -Hl. induction l as [| x r IH]; simpl; [reflexivity |].
  rewrite Hl by (simpl; tauto). f_equal. apply IH.
  intros a Ha. apply Hl. simpl. tauto.
Qed.

Lemma dict_get_keys {V} (rules : list (Expr * V)) (k : Expr) :
  Expr_in k (keys rules) = false <-> dict_get rules k = None.
Proof.
  induction rules as [| [k' v] r IH]; simpl.
  - tauto.
  - rewrite (Expr_eqb_sym k k'). destruct (k' == k); simpl.
    + split; discriminate.
    + exact IH.
Qed.

Lemma mentions_false (ks : list Expr) (e s : Expr) :
  mentions ks e = false -> In s (subexpressions e) -> Expr_in s ks = false.
Proof.
  unfold mentions. intros H Hs.
  destruct (Expr_in s ks) eqn:E; [| reflexivity].
  assert (existsb (fun s => Expr_in s ks) (subexpressions e) = true).
  { apply existsb_exists. now exists s. }
  congruence.
Qed.

Lemma replace_unmentioned (rules : list (Expr * Expr)) (e : Expr) :
  mentions (keys rules) e = false -> replace rules e = e.
Proof.
  intros H. apply replace_untouched. intros s Hs.
  apply dict_get_keys. eapply mentions_false; eassumption.
Qed.

Lemma replace_eliminates_In (var v e : Expr) :
  is_atom var = true ->
  ~ In var (subexpressions v) ->
  ~ In var (subexpressions (replace [(var, v)] e)).
Proof.
  intros Ha Hv.
  induction e as [n | z | n | h l IHh IHl] using Expr_ind'.
  1-3: cbn [replace dict_get];
       match goal with
       | |- context [Expr_eqb ?y ?x] => destruct (Expr_eqb y x) eqn:E
       end;
       [exact Hv | simpl; intros [H | []]; subst;
                   rewrite Expr_eqb_refl in E; discriminate].
  cbn [replace dict_get].
  destruct (var == Call h l) eqn:E; [exact Hv |].
  cbn [subexpressions]. intros [H | H].
  - rewrite <- H in Ha. discriminate.
  - apply in_app_or in H. destruct H as [H | H]; [now apply IHh |].
    apply in_flat_map in H. destruct H as [a [Ha' Hs]].
    apply in_map_iff in Ha'. destruct Ha' as [b [<- Hb]].
    rewrite Forall_forall in IHl. now apply (IHl b Hb).
Qed.

Lemma collect_Ret_map (l : list Expr) :
  collect (map Expr_of (map PyExpr l)) = Ret l.
Proof.
  induction l as [| x r IH]; simpl; [reflexivity |].
  now rewrite IH.
Qed.

Lemma escape_title_length (s : string) :
  String.length (escape_title s) = String.length s.
Proof. induction s as [| c r IH]; simpl; congruence. Qed.

Lemma escape_title_get (s : string) (n : nat) :
  String.get n (escape_title s) <> Some " "%char.
Proof.
  revert n. induction s as [| c r IH]; intros n; simpl; [discriminate |].
  destruct n as [| n]; [| apply IH].
  destruct (Ascii.eqb c " ") eqn:E; [discriminate |].
  intros H. injection H as ->. now rewrite Ascii.eqb_refl in E.
Qed.

Lemma escape_title_idem (s : string) :
  escape_title (escape_title s) = escape_title s.
Proof.
  induction s as [| c r IH]; simpl; [reflexivity |].
  rewrite IH. destruct (Ascii.eqb c " ") eqn:E; simpl; [reflexivity |].
  now rewrite E.
Qed.

Lemma escape_title_fixed (s : string) :
  (forall n, String.get n s <> Some " "%char) -> escape_title s = s.
Proof.
  induction s as [| c r IH]; intros H; simpl; [reflexivity |].
  rewrite IH by (intros n; exact (H (S n))).
  destruct (Ascii.eqb c " ") eqn:E; [| reflexivity].
  apply Ascii.eqb_eq in E. subst c. exfalso. now apply (H O).
Qed.

(** X1.  The generators of [Expr] agree with one another:
    [symbols()], [atoms()] and [subexpressions_with_head(h)] yield, in
    the same order and with the same repetitions, exactly those terms
    yielded by [subexpressions()] that are symbols, that are atoms, and
    that are applications of [h]. *)
Theorem generators_select_subexpressions (hd e : Expr) :
  symbols e = filter is_symbol (subexpressions e) /\
  atoms e = filter is_atom (subexpressions e) /\
  subexpressions_with_head hd e
  = filter (fun s => head_is s hd) (subexpressions e).
Proof.
  split; [| split].
  - rewrite symbols_atoms, atoms_subexpressions.
    induction (subexpressions e) as [| x r IH]; simpl; [reflexivity |].
    destruct x; simpl; now rewrite ?IH.
  - apply atoms_subexpressions.
  - apply subexpressions_with_head_filter.
Qed.

(** X2.  With [unique=True] the generators [atoms],
    [symbols] and [subexpressions] yield every term they yield without
    it, and each one once; for [subexpressions] this holds although the
    root, yielded first, is not recorded among the terms seen. *)
Theorem unique_generators_yield_each_once (e : Expr) :
  (NoDup (atoms_unique e) /\
   forall x, In x (atoms_unique e) <-> In x (atoms e)) /\
  (NoDup (symbols_unique e) /\
   forall x, In x (symbols_unique e) <-> In x (symbols e)) /\
  (NoDup (subexpressions_unique e) /\
   forall x, In x (subexpressions_unique e) <-> In x (subexpressions e)).
Proof.
  split; [| split].
  - destruct e as [n | z | n | h l]; simpl;
      try (split; [repeat constructor; simpl; tauto | tauto]).
    split; [apply unseen_NoDup |].
    intros x. rewrite unseen_In. simpl. tauto.
  - destruct e as [n | z | n | h l]; simpl;
      try (split; [repeat constructor; simpl; tauto | tauto]).
    split; [apply unseen_NoDup |].
    intros x. rewrite unseen_In. simpl. tauto.
  - destruct e as [n | z | n | h l]; simpl;
      try (split; [repeat constructor; simpl; tauto | tauto]).
    split.
    + constructor; [| apply unseen_NoDup].
      rewrite unseen_In. intros [H _].
      apply in_app_or in H. destruct H as [H | H].
      * apply subexpressions_size in H. simpl in H. lia.
      * apply in_flat_map in H. destruct H as [a [Ha Hs]].
        apply subexpressions_size in Hs. simpl in Hs.
        pose proof (size_arg a l Ha). pose proof (size_pos h). lia.
    + intros x. rewrite unseen_In. simpl. tauto.
Qed.

(** X3.  [head_args_flattened(h)] yields no application of
    [h]; a term that is not an application of [h] is yielded as it is;
    flattening the application of [h] to the flattened terms gives the
    same terms again.  [And_terms] of brain.py is
    [head_args_flattened(And)]. *)
Theorem flattening_removes_the_head (hd e : Expr) :
  forallb (fun x => negb (head_is x hd)) (head_args_flattened hd e) = true /\
  (if head_is e hd then True else head_args_flattened hd e = [e]) /\
  head_args_flattened hd (Call hd (head_args_flattened hd e))
  = head_args_flattened hd e /\
  And_terms e = head_args_flattened And e.
Proof.
  pose proof (head_args_flattened_heads hd e) as H.
  split; [| split; [| split]].
  - apply forallb_forall. intros x Hx. rewrite Forall_forall in H.
    now rewrite (H x Hx).
  - destruct (head_is e hd) eqn:E; [exact I |].
    now apply head_args_flattened_other.
  - cbn [head_args_flattened]. rewrite Expr_eqb_refl.
    induction H as [| x r Hx _ IH]; simpl; [reflexivity |].
    rewrite (head_args_flattened_other hd x Hx). simpl. now rewrite IH.
  - apply And_terms_flattened.
Qed.

(** X4.  [replace(rules)] returns the term
    itself when no subexpression of the term (the term, its head and
    its arguments, at any depth) is a key of [rules]. *)
Theorem replace_without_key_is_identity (rules : list (Expr * Expr))
    (e : Expr) :
  mentions (keys rules) e = false -> replace rules e = e.
Proof. apply replace_unmentioned. Qed.

Lemma replace_without_key_is_identity_witness :
  replace [(Symbol "x", Integer 1)]
    (app2 (Symbol "f") (Symbol "y") (Integer 2))
  = app2 (Symbol "f") (Symbol "y") (Integer 2).
Proof.
  apply (replace_without_key_is_identity [(Symbol "x", Integer 1)]
           (app2 (Symbol "f") (Symbol "y") (Integer 2))).
  reflexivity.
Defined.

(** X5.  Substituting a value for an atom removes
    the atom: when [var] is an atom that does not occur in [v], it does
    not occur in [e.replace({var: v})], whatever [e] is. *)
Theorem replace_eliminates_the_variable (var v e : Expr) :
  is_atom var = true ->
  mentions [var] v = false ->
  mentions [var] (replace [(var, v)] e) = false.
Proof.
  intros Ha Hv.
  assert (Hn : ~ In var (subexpressions (replace [(var, v)] e))).
  { apply replace_eliminates_In; [exact Ha |].
    intros H. apply (mentions_false [var] v var Hv) in H.
    simpl in H. now rewrite Expr_eqb_refl in H. }
  unfold mentions.
  destruct (existsb _ _) eqn:E; [| reflexivity].
  apply existsb_exists in E. destruct E as [s [Hs Hin]].
  simpl in Hin. rewrite orb_false_r in Hin.
  apply Expr_eqb_eq in Hin. subst s. contradiction.
Qed.

Lemma replace_eliminates_the_variable_witness :
  mentions [Symbol "n"]
    (replace [(Symbol "n", Integer 3)]
       (app2 (Symbol "f") (Symbol "n") (app1 (Symbol "g") (Symbol "n"))))
  = false.
Proof.
  apply (replace_eliminates_the_variable (Symbol "n") (Integer 3)
           (app2 (Symbol "f") (Symbol "n") (app1 (Symbol "g") (Symbol "n")))).
  - reflexivity.
  - reflexivity.
Defined.

(** X6.  Calling a term on arguments that are terms builds the
    application without a fault, whatever the number of arguments, and
    [head()] and [args()] of the result give back the callee and the
    arguments. *)
Theorem call_then_head_and_args (f : Expr) (l : list Expr) :
  Expr_call f (map PyExpr l) = Ret (Call f l) /\
  head (Call f l) = Some f /\ args (Call f l) = Some l.
Proof.
  split; [| split; reflexivity].
  unfold Expr_call, Expr_new.
  change (map Expr_of (PyExpr f :: map PyExpr l))
    with (Expr_of (PyExpr f) :: map Expr_of (map PyExpr l)).
  cbn [collect Expr_of]. now rewrite collect_Ret_map.
Qed.

(** X7.  [escape_title] keeps the length of the name,
    leaves no space in it, changes nothing in a name without spaces,
    and applying it twice is applying it once. *)
Theorem escape_title_removes_spaces (name : string) :
  String.length (escape_title name) = String.length name /\
  existsb (Ascii.eqb " ") (list_ascii_of_string (escape_title name)) = false /\
  (if existsb (Ascii.eqb " ") (list_ascii_of_string name) then True
   else escape_title name = name) /\
  escape_title (escape_title name) = escape_title name.
Proof.
  split; [apply escape_title_length | split; [| split]].
  - induction name as [| c r IH]; [reflexivity |].
    cbn [escape_title list_ascii_of_string existsb].
    rewrite IH, orb_false_r.
    destruct (Ascii.eqb c " ") eqn:E; [reflexivity |].
    now rewrite Ascii.eqb_sym.
  - induction name as [| c r IH]; [reflexivity |].
    cbn [escape_title list_ascii_of_string existsb].
    rewrite (Ascii.eqb_sym " " c).
    destruct (Ascii.eqb c " ") eqn:E; cbn [orb]; [exact I |].
    destruct (existsb _ _); [exact I |]. now rewrite IH.
  - apply escape_title_idem.
Qed.

(* ================================================================== *)
(** * brain.py: matching against a rule *)

Lemma match_recursive_var fv rule expr mv :
  Expr_in rule fv = true ->
  match_recursive fv rule expr mv
  = match dict_get mv rule with
    | Some v => if expr != v then None else Some mv
    | None => Some (dict_set mv rule expr)
    end.
Proof. intros H. destruct rule; simpl; rewrite H; reflexivity. Qed.

Lemma match_recursive_same fv rule expr mv :
  Expr_in rule fv = false -> (expr == rule) = true ->
  match_recursive fv rule expr mv = Some mv.
Proof. intros H E. destruct rule; simpl; rewrite H, E; reflexivity. Qed.

Lemma match_args_fix fv rs es mv :
  (fix go (rs es : list Expr) (mv : list (Expr * Expr)) {struct rs}
     : option (list (Expr * Expr)) :=
     match rs, es with
     | r :: rs', e :: es' =>
         match match_recursive fv r e mv with
         | Some mv' => go rs' es' mv'
         | None => None
         end
     | _, _ => Some mv
     end) rs es mv = match_args fv rs es mv.
Proof.
  revert es mv. induction rs as [| r rs IH]; intros es mv; [reflexivity |].
  destruct es as [| e es]; [reflexivity |].
  cbn [match_args]. destruct (match_recursive fv r e mv); [apply IH | reflexivity].
Qed.

Lemma match_recursive_Call fv rh rargs expr mv :
  Expr_in (Call rh rargs) fv = false -> (expr == Call rh rargs) = false ->
  match_recursive fv (Call rh rargs) expr mv
  = match expr with
    | Call eh eargs =>
        if (eh != rh)
           || negb (List.length eargs =? List.length rargs)%nat
        then None
        else match_args fv rargs eargs mv
    | _ => None
    end.
Proof.
  intros H E. cbn [match_recursive]. rewrite H, E.
  destruct expr as [n | z | n | eh eargs]; try reflexivity.
  destruct ((eh != rh) || negb (List.length eargs =? List.length rargs)%nat);
    [reflexivity |].
  apply match_args_fix.
Qed.

Lemma match_recursive_atom fv rule expr mv :
  is_atom rule = true ->
  Expr_in rule fv = false -> (expr == rule) = false ->
  match_recursive fv rule expr mv = None.
Proof.
  intros Ha H E. destruct rule; try discriminate; simpl; rewrite H, E;
    reflexivity.
Qed.

Lemma extends_refl m : extends m m.
Proof. intros k v H. exact H. Qed.

Lemma extends_trans m1 m2 m3 : extends m1 m2 -> extends m2 m3 -> extends m1 m3.
Proof. intros H1 H2 k v H. apply H2, H1, H. Qed.

Lemma mentions_Call ks h l :
  mentions ks (Call h l) = false ->
  mentions ks h = false /\ Forall (fun a => mentions ks a = false) l.
Proof.
  unfold mentions. cbn [subexpressions existsb].
  rewrite orb_false_iff, existsb_app, orb_false_iff.
  intros [_ [Hh Hl]]. split; [exact Hh |].
  induction l as [| a r IH]; [constructor |].
  cbn [flat_map] in Hl. rewrite existsb_app, orb_false_iff in Hl.
  constructor; [tauto | apply IH; tauto].
Qed.

Lemma mentions_self ks e : mentions ks e = false -> Expr_in e ks = false.
Proof.
  intros H. apply (mentions_false ks e e H).
  destruct e; simpl; tauto.
Qed.

Lemma keys_in_none fv m k :
  keys_in fv m -> Expr_in k fv = false -> dict_get m k = None.
Proof.
  intros Hk Hf. destruct (dict_get m k) eqn:E; [| reflexivity].
  apply Hk in E. congruence.
Qed.

Lemma replace_clean fv m e :
  keys_in fv m -> mentions fv e = false -> replace m e = e.
Proof.
  intros Hk Hm. apply replace_untouched. intros s Hs.
  eapply keys_in_none; [exact Hk |].
  eapply mentions_false; eassumption.
Qed.

Lemma replace_key m k v : dict_get m k = Some v -> replace m k = v.
Proof. intros H. destruct k; cbn [replace]; now rewrite H. Qed.

Lemma match_args_sound fv rargs :
  Forall (fun rule =>
    forall expr mv mv',
      mentions fv expr = false -> keys_in fv mv ->
      match_recursive fv rule expr mv = Some mv' ->
      keys_in fv mv' /\ extends mv mv' /\
      forall mv'', keys_in fv mv'' -> extends mv' mv'' ->
                   replace mv'' rule = expr) rargs ->
  forall eargs mv mv',
    List.length eargs = List.length rargs ->
    Forall (fun a => mentions fv a = false) eargs -> keys_in fv mv ->
    match_args fv rargs eargs mv = Some mv' ->
    keys_in fv mv' /\ extends mv mv' /\
    forall mv'', keys_in fv mv'' -> extends mv' mv'' ->
                 map (replace mv'') rargs = eargs.
Proof.
  induction 1 as [| r rs Hr _ IH]; intros eargs mv mv' Hlen Hm Hk Hrun.
  - destruct eargs; [| discriminate]. cbn [match_args] in Hrun.
    injection Hrun as <-. split; [exact Hk | split; [apply extends_refl |]].
    reflexivity.
  - destruct eargs as [| e es]; [discriminate |].
    cbn [match_args] in Hrun.
    destruct (match_recursive fv r e mv) as [m1 |] eqn:E1; [| discriminate].
    inversion Hm as [| ? ? He Hes]; subst.
    destruct (Hr e mv m1 He Hk E1) as [Hk1 [Hx1 Hrep1]].
    injection Hlen as Hlen.
    destruct (IH es m1 mv' Hlen Hes Hk1 Hrun) as [Hk' [Hx' Hrep']].
    split; [exact Hk' | split; [eapply extends_trans; eassumption |]].
    intros mv'' Hk'' Hx''. cbn [map]. f_equal.
    + apply Hrep1; [exact Hk'' | eapply extends_trans; eassumption].
    + now apply Hrep'.
Qed.

Lemma match_sound_gen fv rule :
  forall expr mv mv',
    mentions fv expr = false -> keys_in fv mv ->
    match_recursive fv rule expr mv = Some mv' ->
    keys_in fv mv' /\ extends mv mv' /\
    forall mv'', keys_in fv mv'' -> extends mv' mv'' ->
                 replace mv'' rule = expr.
Proof.
  assert (Hvar : forall rule expr mv mv',
    Expr_in rule fv = true ->
    mentions fv expr = false -> keys_in fv mv ->
    match_recursive fv rule expr mv = Some mv' ->
    keys_in fv mv' /\ extends mv mv' /\
    forall mv'', keys_in fv mv'' -> extends mv' mv'' ->
                 replace mv'' rule = expr).
  { intros rule0 expr mv mv' Hin Hm Hk Hr.
    rewrite (match_recursive_var _ _ _ _ Hin) in Hr.
    destruct (dict_get mv rule0) as [v |] eqn:Eg.
    - unfold Expr_neb in Hr. destruct (expr == v) eqn:Ev; [| discriminate].
      cbn [negb] in Hr. injection Hr as <-.
      apply Expr_eqb_eq in Ev. subst v.
      split; [exact Hk | split; [apply extends_refl |]].
      intros mv'' _ Hx. apply replace_key. now apply Hx.
    - injection Hr as <-.
      split; [| split].
      + intros k v. rewrite dict_get_set.
        destruct (rule0 == k) eqn:Ek.
        * apply Expr_eqb_eq in Ek. subst k. intros _. exact Hin.
        * apply Hk.
      + intros k v Hg. rewrite dict_get_set.
        destruct (rule0 == k) eqn:Ek; [| exact Hg].
        apply Expr_eqb_eq in Ek. subst k. congruence.
      + intros mv'' _ Hx. apply replace_key. apply Hx.
        rewrite dict_get_set. now rewrite Expr_eqb_refl. }
  assert (Hsame : forall rule expr mv mv',
    Expr_in rule fv = false -> (expr == rule) = true ->
    mentions fv expr = false -> keys_in fv mv ->
    match_recursive fv rule expr mv = Some mv' ->
    keys_in fv mv' /\ extends mv mv' /\
    forall mv'', keys_in fv mv'' -> extends mv' mv'' ->
                 replace mv'' rule = expr).
  { intros rule0 expr mv mv' Hin He Hm Hk Hr.
    rewrite (match_recursive_same _ _ _ _ Hin He) in Hr. injection Hr as <-.
    apply Expr_eqb_eq in He. subst rule0.
    split; [exact Hk | split; [apply extends_refl |]].
    intros mv'' Hk'' _. now apply (replace_clean fv). }
  induction rule as [n | z | n | rh rargs IHh IHl] using Expr_ind';
    intros expr mv mv' Hm Hk Hr.
  1-3: match goal with
       | |- context [replace _ ?r] =>
           destruct (Expr_in r fv) eqn:Hin;
           [ now apply (Hvar r expr mv mv')
           | destruct (expr == r) eqn:He;
             [ now apply (Hsame r expr mv mv')
             | rewrite (match_recursive_atom fv r expr mv) in Hr
                 by (reflexivity || assumption); discriminate ] ]
       end.
  destruct (Expr_in (Call rh rargs) fv) eqn:Hin;
    [now apply (Hvar (Call rh rargs) expr mv mv') |].
  destruct (expr == Call rh rargs) eqn:He;
    [now apply (Hsame (Call rh rargs) expr mv mv') |].
  rewrite (match_recursive_Call _ _ _ _ _ Hin He) in Hr.
  destruct expr as [n | z | n | eh eargs]; try discriminate.
  destruct (eh != rh) eqn:Eh; [discriminate |].
  destruct (List.length eargs =? List.length rargs)%nat eqn:El;
    [| discriminate].
  cbn [orb negb] in Hr.
  apply Nat.eqb_eq in El.
  unfold Expr_neb in Eh. apply negb_false_iff in Eh.
  apply Expr_eqb_eq in Eh. subst eh.
  destruct (mentions_Call _ _ _ Hm) as [Hmh Hml].
  destruct (match_args_sound fv rargs IHl eargs mv mv' El Hml Hk Hr)
    as [Hk' [Hx' Hrep]].
  split; [exact Hk' | split; [exact Hx' |]].
  intros mv'' Hk'' Hx''.
  rewrite replace_Call by (now apply (keys_in_none fv)).
  rewrite (replace_clean fv mv'' rh Hk'' Hmh).
  f_equal. now apply Hrep.
Qed.

Lemma keys_dict_get {V} (m : list (Expr * V)) (k : Expr) :
  In k (keys m) -> exists v, dict_get m k = Some v.
Proof.
  induction m as [| [k' v'] r IH]; simpl; [tauto |].
  intros [-> | H].
  - rewrite Expr_eqb_refl. now exists v'.
  - destruct (k' == k); [now exists v' | now apply IH].
Qed.

(** A computation that leaves the store as it found it. *)
Definition silent {A} (m : St Store A) : Prop := forall s, snd (m s) = s.

Lemma silent_ret {A} (a : A) : silent (ret a).
Proof. intros s. reflexivity. Qed.

Lemma silent_raise {A} (e : exn) : silent (@raise Store A e).
Proof. intros s. reflexivity. Qed.

Lemma silent_lift {A} (o : outcome A) : silent (lift o).
Proof. intros s. reflexivity. Qed.

Lemma silent_bind {A B} (m : St Store A) (k : A -> St Store B) :
  silent m -> (forall a, silent (k a)) -> silent (bind m k).
Proof.
  intros Hm Hk s. unfold bind. specialize (Hm s).
  destruct (m s) as [[a | e | r] s1]; simpl in *; subst; [apply Hk | |];
    reflexivity.
Qed.

Ltac quiet :=
  repeat first
    [ progress intros
    | apply silent_ret | apply silent_raise | apply silent_lift
    | match goal with
      | |- silent (bind _ _) => apply silent_bind
      | |- silent (match ?x with _ => _ end) => destruct x
      | |- silent (if ?c then _ else _) => destruct c
      | |- silent (let _ := _ in _) => cbv zeta
      end ].

Lemma entry_rule_store P id : silent (entry_rule P id).
Proof. unfold entry_rule, first_arg, unpack2. quiet. Qed.

Lemma Brain_match_run P self expr rule fv asm s m s' :
  mentions fv expr = false ->
  Brain_match P self expr rule fv asm s = (Ret (Some m), s') ->
  replace m rule = expr /\ keys_in fv m /\
  self_simple P self (replace m asm) s = (Ret True_, s').
Proof.
  intros Hm Hrun. unfold Brain_match in Hrun.
  destruct (match_recursive fv rule expr []) as [mv |] eqn:E;
    [| discriminate].
  unfold bind in Hrun.
  destruct (self_simple P self (replace mv asm) s) as [[a | e | r] s1] eqn:Es;
    try discriminate.
  destruct (a == True_) eqn:Ea; [| discriminate].
  injection Hrun as <- <-. apply Expr_eqb_eq in Ea. subst a.
  destruct (match_sound_gen fv rule expr [] mv Hm) as [Hk [_ Hrep]];
    [intros k v; discriminate | exact E |].
  split; [| split; [exact Hk | exact Es]].
  apply Hrep; [exact Hk | apply extends_refl].
Qed.

(** X8.  [Brain.match] is sound on expressions that contain
    none of the pattern variables: when it returns a dictionary [m],
    the rule with [m] substituted is the expression, every key of [m]
    is one of the free variables, and the assumptions with [m]
    substituted were simplified to [True_]. *)
Theorem match_binds_an_instance (P : Platform) (self : Self P)
    (expr rule : Expr) (free_variables : list Expr) (assumptions : Expr)
    (s s' : Store) (m : list (Expr * Expr)) :
  mentions free_variables expr = false ->
  Brain_match P self expr rule free_variables assumptions s
  = (Ret (Some m), s') ->
  replace m rule = expr /\
  forallb (fun k => Expr_in k free_variables) (keys m) = true /\
  self_simple P self (replace m assumptions) s = (Ret True_, s').
Proof.
  intros Hm Hrun.
  destruct (Brain_match_run _ _ _ _ _ _ _ _ _ Hm Hrun) as [H1 [H2 H3]].
  split; [exact H1 | split; [| exact H3]].
  apply forallb_forall. intros k Hk.
  destruct (keys_dict_get m k Hk) as [v Hv]. exact (H2 k v Hv).
Qed.

Lemma match_binds_an_instance_witness :
  replace [(Symbol "y", Integer 2); (Symbol "x", Integer 1)]
    (app2 (Symbol "f") (Symbol "x") (Symbol "y"))
  = app2 (Symbol "f") (Integer 1) (Integer 2) /\
  forallb (fun k => Expr_in k [Symbol "x"; Symbol "y"])
    (keys [(Symbol "y", Integer 2); (Symbol "x", Integer 1)]) = true /\
  self_simple bare_platform (methods bare_platform (plain_brain [] []) 2)
    (replace [(Symbol "y", Integer 2); (Symbol "x", Integer 1)] True_)
    (fresh_store default_limits)
  = (Ret True_, fresh_store default_limits).
Proof.
  apply (match_binds_an_instance bare_platform
           (methods bare_platform (plain_brain [] []) 2)
           (app2 (Symbol "f") (Integer 1) (Integer 2))
           (app2 (Symbol "f") (Symbol "x") (Symbol "y"))
           [Symbol "x"; Symbol "y"] True_
           (fresh_store default_limits) (fresh_store default_limits)
           [(Symbol "y", Integer 2); (Symbol "x", Integer 1)]).
  - reflexivity.
  - reflexivity.
Defined.

(** X9.  [Brain.rewrite_fungrim] with [recursive=False]
    rewrites an instance of the left-hand side into the same instance
    of the right-hand side: for an entry with variables [vars],
    equation [Equal(lhs, rhs)] and assumptions [asm], and an expression
    containing none of [vars], either [Brain.match] found no match and
    the expression is returned as it is, or [Brain.match] returned a
    dictionary [m] and the result is [rhs] with [m] substituted, where
    [lhs] with [m] substituted is the expression, every key of [m] is
    one of [vars], and [asm] with [m] substituted was simplified to
    [True_]. *)
Theorem rewrite_replaces_an_instance (P : Platform) (self : Self P)
    (expr : Expr) (id : option string) (s s' : Store) (r : Expr)
    (vars : list Expr) (lhs rhs asm : Expr) :
  fst (entry_rule P id s) = Ret (vars, lhs, rhs, asm) ->
  mentions vars expr = false ->
  rewrite_fungrim P self expr id false s = (Ret r, s') ->
  (Brain_match P self expr lhs vars asm s = (Ret None, s') /\ r = expr) \/
  (exists m,
     Brain_match P self expr lhs vars asm s = (Ret (Some m), s') /\
     replace m lhs = expr /\
     forallb (fun k => Expr_in k vars) (keys m) = true /\
     self_simple P self (replace m asm) s = (Ret True_, s') /\
     r = replace m rhs).
Proof.
  intros He Hm Hrun. unfold rewrite_fungrim in Hrun.
  pose proof (entry_rule_store P id s) as Hs.
  unfold bind at 1 in Hrun.
  destruct (entry_rule P id s) as [o s1]. simpl in He, Hs. subst o s1.
  unfold bind in Hrun.
  destruct (Brain_match P self expr lhs vars asm s) as [[[m |] | e | st] s1]
    eqn:Em; try discriminate.
  - injection Hrun as <- <-. right. exists m.
    destruct (Brain_match_run _ _ _ _ _ _ _ _ _ Hm Em) as [H1 [H2 H3]].
    repeat split; try assumption.
    apply forallb_forall. intros k Hk.
    destruct (keys_dict_get m k Hk) as [v Hv]. exact (H2 k v Hv).
  - injection Hrun as <- <-. now left.
Qed.

Lemma rewrite_replaces_an_instance_witness :
  let self := methods rules_platform (plain_brain [] []) 2 in
  let expr := app1 (Symbol "f") (Integer 3) in
  let lhs := app1 (Symbol "f") (Symbol "x") in
  let rhs := app2 (Symbol "g") (Symbol "x") (Symbol "x") in
  let s := fresh_store default_limits in
  let r := app2 (Symbol "g") (Integer 3) (Integer 3) in
  (Brain_match rules_platform self expr lhs [Symbol "x"] True_ s
   = (Ret None, s) /\ r = expr) \/
  (exists m,
     Brain_match rules_platform self expr lhs [Symbol "x"] True_ s
     = (Ret (Some m), s) /\
     replace m lhs = expr /\
     forallb (fun k => Expr_in k [Symbol "x"]) (keys m) = true /\
     self_simple rules_platform self (replace m True_) s = (Ret True_, s) /\
     r = replace m rhs).
Proof.
  intros self expr lhs rhs s r.
  apply (rewrite_replaces_an_instance rules_platform self expr
           (Some "twice") s s r [Symbol "x"] lhs rhs True_).
  - reflexivity.
  - reflexivity.
  - reflexivity.
Defined.

(* ================================================================== *)
(** * brain.py: the simplification cache *)

(** A computation under which the cache only grows: every entry found
    in the cache before it is found there, with the same value, after
    it, whatever the outcome. *)
Definition grows {A} (m : St Store A) : Prop :=
  forall s k w,
    dict_get (simple_cache s) k = Some w ->
    dict_get (simple_cache (snd (m s))) k = Some w.

Section Grows.

Context {A B : Type}.

Lemma grows_ret (a : A) : grows (ret a).
Proof. intros s k w H. exact H. Qed.

Lemma grows_raise (e : exn) : grows (@raise Store A e).
Proof. intros s k w H. exact H. Qed.

Lemma grows_halt (r : stop) : grows (@halt Store A r).
Proof. intros s k w H. exact H. Qed.

Lemma grows_lift (o : outcome A) : grows (lift o).
Proof. intros s k w H. exact H. Qed.

Lemma grows_of_result (r : result A) : grows (of_result r).
Proof. destruct r; intros s k w H; exact H. Qed.

Lemma grows_bind (m : St Store A) (k : A -> St Store B) :
  grows m -> (forall a, grows (k a)) -> grows (bind m k).
Proof.
  intros Hm Hk s k0 w H. unfold bind.
  specialize (Hm s k0 w H). destruct (m s) as [[a | e | r] s']; simpl in *.
  - now apply Hk.
  - exact Hm.
  - exact Hm.
Qed.

Lemma grows_try_except (m h : St Store A) (caught : exn -> bool) :
  grows m -> grows h -> grows (try_except m caught h).
Proof.
  intros Hm Hh s k w H. unfold try_except.
  specialize (Hm s k w H). destruct (m s) as [[a | e | r] s']; simpl in *;
    try exact Hm.
  destruct (caught e); simpl; [now apply Hh | exact Hm].
Qed.

Lemma grows_try_finally (m : St Store A) (f : St Store unit) :
  grows m -> grows f -> grows (try_finally m f).
Proof.
  intros Hm Hf s k w H. unfold try_finally.
  specialize (Hm s k w H). destruct (m s) as [o s']. simpl in Hm.
  specialize (Hf s' k w Hm). destruct (f s') as [[u | e | r] s'']; exact Hf.
Qed.

End Grows.

Lemma grows_get_limits : grows get_limits.
Proof. intros s k w H. exact H. Qed.

Lemma grows_cache_get (e : Expr) : grows (cache_get e).
Proof. intros s k w H. exact H. Qed.

Lemma grows_alg_set_degree_limit (d : Z) : grows (alg_set_degree_limit d).
Proof. intros s k w H. exact H. Qed.

Lemma grows_alg_set_bits_limit (b : Z) : grows (alg_set_bits_limit b).
Proof. intros s k w H. exact H. Qed.

Lemma grows_mapM {A B} (f : A -> St Store B) (l : list A) :
  (forall a, grows (f a)) -> grows (mapM f l).
Proof.
  intros Hf. induction l as [| x r IH]; simpl.
  - apply grows_ret.
  - apply grows_bind; [apply Hf | intros y].
    apply grows_bind; [exact IH | intros ys]. apply grows_ret.
Qed.

Lemma grows_allM {A} (f : A -> St Store bool) (l : list A) :
  (forall a, grows (f a)) -> grows (allM f l).
Proof.
  intros Hf. induction l as [| x r IH]; simpl.
  - apply grows_ret.
  - apply grows_bind; [apply Hf | intros [|]]; [exact IH | apply grows_ret].
Qed.

Lemma grows_anyM {A} (f : A -> St Store bool) (l : list A) :
  (forall a, grows (f a)) -> grows (anyM f l).
Proof.
  intros Hf. induction l as [| x r IH]; simpl.
  - apply grows_ret.
  - apply grows_bind; [apply Hf | intros [|]]; [apply grows_ret | exact IH].
Qed.

Lemma grows_andM (a b : St Store bool) : grows a -> grows b -> grows (a &&& b).
Proof.
  intros Ha Hb. apply grows_bind; [exact Ha | intros [|]];
    [exact Hb | apply grows_ret].
Qed.

Lemma grows_orM (a b : St Store bool) : grows a -> grows b -> grows (a ||| b).
Proof.
  intros Ha Hb. apply grows_bind; [exact Ha | intros [|]];
    [apply grows_ret | exact Hb].
Qed.

Lemma grows_holds (m : St Store tern) : grows m -> grows (holds m).
Proof. intros H. apply grows_bind; [exact H | intros t; apply grows_ret]. Qed.

Lemma grows_refuted (m : St Store tern) : grows m -> grows (refuted m).
Proof. intros H. apply grows_bind; [exact H | intros t; apply grows_ret]. Qed.

Lemma grows_fall {A} : grows (@fall Store A).
Proof. apply grows_ret. Qed.

Lemma grows_return_ {A} (v : A) : grows (@return_ Store A v).
Proof. apply grows_ret. Qed.

Lemma grows_returnM {A} (m : St Store A) : grows m -> grows (returnM m).
Proof. intros H. apply grows_bind; [exact H | intros v; apply grows_ret]. Qed.

Lemma grows_seqb {A} (b1 b2 : block Store A) :
  grows b1 -> grows b2 -> grows (b1 ;; b2).
Proof.
  intros H1 H2. apply grows_bind; [exact H1 | intros [v |]];
    [apply grows_ret | exact H2].
Qed.

Lemma grows_If {A} (c : bool) (b : block Store A) : grows b -> grows (If c b).
Proof. intros H. destruct c; [exact H | apply grows_fall]. Qed.

Lemma grows_IfM {A} (c : St Store bool) (b : block Store A) :
  grows c -> grows b -> grows (IfM c b).
Proof.
  intros Hc Hb. apply grows_bind; [exact Hc | intros [|]];
    [exact Hb | apply grows_fall].
Qed.

Lemma grows_body {A} (b : block Store A) (d : A) : grows b -> grows (body b d).
Proof.
  intros H. apply grows_bind; [exact H | intros [v |]]; apply grows_ret.
Qed.

Lemma grows_unpack1 (l : list Expr) : grows (unpack1 l).
Proof.
  destruct l as [| x [| y r]]; first [apply grows_ret | apply grows_raise].
Qed.

Lemma grows_unpack2 (l : list Expr) : grows (unpack2 l).
Proof.
  destruct l as [| x [| y [| z r]]]; first [apply grows_ret | apply grows_raise].
Qed.

Lemma grows_unpack3 (l : list Expr) : grows (unpack3 l).
Proof.
  destruct l as [| x [| y [| z [| w r]]]];
    first [apply grows_ret | apply grows_raise].
Qed.

Lemma grows_call1 (f : Expr -> St Store Expr) (l : list Expr) :
  (forall x, grows (f x)) -> grows (call1 f l).
Proof.
  intros H. destruct l as [| x [| y r]]; first [apply H | apply grows_raise].
Qed.

Lemma grows_call2 (f : Expr -> Expr -> St Store Expr) (l : list Expr) :
  (forall x y, grows (f x y)) -> grows (call2 f l).
Proof.
  intros H. destruct l as [| x [| y [| z r]]];
    first [apply H | apply grows_raise].
Qed.

(** The memoized call: the entry written is a new one. *)
Lemma memo_grows (e : Expr) (m : St Store Expr) (s : Store) (k : Expr)
    (w : option Expr) :
  grows m ->
  dict_get (simple_cache s) e = None ->
  dict_get (simple_cache s) k = Some w ->
  dict_get (simple_cache (snd (memo e m s))) k = Some w.
Proof.
  intros Hm He Hk.
  assert (Hne : (e == k) = false).
  { destruct (e == k) eqn:E; [| reflexivity].
    apply Expr_eqb_eq in E. subst k. congruence. }
  unfold memo, bind, cache_set, ret. cbn [fst snd].
  set (s1 := {| limits := limits s;
                simple_cache := dict_set (simple_cache s) e None |}).
  assert (H1 : dict_get (simple_cache s1) k = Some w).
  { subst s1. cbn [simple_cache]. rewrite dict_get_set, Hne. exact Hk. }
  specialize (Hm s1 k w H1).
  destruct (m s1) as [[x | ex | r] s2]; cbn [snd] in *; try exact Hm.
  cbn [simple_cache]. rewrite dict_get_set, Hne. exact Hm.
Qed.

(** What the cache holds for the term after the memoized call. *)
Lemma memo_entry (e : Expr) (m : St Store Expr) (s : Store) :
  grows m ->
  match memo e m s with
  | (Ret v, s') => dict_get (simple_cache s') e = Some (Some v)
  | (Raise _, s') => dict_get (simple_cache s') e = Some None
  | (Stop _, s') => dict_get (simple_cache s') e = Some None
  end.
Proof.
  intros Hm. unfold memo, bind, cache_set, ret.
  set (s1 := {| limits := limits s;
                simple_cache := dict_set (simple_cache s) e None |}).
  assert (H1 : dict_get (simple_cache s1) e = Some None).
  { subst s1. cbn [simple_cache]. now rewrite dict_get_set, Expr_eqb_refl. }
  specialize (Hm s1 e None H1).
  destruct (m s1) as [[x | ex | r] s2]; cbn [snd] in *; try exact Hm.
  cbn [simple_cache]. now rewrite dict_get_set, Expr_eqb_refl.
Qed.

Create HintDb grows_db.
#[local] Hint Resolve grows_ret grows_raise grows_halt grows_lift
  grows_of_result grows_get_limits grows_cache_get
  grows_alg_set_degree_limit grows_alg_set_bits_limit
  grows_fall grows_return_ grows_unpack1 grows_unpack2 grows_unpack3
  : grows_db.

Section GrowsMethods.

Context (P : Platform) (B : Brain).

(** Every method reached through [self] is grown. *)
Record grows_self (self : Self P) : Prop := {
  gr_simple : forall e, grows (self_simple P self e);
  gr_is_zero : forall e, grows (self_is_zero P self e);
  gr_is_infinity : forall e, grows (self_is_infinity P self e);
  gr_is_nonnegative : forall e, grows (self_is_nonnegative P self e);
  gr_is_positive : forall e, grows (self_is_positive P self e);
  gr_is_integer : forall e, grows (self_is_integer P self e);
  gr_is_rational : forall e, grows (self_is_rational P self e);
  gr_is_algebraic : forall e, grows (self_is_algebraic P self e);
  gr_is_real : forall e, grows (self_is_real P self e);
  gr_is_complex : forall e, grows (self_is_complex P self e);
  gr_equal : forall a b, grows (self_equal P self a b);
  gr_element : forall a b, grows (self_element P self a b);
  gr_evaluate_alg : forall e, grows (self_evaluate_alg P self e);
  gr_simple_Sqrt : forall e, grows (self_simple_Sqrt P self e)
}.

Ltac grown :=
  repeat first
    [ progress intros
    | solve [eauto with grows_db]
    | match goal with
      | |- grows (_ ;; _) => apply grows_seqb
      | |- grows (If _ _) => apply grows_If
      | |- grows (IfM _ _) => apply grows_IfM
      | |- grows (body _ _) => apply grows_body
      | |- grows (holds _) => apply grows_holds
      | |- grows (refuted _) => apply grows_refuted
      | |- grows (returnM _) => apply grows_returnM
      | |- grows (_ &&& _) => apply grows_andM
      | |- grows (_ ||| _) => apply grows_orM
      | |- grows (allM _ _) => apply grows_allM
      | |- grows (anyM _ _) => apply grows_anyM
      | |- grows (mapM _ _) => apply grows_mapM
      | |- grows (try_except _ _ _) => apply grows_try_except
      | |- grows (call1 _ _) => apply grows_call1
      | |- grows (call2 _ _) => apply grows_call2
      | |- grows (try_finally _ _) => apply grows_try_finally
      | |- grows (bind _ _) => apply grows_bind
      | |- grows (match ?x with _ => _ end) => destruct x
      | |- grows (if ?c then _ else _) => destruct c
      | |- grows (let _ := _ in _) => cbv zeta
      end ].

Lemma grows_real_enclosure (x : Expr) : grows (real_enclosure P x).
Proof. unfold real_enclosure. grown. Qed.

Lemma grows_complex_enclosure (x : Expr) : grows (complex_enclosure P x).
Proof. unfold complex_enclosure. grown. Qed.

#[local] Hint Resolve grows_real_enclosure grows_complex_enclosure : grows_db.

Lemma grows_sign_from_enclosure yes no (x : Expr) :
  grows (sign_from_enclosure P yes no x).
Proof. unfold sign_from_enclosure. grown. Qed.

#[local] Hint Resolve grows_sign_from_enclosure : grows_db.

Lemma grows_is_negative (x : Expr) : grows (is_negative P B x).
Proof. unfold is_negative. grown. Qed.

Lemma grows_is_nonpositive (x : Expr) : grows (is_nonpositive P B x).
Proof. unfold is_nonpositive. grown. Qed.

#[local] Hint Resolve grows_is_negative grows_is_nonpositive : grows_db.

Section WithSelf.

Variable self : Self P.
Hypothesis Hself : grows_self self.

Let H1 := gr_simple self Hself.
Let H2 := gr_is_zero self Hself.
Let H3 := gr_is_infinity self Hself.
Let H4 := gr_is_nonnegative self Hself.
Let H5 := gr_is_positive self Hself.
Let H6 := gr_is_integer self Hself.
Let H7 := gr_is_rational self Hself.
Let H8 := gr_is_algebraic self Hself.
Let H9 := gr_is_real self Hself.
Let H10 := gr_is_complex self Hself.
Let H11 := gr_equal self Hself.
Let H12 := gr_element self Hself.
Let H13 := gr_evaluate_alg self Hself.
Let H14 := gr_simple_Sqrt self Hself.

#[local] Hint Resolve H1 H2 H3 H4 H5 H6 H7 H8 H9 H10 H11 H12 H13 H14 : grows_db.

Lemma grows_is_not_zero (x : Expr) : grows (is_not_zero P self x).
Proof. unfold is_not_zero. grown. Qed.

#[local] Hint Resolve grows_is_not_zero : grows_db.

Lemma grows_is_zero (x : Expr) : grows (is_zero P B self x).
Proof. unfold is_zero. grown. Qed.

Lemma grows_is_infinity (x : Expr) : grows (is_infinity P B self x).
Proof. unfold is_infinity. grown. Qed.

Lemma grows_is_nonnegative (x : Expr) : grows (is_nonnegative P B self x).
Proof. unfold is_nonnegative. grown. Qed.

Lemma grows_is_positive (x : Expr) : grows (is_positive P B self x).
Proof. unfold is_positive. grown. Qed.

Lemma grows_infinite_or_undefined (x : Expr) :
  grows (infinite_or_undefined P self x).
Proof. unfold infinite_or_undefined. grown. Qed.

#[local] Hint Resolve grows_infinite_or_undefined : grows_db.

Lemma grows_Brain_is_integer (x : Expr) : grows (Brain_is_integer P B self x).
Proof. unfold Brain_is_integer. grown. Qed.

Lemma grows_is_rational (x : Expr) : grows (is_rational P B self x).
Proof. unfold is_rational. grown. Qed.

Lemma grows_is_algebraic (x : Expr) : grows (is_algebraic P B self x).
Proof. unfold is_algebraic. grown. Qed.

Lemma grows_is_real (x : Expr) : grows (is_real P B self x).
Proof. unfold is_real. grown. Qed.

Lemma grows_is_complex (x : Expr) : grows (is_complex P B self x).
Proof. unfold is_complex. grown. Qed.

Lemma grows_alg_un op v : grows (alg_un P op v).
Proof. unfold alg_un. grown. Qed.

Lemma grows_alg_bin op u v : grows (alg_bin P op u v).
Proof. unfold alg_bin. grown. Qed.

#[local] Hint Resolve grows_alg_un grows_alg_bin : grows_db.

Lemma grows_alg_fold op s l : grows (alg_fold P self op s l).
Proof. revert s. induction l as [| x r IH]; intros s; simpl; grown. Qed.

#[local] Hint Resolve grows_alg_fold : grows_db.

Lemma grows_evaluate_alg (e : Expr) : grows (evaluate_alg P self e).
Proof. unfold evaluate_alg. grown. Qed.

Lemma grows_evaluate_alg_or_None (e : Expr) :
  grows (evaluate_alg_or_None P self e).
Proof. unfold evaluate_alg_or_None. grown. Qed.

#[local] Hint Resolve grows_evaluate_alg_or_None : grows_db.

Lemma grows_equal (a b : Expr) : grows (equal P B self a b).
Proof. unfold equal. grown. Qed.

Lemma grows_less (a b : Expr) : grows (less P self a b).
Proof. unfold less. grown. Qed.

Lemma grows_less_equal (a b : Expr) : grows (less_equal P self a b).
Proof. unfold less_equal. grown. Qed.

Lemma grows_greater (a b : Expr) : grows (greater P self a b).
Proof. unfold greater. grown. Qed.

Lemma grows_greater_equal (a b : Expr) : grows (greater_equal P self a b).
Proof. unfold greater_equal. grown. Qed.

Lemma grows_is_extended_real (x : Expr) : grows (is_extended_real P self x).
Proof. unfold is_extended_real. grown. Qed.

#[local] Hint Resolve grows_less grows_less_equal grows_greater
  grows_greater_equal grows_is_extended_real : grows_db.

Lemma grows_unless_return (v : tern) : grows (unless_return v).
Proof. unfold unless_return. grown. Qed.

#[local] Hint Resolve grows_unless_return : grows_db.

Lemma grows_element (x dom : Expr) : grows (element P B self x dom).
Proof. unfold element. grown. Qed.

Lemma grows_simple_args (l : list Expr) : grows (simple_args P self l).
Proof. unfold simple_args. grown. Qed.

#[local] Hint Resolve grows_simple_args : grows_db.

Lemma grows_all_equal_first (l : list Expr) : grows (all_equal_first P self l).
Proof. unfold all_equal_first. grown. Qed.

Lemma grows_any_pair_unequal (l : list Expr) :
  grows (any_pair_unequal P self l).
Proof. unfold any_pair_unequal. grown. Qed.

Lemma grows_both_real (a b : Expr) : grows (both_real P self a b).
Proof. unfold both_real. grown. Qed.

Lemma grows_both_extended_real (a b : Expr) :
  grows (both_extended_real P self a b).
Proof. unfold both_extended_real. grown. Qed.

#[local] Hint Resolve grows_all_equal_first grows_any_pair_unequal
  grows_both_real grows_both_extended_real : grows_db.

Lemma grows_simple_Not (x : Expr) : grows (simple_Not P self x).
Proof. unfold simple_Not. grown. Qed.

Lemma grows_simple_And (l : list Expr) : grows (simple_And P self l).
Proof. unfold simple_And. grown. Qed.

Lemma grows_simple_Or (l : list Expr) : grows (simple_Or P self l).
Proof. unfold simple_Or. grown. Qed.

Lemma grows_simple_Implies (l : list Expr) : grows (simple_Implies P self l).
Proof. unfold simple_Implies. grown. Qed.

Lemma grows_simple_Equal (l : list Expr) : grows (simple_Equal P self l).
Proof. unfold simple_Equal. grown. Qed.

Lemma grows_simple_NotEqual (l : list Expr) : grows (simple_NotEqual P self l).
Proof. unfold simple_NotEqual. grown. Qed.

Lemma grows_simple_Element (l : list Expr) : grows (simple_Element P self l).
Proof. unfold simple_Element. grown. Qed.

Lemma grows_simple_NotElement (l : list Expr) :
  grows (simple_NotElement P self l).
Proof. unfold simple_NotElement. grown. Qed.

Lemma grows_simple_LessEqual (l : list Expr) :
  grows (simple_LessEqual P self l).
Proof. unfold simple_LessEqual. grown. Qed.

Lemma grows_simple_Less (l : list Expr) : grows (simple_Less P self l).
Proof. unfold simple_Less. grown. Qed.

Lemma grows_simple_GreaterEqual (l : list Expr) :
  grows (simple_GreaterEqual P self l).
Proof. unfold simple_GreaterEqual. grown. Qed.

Lemma grows_simple_Greater (l : list Expr) : grows (simple_Greater P self l).
Proof. unfold simple_Greater. grown. Qed.

Lemma grows_simple_Pos (x : Expr) : grows (simple_Pos P self x).
Proof. unfold simple_Pos. grown. Qed.

Lemma grows_simple_Parentheses (x : Expr) : grows (simple_Parentheses P self x).
Proof. unfold simple_Parentheses. grown. Qed.

Lemma grows_simple_Brackets (x : Expr) : grows (simple_Brackets P self x).
Proof. unfold simple_Brackets. grown. Qed.

Lemma grows_simple_Braces (x : Expr) : grows (simple_Braces P self x).
Proof. unfold simple_Braces. grown. Qed.

Lemma grows_simple_Neg (x : Expr) : grows (simple_Neg P self x).
Proof. unfold simple_Neg. grown. Qed.

Lemma grows_simple_Add (l : list Expr) : grows (simple_Add P self l).
Proof. unfold simple_Add. grown. Qed.

#[local] Hint Resolve grows_simple_Add : grows_db.

Lemma grows_simple_Sub (x y : Expr) : grows (simple_Sub P self x y).
Proof. unfold simple_Sub. grown. Qed.

Lemma grows_simple_Sqrt (x : Expr) : grows (simple_Sqrt P B self x).
Proof. unfold simple_Sqrt. grown. Qed.

Lemma grows_sum_terms expr cond var l : grows (sum_terms P self expr cond var l).
Proof. induction l as [| i r IH]; simpl; unfold simple_instance; grown. Qed.

#[local] Hint Resolve grows_sum_terms : grows_db.

Lemma grows_simple_Sum (l : list Expr) : grows (simple_Sum P self l).
Proof. unfold simple_Sum. grown. Qed.

Lemma grows_Brain_match expr rule fv asm :
  grows (Brain_match P self expr rule fv asm).
Proof. unfold Brain_match. grown. Qed.

Lemma grows_first_arg (x : Expr) : grows (first_arg x).
Proof. unfold first_arg. grown. Qed.

#[local] Hint Resolve grows_Brain_match grows_first_arg : grows_db.

Lemma grows_entry_rule id : grows (entry_rule P id).
Proof. unfold entry_rule. grown. Qed.

#[local] Hint Resolve grows_entry_rule : grows_db.

Lemma grows_match_local vars lhs rhs asm (e : Expr) :
  grows (match_local P self vars lhs rhs asm e).
Proof.
  induction e as [s | z | s | h l IHh IHl] using Expr_ind'; simpl;
    try (grown; fail).
  apply grows_bind; [grown | intros [m |]; [grown |]].
  apply grows_bind; [| grown].
  induction IHl as [| x r Hx _ IHr]; grown.
Qed.

#[local] Hint Resolve grows_match_local : grows_db.

Lemma grows_rewrite_fungrim e id rec : grows (rewrite_fungrim P self e id rec).
Proof. unfold rewrite_fungrim. grown. Qed.

#[local] Hint Resolve grows_rewrite_fungrim : grows_db.

Lemma grows_fungrim_simplify (e : Expr) : grows (fungrim_simplify P B self e).
Proof. unfold fungrim_simplify. grown. Qed.

#[local] Hint Resolve grows_fungrim_simplify : grows_db.

Lemma grows_simple_attr (s : string) (f : list Expr -> St Store Expr) :
  simple_attr P B self s = Method f -> forall l, grows (f l).
Proof.
  unfold simple_attr.
  repeat match goal with
         | |- (if ?c then _ else _) = _ -> _ => destruct c
         end;
    intros E l; inversion E; subst; clear E;
    first [ apply grows_halt
          | apply grows_call1; intros
          | apply grows_call2; intros
          | idtac ];
    first [ apply grows_simple_Not | apply grows_simple_And
          | apply grows_simple_Or | apply grows_simple_Implies
          | apply grows_simple_Equal | apply grows_simple_NotEqual
          | apply grows_simple_Element | apply grows_simple_NotElement
          | apply grows_simple_LessEqual | apply grows_simple_Less
          | apply grows_simple_GreaterEqual | apply grows_simple_Greater
          | apply grows_simple_Pos | apply grows_simple_Parentheses
          | apply grows_simple_Brackets | apply grows_simple_Braces
          | apply grows_simple_Neg | apply grows_simple_Add
          | apply grows_simple_Sub | apply grows_simple_Sqrt
          | apply grows_simple_Sum | idtac ].
Qed.

(** Outside the three early exits, [simple] is a memoized call of a
    computation under which the cache only grows. *)
Lemma simple_memo (e : Expr) :
  known B e = false -> is_atom e = false ->
  exists m, grows m /\
    forall s, dict_get (simple_cache s) e = None ->
              simple P B self e s = memo e m s.
Proof.
  intros Hk Ha. unfold simple. destruct (is_fungrim B).
  - exists (do e1 <- (if match expr_db B with [] => false | _ => true end
                      then fungrim_simplify P B self e else ret e);
            match e1 with
            | Call (Symbol s) l =>
                match simple_attr P B self s with
                | Method f =>
                    do expr2 <- f l;
                    if match expr_db B with [] => false | _ => true end
                       && (expr2 != e1)
                    then fungrim_simplify P B self expr2
                    else ret expr2
                | NotCallable => raise TypeError
                | Absent => ret e1
                end
            | _ => ret e1
            end).
    split.
    + apply grows_bind; [grown | intros e1].
      destruct e1 as [s | z | s | [s | z | s | h' l'] l]; try (grown; fail).
      destruct (simple_attr P B self s) eqn:E; [| grown | grown].
      apply grows_bind; [eapply grows_simple_attr; eassumption | grown].
    + intros s Hc. unfold FungrimBrain_simple, memo.
      rewrite Hk, Ha. unfold bind at 1. unfold cache_get at 1.
      cbv beta iota. rewrite Hc. cbv zeta.
      unfold bind, cache_set, ret.
      repeat match goal with
             | |- context [match ?x ?y with _ => _ end] =>
                 destruct (x y) as [[? | ? | ?] ?]; try reflexivity
             | |- context [match ?x with _ => _ end] =>
                 destruct x; try reflexivity
             end.
  - exists (match e with
            | Call (Symbol s as head) l =>
                match simple_attr P B self s with
                | Method f => f l
                | NotCallable => raise TypeError
                | Absent => do l' <- simple_args P self l; ret (app head l')
                end
            | _ => ret e
            end).
    split.
    + destruct e as [s | z | s | [s | z | s | h' l'] l]; try (grown; fail).
      destruct (simple_attr P B self s) eqn:E; [| grown | grown].
      eapply grows_simple_attr; eassumption.
    + intros s Hc. unfold Brain_simple, memo.
      rewrite Hk, Ha. unfold bind at 1. unfold cache_get at 1.
      cbv beta iota. rewrite Hc. reflexivity.
Qed.

Lemma grows_simple (e : Expr) : grows (simple P B self e).
Proof.
  intros s k w Hkw.
  destruct (known B e) eqn:Hk.
  { rewrite simple_known by exact Hk. exact Hkw. }
  destruct (is_atom e) eqn:Ha.
  { rewrite simple_atom by assumption. exact Hkw. }
  destruct (dict_get (simple_cache s) e) as [c |] eqn:Hc.
  - replace (simple P B self e s)
      with (Ret (match c with Some v => v | None => e end), s);
      [exact Hkw |].
    unfold simple, FungrimBrain_simple, Brain_simple.
    rewrite Hk, Ha.
    destruct (is_fungrim B); unfold bind at 1; unfold cache_get at 1;
      cbv beta iota; rewrite Hc; destruct c; reflexivity.
  - destruct (simple_memo e Hk Ha) as [m [Hm Heq]].
    rewrite Heq by exact Hc. now apply memo_grows.
Qed.

End WithSelf.

Lemma grows_methods (fuel : nat) : grows_self (methods P B fuel).
Proof.
  induction fuel as [| n IH].
  - constructor; intros; apply grows_halt.
  - constructor; intros; cbn [methods self_simple self_is_zero
      self_is_infinity self_is_nonnegative self_is_positive self_is_integer
      self_is_rational self_is_algebraic self_is_real self_is_complex
      self_equal self_element self_evaluate_alg self_simple_Sqrt].
    + now apply grows_simple.
    + now apply grows_is_zero.
    + now apply grows_is_infinity.
    + now apply grows_is_nonnegative.
    + now apply grows_is_positive.
    + now apply grows_Brain_is_integer.
    + now apply grows_is_rational.
    + now apply grows_is_algebraic.
    + now apply grows_is_real.
    + now apply grows_is_complex.
    + now apply grows_equal.
    + now apply grows_element.
    + now apply grows_evaluate_alg.
    + now apply grows_simple_Sqrt.
Qed.

End GrowsMethods.

Lemma simple_hit P B self e s c :
  known B e = false -> is_atom e = false ->
  dict_get (simple_cache s) e = Some c ->
  simple P B self e s
  = (Ret (match c with Some v => v | None => e end), s).
Proof.
  intros Hk Ha Hc. unfold simple, FungrimBrain_simple, Brain_simple.
  rewrite Hk, Ha.
  destruct (is_fungrim B); unfold bind at 1; unfold cache_get at 1;
    cbv beta iota; rewrite Hc; destruct c; reflexivity.
Qed.

(** What a call of [simple] leaves in the cache for its term, when the
    term is neither a fact nor an atom. *)
Lemma simple_entry P B fuel e s :
  known B e = false -> is_atom e = false ->
  match run_simple P B fuel e s with
  | (Ret v, s') =>
      exists c, dict_get (simple_cache s') e = Some c /\
                v = match c with Some v => v | None => e end
  | (Raise _, s') => dict_get (simple_cache s') e = Some None
  | (Stop _, s') => True
  end.
Proof.
  intros Hk Ha. unfold run_simple.
  destruct (dict_get (simple_cache s) e) as [c |] eqn:Hc.
  - rewrite (simple_hit _ _ _ _ _ _ Hk Ha Hc). now exists c.
  - destruct (simple_memo P B (methods P B fuel) (grows_methods P B fuel)
                e Hk Ha) as [m [Hm Heq]].
    rewrite Heq by exact Hc.
    pose proof (memo_entry e m s Hm) as H.
    destruct (memo e m s) as [[v | x | r] s']; [| exact H | exact I].
    now exists (Some v).
Qed.

(** X10.  No call of [simple], [equal] or [element]
    changes or removes an entry that is in the simplification cache
    when the call starts, whether the entry is a finished result or a
    mark of a simplification in progress, and whatever the outcome of
    the call. *)
Theorem cache_entries_are_kept (P : Platform) (B : Brain) (fuel : nat)
    (e a b : Expr) (s : Store) (k : Expr) (w : option Expr) :
  dict_get (simple_cache s) k = Some w ->
  dict_get (simple_cache (snd (run_simple P B fuel e s))) k = Some w /\
  dict_get (simple_cache (snd (run_equal P B fuel a b s))) k = Some w /\
  dict_get (simple_cache (snd (run_element P B fuel a b s))) k = Some w.
Proof.
  intros H. pose proof (grows_methods P B fuel) as Hs.
  split; [| split].
  - now apply (grows_simple P B _ Hs).
  - now apply (grows_equal P B _ Hs).
  - now apply (grows_element P B _ Hs).
Qed.

Lemma cache_entries_are_kept_witness :
  let s := {| limits := default_limits;
              simple_cache := [(app1 (Symbol "f") (Symbol "x"),
                                Some (Symbol "y"))] |} in
  let k := app1 (Symbol "f") (Symbol "x") in
  dict_get (simple_cache
              (snd (run_simple bare_platform (plain_brain [] []) 3
                      (app1 (Symbol "g") (app1 (Symbol "f") (Symbol "x"))) s)))
    k = Some (Some (Symbol "y")) /\
  dict_get (simple_cache
              (snd (run_equal bare_platform (plain_brain [] []) 3
                      (Symbol "x") (Integer 1) s)))
    k = Some (Some (Symbol "y")) /\
  dict_get (simple_cache
              (snd (run_element bare_platform (plain_brain [] []) 3
                      (Symbol "x") (Integer 1) s)))
    k = Some (Some (Symbol "y")).
Proof.
  apply (cache_entries_are_kept bare_platform (plain_brain [] []) 3
           (app1 (Symbol "g") (app1 (Symbol "f") (Symbol "x")))
           (Symbol "x") (Integer 1)
           {| limits := default_limits;
              simple_cache := [(app1 (Symbol "f") (Symbol "x"),
                                Some (Symbol "y"))] |}
           (app1 (Symbol "f") (Symbol "x")) (Some (Symbol "y"))).
  reflexivity.
Defined.

(** X11.  What [simple] has returned for a term it keeps
    returning for that term in the same session: after [simple(e)]
    returned [v], and after any further call [simple(e2)] whatever its
    outcome, [simple(e)] returns [v] again and leaves the store as it
    is. *)
Theorem simple_result_is_remembered (P : Platform) (B : Brain)
    (fuel fuel2 fuel3 : nat) (e e2 : Expr) (s s1 : Store) (v : Expr) :
  run_simple P B fuel e s = (Ret v, s1) ->
  run_simple P B fuel3 e (snd (run_simple P B fuel2 e2 s1))
  = (Ret v, snd (run_simple P B fuel2 e2 s1)).
Proof.
  intros Hrun. unfold run_simple in *.
  destruct (known B e) eqn:Hk.
  { rewrite simple_known in Hrun by exact Hk. injection Hrun as <- <-.
    now apply simple_known. }
  destruct (is_atom e) eqn:Ha.
  { rewrite simple_atom in Hrun by assumption. injection Hrun as <- <-.
    now apply simple_atom. }
  pose proof (simple_entry P B fuel e s Hk Ha) as He.
  unfold run_simple in He. rewrite Hrun in He.
  destruct He as [c [Hc ->]].
  apply simple_hit; [exact Hk | exact Ha |].
  apply (grows_simple P B _ (grows_methods P B fuel2)). exact Hc.
Qed.

Lemma simple_result_is_remembered_witness :
  run_simple bare_platform (plain_brain [] []) 0
    (app1 Neg (app1 Neg (Symbol "x")))
    (snd (run_simple bare_platform (plain_brain [] []) 3
            (app1 (Symbol "g") (Symbol "x"))
            (snd (run_simple bare_platform (plain_brain [] []) 4
                    (app1 Neg (app1 Neg (Symbol "x")))
                    (fresh_store default_limits)))))
  = (Ret (Symbol "x"),
     snd (run_simple bare_platform (plain_brain [] []) 3
            (app1 (Symbol "g") (Symbol "x"))
            (snd (run_simple bare_platform (plain_brain [] []) 4
                    (app1 Neg (app1 Neg (Symbol "x")))
                    (fresh_store default_limits))))).
Proof.
  apply (simple_result_is_remembered bare_platform (plain_brain [] [])
           4 3 0 (app1 Neg (app1 Neg (Symbol "x")))
           (app1 (Symbol "g") (Symbol "x")) (fresh_store default_limits)).
  reflexivity.
Defined.

(** X12.  A term whose simplification raised stays
    marked as in progress: from then on, in the same session,
    [simple] returns that term as it is, without running its operator
    rule again and without raising. *)
Theorem simple_after_a_fault (P : Platform) (B : Brain)
    (fuel fuel2 fuel3 : nat) (e e2 : Expr) (s s1 : Store) (x : exn) :
  run_simple P B fuel e s = (Raise x, s1) ->
  run_simple P B fuel3 e (snd (run_simple P B fuel2 e2 s1))
  = (Ret e, snd (run_simple P B fuel2 e2 s1)).
Proof.
  intros Hrun. unfold run_simple in *.
  destruct (known B e) eqn:Hk.
  { rewrite simple_known in Hrun by exact Hk. discriminate. }
  destruct (is_atom e) eqn:Ha.
  { rewrite simple_atom in Hrun by assumption. discriminate. }
  pose proof (simple_entry P B fuel e s Hk Ha) as He.
  unfold run_simple in He. rewrite Hrun in He.
  apply (simple_hit P B _ e _ None Hk Ha).
  apply (grows_simple P B _ (grows_methods P B fuel2)). exact He.
Qed.

Lemma simple_after_a_fault_witness :
  run_simple bare_platform (plain_brain [] []) 3
    (app1 Implies (Symbol "p"))
    (snd (run_simple bare_platform (plain_brain [] []) 3 (Symbol "q")
            (snd (run_simple bare_platform (plain_brain [] []) 3
                    (app1 Implies (Symbol "p"))
                    (fresh_store default_limits)))))
  = (Ret (app1 Implies (Symbol "p")),
     snd (run_simple bare_platform (plain_brain [] []) 3 (Symbol "q")
            (snd (run_simple bare_platform (plain_brain [] []) 3
                    (app1 Implies (Symbol "p"))
                    (fresh_store default_limits))))).
Proof.
  apply (simple_after_a_fault bare_platform (plain_brain [] [])
           3 3 3 (app1 Implies (Symbol "p")) (Symbol "q")
           (fresh_store default_limits)
           (snd (run_simple bare_platform (plain_brain [] []) 3
                   (app1 Implies (Symbol "p"))
                   (fresh_store default_limits)))
           AssertionError).
  reflexivity.
Defined.

(* ================================================================== *)
(** * brain.py: building a session *)

(** Every fact of [inf] is a fact of [inf']. *)
Definition included (inf inf' : list Expr) : Prop :=
  forall e, Expr_in e inf = true -> Expr_in e inf' = true.

Lemma included_refl inf : included inf inf.
Proof. intros e H. exact H. Qed.

Lemma included_trans a b c : included a b -> included b c -> included a c.
Proof. intros H1 H2 e H. apply H2, H1, H. Qed.

Lemma Expr_in_app e l1 l2 :
  Expr_in e (l1 ++ l2)%list = Expr_in e l1 || Expr_in e l2.
Proof. unfold Expr_in. apply existsb_app. Qed.

Lemma set_add_included inf e : included inf (set_add inf e).
Proof.
  intros x H. unfold set_add. destruct (Expr_in e inf); [exact H |].
  rewrite Expr_in_app, H. reflexivity.
Qed.

Lemma set_add_has inf e : Expr_in e (set_add inf e) = true.
Proof.
  unfold set_add. destruct (Expr_in e inf) eqn:E; [exact E |].
  rewrite Expr_in_app. simpl. now rewrite Expr_eqb_refl, orb_true_r.
Qed.

Lemma add_all_included l inf : included inf (add_all inf l).
Proof.
  revert inf. induction l as [| x r IH]; intros inf; simpl.
  - apply included_refl.
  - eapply included_trans; [apply set_add_included | apply IH].
Qed.

Lemma bind_Ret {S A B} (m : St S A) (k : A -> St S B) s r s' :
  bind m k s = (Ret r, s') ->
  exists a s1, m s = (Ret a, s1) /\ k a s1 = (Ret r, s').
Proof.
  unfold bind. destruct (m s) as [[a | e | st] s1]; try discriminate.
  intros H. now exists a, s1.
Qed.

Lemma ret_Ret {S A} (a r : A) (s s' : S) :
  ret a s = (Ret r, s') -> r = a.
Proof. intros H. now injection H. Qed.

Lemma interval_loop_included P fuel lo lo' hi hi' x a b vs :
  forall inf lim r lim',
    interval_loop P fuel lo lo' hi hi' x a b vs inf lim = (Ret r, lim') ->
    included inf r.
Proof.
  induction vs as [| v vs IH]; intros inf lim r lim' H.
  - cbv beta delta [interval_loop ret] in H. injection H as <- _.
    apply included_refl.
  - cbn [interval_loop] in H.
    apply bind_Ret in H. destruct H as [ge [l1 [_ H]]].
    apply bind_Ret in H. destruct H as [le [l2 [_ H]]].
    apply IH in H.
    eapply included_trans; [| exact H].
    eapply included_trans with
      (b := if ge then add_all inf [app2 lo x (Integer v); app2 lo' (Integer v) x]
            else inf).
    + destruct ge; [apply add_all_included | apply included_refl].
    + destruct le; [apply add_all_included | apply included_refl].
Qed.

Lemma infer_domain1_included P fuel inf x dom lim r lim' :
  infer_domain1 P fuel inf x dom lim = (Ret r, lim') ->
  included inf r /\ Expr_in (app2 Element x dom) r = true.
Proof.
  intros H.
  set (i0 := set_add inf (app2 Element x dom)).
  set (i1 := match dom with
             | Call h [a] =>
                 if h == Set_ then set_add i0 (app2 Equal x a) else i0
             | _ => i0
             end).
  assert (H0 : included inf i0) by apply set_add_included.
  assert (H1 : included i0 i1).
  { subst i1. destruct dom as [| | | h [| a [| ? ?]]];
      try apply included_refl.
    destruct (h == Set_); [apply set_add_included | apply included_refl]. }
  assert (Hr : included i1 r).
  { unfold infer_domain1 in H. fold i0 in H. fold i1 in H.
    cbv zeta in H.
    repeat match type of H with
           | (if ?c then _ else _) _ = _ => destruct c
           end;
      try (apply ret_Ret in H; subst r;
           first [apply add_all_included | apply included_refl]).
    - apply bind_Ret in H. destruct H as [[a b] [l1 [_ H]]].
      apply interval_loop_included in H.
      eapply included_trans; [| exact H].
      eapply included_trans; apply add_all_included.
    - apply bind_Ret in H. destruct H as [[a b] [l1 [_ H]]].
      apply bind_Ret in H. destruct H as [c [l2 [_ H]]].
      apply interval_loop_included in H.
      eapply included_trans; [| exact H].
      eapply included_trans; [apply add_all_included |].
      destruct c; [apply add_all_included | apply included_refl].
    - apply bind_Ret in H. destruct H as [[a b] [l1 [_ H]]].
      apply bind_Ret in H. destruct H as [c [l2 [_ H]]].
      apply interval_loop_included in H.
      eapply included_trans; [| exact H].
      eapply included_trans; [apply add_all_included |].
      destruct c; [apply add_all_included | apply included_refl].
    - apply bind_Ret in H. destruct H as [[a b] [l1 [_ H]]].
      apply bind_Ret in H. destruct H as [c [l2 [_ H]]].
      apply interval_loop_included in H.
      eapply included_trans; [| exact H].
      eapply included_trans; [apply add_all_included |].
      destruct c; [apply add_all_included | apply included_refl]. }
  split.
  - eapply included_trans; [exact H0 |].
    eapply included_trans; [exact H1 | exact Hr].
  - apply Hr, H1. apply set_add_has.
Qed.

Lemma foldM_included {X} (f : list Expr -> X -> St Limits (list Expr))
    (l : list X) :
  (forall inf x lim r lim', f inf x lim = (Ret r, lim') -> included inf r) ->
  forall inf lim r lim',
    foldM f l inf lim = (Ret r, lim') -> included inf r.
Proof.
  intros Hf. induction l as [| x t IH]; intros inf lim r lim' H.
  - apply ret_Ret in H. subst r. apply included_refl.
  - cbn [foldM] in H. apply bind_Ret in H. destruct H as [a [l1 [H1 H2]]].
    eapply included_trans; [eapply Hf; exact H1 | eapply IH; exact H2].
Qed.

Lemma infer_domain_included P fuel inf x dom lim r lim' :
  infer_domain P fuel inf x dom lim = (Ret r, lim') -> included inf r.
Proof.
  unfold infer_domain. destruct (head_is dom Intersection).
  - apply foldM_included. intros i d l0 r0 l1 H.
    now apply infer_domain1_included in H.
  - intros H. now apply infer_domain1_included in H.
Qed.

Lemma infer_not_domain1_included inf x dom :
  included inf (infer_not_domain1 inf x dom).
Proof.
  unfold infer_not_domain1.
  set (i0 := set_add inf (app2 NotElement x dom)).
  set (i1 := match dom with
             | Call h [a] =>
                 if h == Set_ then set_add i0 (app2 NotEqual x a) else i0
             | _ => i0
             end).
  assert (H0 : included inf i0) by apply set_add_included.
  assert (H1 : included i0 i1).
  { subst i1. destruct dom as [| | | h [| a [| ? ?]]];
      try apply included_refl.
    destruct (h == Set_); [apply set_add_included | apply included_refl]. }
  eapply included_trans; [exact H0 |].
  eapply included_trans; [exact H1 |].
  repeat match goal with
         | |- included _ (if ?c then _ else _) => destruct c
         end;
    first [apply add_all_included | apply included_refl].
Qed.

Lemma fold_left_included {X} (f : list Expr -> X -> list Expr) (l : list X) :
  (forall inf x, included inf (f inf x)) ->
  forall inf, included inf (fold_left f l inf).
Proof.
  intros Hf. induction l as [| x t IH]; intros inf; simpl.
  - apply included_refl.
  - eapply included_trans; [apply Hf | apply IH].
Qed.

Lemma infer_not_domain_included inf x dom :
  included inf (infer_not_domain inf x dom).
Proof.
  unfold infer_not_domain. destruct (head_is dom Union).
  - apply fold_left_included. intros i d. apply infer_not_domain1_included.
  - apply infer_not_domain1_included.
Qed.

Lemma infer_included P fuel inf thm lim r lim' :
  infer P fuel inf thm lim = (Ret r, lim') ->
  included inf r /\ Expr_in thm r = true.
Proof.
  unfold infer. intros H.
  assert (Hr : included (set_add inf thm) r).
  { destruct (head_is thm Element).
    - apply bind_Ret in H. destruct H as [[x dom] [l1 [_ H]]].
      apply bind_Ret in H. destruct H as [i1 [l2 [H1 H]]].
      apply infer_domain_included in H1.
      eapply included_trans; [exact H1 |].
      destruct (head_is dom SetMinus).
      + apply bind_Ret in H. destruct H as [[inset outset] [l3 [_ H]]].
        apply bind_Ret in H. destruct H as [i2 [l4 [H2 H]]].
        apply infer_domain_included in H2.
        apply ret_Ret in H. subst r.
        eapply included_trans; [exact H2 | apply infer_not_domain_included].
      + apply ret_Ret in H. subst r. apply included_refl.
    - apply ret_Ret in H. subst r. apply included_refl. }
  split.
  - eapply included_trans; [apply set_add_included | exact Hr].
  - apply Hr, set_add_has.
Qed.

Lemma foldM_infer_has P fuel (asms : list Expr) :
  forall inf lim r lim',
    foldM (infer P fuel) asms inf lim = (Ret r, lim') ->
    included inf r /\ forall t, In t asms -> Expr_in t r = true.
Proof.
  induction asms as [| a rest IH]; intros inf lim r lim' H.
  - apply ret_Ret in H. subst r. split; [apply included_refl |].
    intros t [].
  - cbn [foldM] in H. apply bind_Ret in H. destruct H as [i1 [l1 [H1 H2]]].
    apply infer_included in H1. destruct H1 as [Hi Ha].
    apply IH in H2. destruct H2 as [Hi2 Hr].
    split; [eapply included_trans; eassumption |].
    intros t [<- | Ht]; [now apply Hi2 | now apply Hr].
Qed.

Lemma Brain_init_facts P fuel a pen lim B lim' :
  Brain_init P fuel a pen lim = (Ret B, lim') ->
  is_fungrim B = false /\
  forall t, In t (conjuncts a) -> Expr_in t (inferences B) = true.
Proof.
  unfold Brain_init. intros H.
  apply bind_Ret in H. destruct H as [facts [l1 [H1 H]]].
  apply ret_Ret in H. subst B. split; [reflexivity |].
  apply foldM_infer_has in H1. destruct H1 as [_ H1]. exact H1.
Qed.

Lemma add_entry_included P fuel pen t entry lim t' lim' :
  add_entry P fuel pen t entry lim = (Ret t', lim') ->
  included (t_inferences t) (t_inferences t').
Proof.
  unfold add_entry. intros H.
  apply bind_Ret in H. destruct H as [formula [l1 [_ H]]].
  destruct formula as [formula |];
    [| apply ret_Ret in H; subst t'; apply included_refl].
  apply bind_Ret in H. destruct H as [variables [l2 [_ H]]].
  destruct variables as [vs |].
  - apply bind_Ret in H. destruct H as [content [l3 [_ H]]].
    destruct content as [| | | h [| lhs [| rhs [| ? ?]]]];
      try (apply ret_Ret in H; subst t'; apply included_refl).
    destruct (h == Equal);
      [| apply ret_Ret in H; subst t'; apply included_refl].
    apply bind_Ret in H. destruct H as [eid [l4 [_ H]]].
    apply ret_Ret in H. subst t'. apply included_refl.
  - apply bind_Ret in H. destruct H as [content [l3 [_ H]]].
    apply bind_Ret in H. destruct H as [inf [l4 [Hi H]]].
    apply infer_included in Hi. destruct Hi as [Hi _].
    destruct (head_is content Equal).
    + destruct (args_of content) as [| first rest]; [discriminate |].
      apply ret_Ret in H. subst t'. exact Hi.
    + apply ret_Ret in H. subst t'. exact Hi.
Qed.

Lemma foldM_add_entry_included P fuel pen (l : list Expr) :
  forall t lim t' lim',
    foldM (add_entry P fuel pen) l t lim = (Ret t', lim') ->
    included (t_inferences t) (t_inferences t').
Proof.
  induction l as [| x r IH]; intros t lim t' lim' H.
  - apply ret_Ret in H. subst t'. apply included_refl.
  - cbn [foldM] in H. apply bind_Ret in H. destruct H as [t1 [l1 [H1 H2]]].
    eapply included_trans;
      [eapply add_entry_included; exact H1 | eapply IH; exact H2].
Qed.

Lemma new_session_facts P fuel fungrim a pen lim B lim' :
  new_session P fuel fungrim a pen lim = (Ret B, lim') ->
  forall t, In t (conjuncts a) -> Expr_in t (inferences B) = true.
Proof.
  unfold new_session. destruct fungrim.
  - unfold FungrimBrain_init. intros H.
    apply bind_Ret in H. destruct H as [b [l1 [Hb H]]].
    apply bind_Ret in H. destruct H as [t [l2 [Ht H]]].
    apply ret_Ret in H. subst B. cbn [inferences].
    apply Brain_init_facts in Hb. destruct Hb as [_ Hb].
    intros x Hx.
    apply (foldM_add_entry_included _ _ _ _ _ _ _ _ Ht). cbn [t_inferences].
    now apply Hb.
  - intros H. now apply Brain_init_facts in H.
Qed.

(** A computation that leaves its state as it found it, whatever its
    outcome. *)
Definition steady {S A} (m : St S A) : Prop := forall s, snd (m s) = s.

Lemma steady_ret {S A} (a : A) : steady (@ret S A a).
Proof. intros s. reflexivity. Qed.

Lemma steady_raise {S A} (e : exn) : steady (@raise S A e).
Proof. intros s. reflexivity. Qed.

Lemma steady_lift {S A} (o : outcome A) : steady (@lift S A o).
Proof. intros s. reflexivity. Qed.

Lemma steady_bind {S A B} (m : St S A) (k : A -> St S B) :
  steady m -> (forall a, steady (k a)) -> steady (bind m k).
Proof.
  intros Hm Hk s. unfold bind. specialize (Hm s).
  destruct (m s) as [[a | e | r] s1]; simpl in *; subst; [apply Hk | |];
    reflexivity.
Qed.

Lemma steady_unpack2 {S} (l : list Expr) : steady (@unpack2 S l).
Proof.
  destruct l as [| x [| y [| z r]]];
    first [apply steady_ret | apply steady_raise].
Qed.

Lemma steady_foldM {S A X} (f : A -> X -> St S A) (l : list X) :
  (forall a x, steady (f a x)) -> forall a, steady (foldM f l a).
Proof.
  intros Hf. induction l as [| x r IH]; intros a; cbn [foldM].
  - apply steady_ret.
  - apply steady_bind; [apply Hf | exact IH].
Qed.

Lemma steady_Expr_simple P fuel e : steady (Expr_simple P fuel e).
Proof.
  intros lim. unfold Expr_simple.
  pose proof (frame_simple P (plain_brain [] [])
                (methods P (plain_brain [] []) fuel)
                (frame_methods P (plain_brain [] []) fuel) e
                {| limits := lim; simple_cache := [] |}) as H.
  unfold run_simple.
  destruct (simple _ _ _ _ _) as [o s]. exact H.
Qed.

Ltac calm :=
  repeat first
    [ progress intros
    | apply steady_ret | apply steady_raise | apply steady_lift
    | apply steady_unpack2 | apply steady_Expr_simple
    | match goal with
      | |- steady (bind _ _) => apply steady_bind
      | |- steady (_ &&& _) => apply steady_bind
      | |- steady (match ?x with _ => _ end) => destruct x
      | |- steady (if ?c then _ else _) => destruct c
      | |- steady (let _ := _ in _) => cbv zeta
      end ].

Lemma steady_simplifies_to_True P fuel e : steady (simplifies_to_True P fuel e).
Proof. unfold simplifies_to_True. calm. Qed.

Lemma steady_interval_loop P fuel lo lo' hi hi' x a b vs inf :
  steady (interval_loop P fuel lo lo' hi hi' x a b vs inf).
Proof.
  revert inf. induction vs as [| v vs IH]; intros inf; cbn [interval_loop].
  - apply steady_ret.
  - apply steady_bind; [apply steady_simplifies_to_True | intros ge].
    apply steady_bind; [apply steady_simplifies_to_True | intros le].
    apply IH.
Qed.

Lemma steady_infer_domain1 P fuel inf x dom :
  steady (infer_domain1 P fuel inf x dom).
Proof.
  unfold infer_domain1. cbv zeta.
  repeat match goal with
         | |- steady (if ?c then _ else _) => destruct c
         end;
    repeat first
      [ apply steady_ret
      | apply steady_interval_loop
      | apply steady_simplifies_to_True
      | apply steady_unpack2
      | apply steady_bind
      | progress intros
      | match goal with
        | |- steady (match ?x with _ => _ end) => destruct x
        end ].
Qed.

Lemma steady_infer_domain P fuel inf x dom :
  steady (infer_domain P fuel inf x dom).
Proof.
  unfold infer_domain. destruct (head_is dom Intersection).
  - apply steady_foldM. intros. apply steady_infer_domain1.
  - apply steady_infer_domain1.
Qed.

Lemma steady_infer P fuel inf thm : steady (infer P fuel inf thm).
Proof.
  unfold infer. cbv zeta.
  destruct (head_is thm Element); [| apply steady_ret].
  apply steady_bind; [apply steady_unpack2 | intros [x dom]].
  apply steady_bind; [apply steady_infer_domain | intros i1].
  destruct (head_is dom SetMinus); [| apply steady_ret].
  apply steady_bind; [apply steady_unpack2 | intros [a b]].
  apply steady_bind; [apply steady_infer_domain | intros i2].
  apply steady_ret.
Qed.

Lemma steady_Brain_init P fuel a pen : steady (Brain_init P fuel a pen).
Proof.
  unfold Brain_init. cbv zeta.
  apply steady_bind; [| intros; apply steady_ret].
  apply steady_foldM. intros. apply steady_infer.
Qed.

Lemma steady_add_entry P fuel pen t entry :
  steady (add_entry P fuel pen t entry).
Proof.
  unfold add_entry.
  repeat first
    [ apply steady_ret | apply steady_raise | apply steady_lift
    | apply steady_infer
    | apply steady_bind
    | progress intros
    | match goal with
      | |- steady (match ?x with _ => _ end) => destruct x
      | |- steady (if ?c then _ else _) => destruct c
      | |- steady (let _ := _ in _) => cbv zeta
      end ].
Qed.

Lemma steady_new_session P fuel fungrim a pen :
  steady (new_session P fuel fungrim a pen).
Proof.
  unfold new_session, FungrimBrain_init. destruct fungrim.
  - apply steady_bind; [apply steady_Brain_init | intros b].
    apply steady_bind; [| intros; apply steady_ret].
    apply steady_foldM. intros. apply steady_add_entry.
  - apply steady_Brain_init.
Qed.

(** X13.  Every conjunct of the assumptions given to
    [Brain(...)] or [FungrimBrain(...)] is a fact of the session that
    was built, and [simple] returns [True_] on it, without touching the
    cache or the backend. *)
Theorem assumptions_become_facts (P : Platform) (fuel fuel' : nat)
    (fungrim : bool) (a : option Expr) (pen : list (Expr * Z))
    (lim lim' : Limits) (B : Brain) (t : Expr) (s : Store) :
  new_session P fuel fungrim a pen lim = (Ret B, lim') ->
  Expr_in t (conjuncts a) = true ->
  Expr_in t (inferences B) = true /\
  run_simple P B fuel' t s = (Ret True_, s).
Proof.
  intros H Ht. apply Expr_in_In in Ht.
  pose proof (new_session_facts _ _ _ _ _ _ _ _ H t Ht) as Hf.
  split; [exact Hf |]. unfold run_simple. now apply simple_known.
Qed.

Lemma assumptions_become_facts_witness :
  Expr_in (app2 Greater (Symbol "x") (Integer 0))
    (inferences positive_integer_session) = true /\
  run_simple bare_platform positive_integer_session 0
    (app2 Greater (Symbol "x") (Integer 0)) (fresh_store default_limits)
  = (Ret True_, fresh_store default_limits).
Proof.
  apply (assumptions_become_facts bare_platform 3 0 false
           (Some (app2 And (app2 Element (Symbol "x") ZZ)
                    (app2 Greater (Symbol "x") (Integer 0))))
           [] default_limits default_limits).
  - reflexivity.
  - reflexivity.
Defined.

(** X14.  The degree and bit-size limits of the algebraic
    backend after a call of [simple] or [element] are those before it,
    whatever the outcome; building a session, plain or Fungrim, with or
    without assumptions, leaves them unchanged as well. *)
Theorem limits_are_left_alone (P : Platform) (B : Brain) (fuel fuel0 : nat)
    (e x dom : Expr) (s : Store) (fungrim : bool) (a : option Expr)
    (pen : list (Expr * Z)) (lim : Limits) :
  limits (snd (run_simple P B fuel e s)) = limits s /\
  limits (snd (run_element P B fuel x dom s)) = limits s /\
  snd (new_session P fuel0 fungrim a pen lim) = lim.
Proof.
  split; [| split].
  - apply frame_simple, frame_methods.
  - apply frame_element, frame_methods.
  - apply steady_new_session.
Qed.

(* ================================================================== *)
(** * brain.py: integer literals *)

Lemma known_nil B e : inferences B = [] -> known B e = false.
Proof. intros H. unfold known. now rewrite H. Qed.

Lemma tower_rational P B self x s s' :
  self_is_integer P self x s = (Ret TTrue, s') ->
  is_rational P B self x s = (Ret TTrue, s').
Proof. intros H. unfold is_rational. mrun. rewrite H. reflexivity. Qed.

Lemma tower_algebraic P B self x s s' :
  self_is_integer P self x s = (Ret TTrue, s') ->
  is_algebraic P B self x s = (Ret TTrue, s').
Proof. intros H. unfold is_algebraic. mrun. rewrite H. reflexivity. Qed.

Lemma tower_real P B self x s s' :
  self_is_rational P self x s = (Ret TTrue, s') ->
  is_real P B self x s = (Ret TTrue, s').
Proof. intros H. unfold is_real. mrun. rewrite H. reflexivity. Qed.

Lemma tower_complex P B self x s s' :
  self_is_real P self x s = (Ret TTrue, s') ->
  is_complex P B self x s = (Ret TTrue, s').
Proof. intros H. unfold is_complex. mrun. rewrite H. reflexivity. Qed.

Lemma literal_is_integer P B self v s :
  Brain_is_integer P B self (Integer v) s = (Ret TTrue, s).
Proof. reflexivity. Qed.

Lemma literal_is_complex P B n v s :
  self_is_complex P (methods P B (S (S (S (S n))))) (Integer v) s
  = (Ret TTrue, s).
Proof.
  cbn [methods self_is_complex]. apply tower_complex.
  cbn [methods self_is_real]. apply tower_real.
  cbn [methods self_is_rational]. apply tower_rational.
  cbn [methods self_is_integer]. apply literal_is_integer.
Qed.

Lemma methods_plain_atoms P B n :
  inferences B = [] -> plain_atoms P (methods P B (S n)).
Proof.
  intros H v st. cbn [methods self_simple].
  apply simple_atom; [now apply known_nil | reflexivity].
Qed.

Lemma simple_Less_literals P self a b st :
  plain_atoms P self ->
  simple_Less P self [Integer a; Integer b] st
  = (Ret (if a <? b then True_ else False_), st).
Proof.
  intros H. unfold simple_Less, simple_args. cbn [mapM]. mrun.
  rewrite !H. reflexivity.
Qed.

Lemma simple_LessEqual_literals P self a b st :
  plain_atoms P self ->
  simple_LessEqual P self [Integer a; Integer b] st
  = (Ret (if a <=? b then True_ else False_), st).
Proof.
  intros H. unfold simple_LessEqual, simple_args. cbn [mapM]. mrun.
  rewrite !H. reflexivity.
Qed.

Lemma simple_Greater_literals P self a b st :
  plain_atoms P self ->
  simple_Greater P self [Integer a; Integer b] st
  = (Ret (if a >? b then True_ else False_), st).
Proof.
  intros H. unfold simple_Greater, simple_args. cbn [mapM]. mrun.
  rewrite !H. reflexivity.
Qed.

Lemma simple_GreaterEqual_literals P self a b st :
  plain_atoms P self ->
  simple_GreaterEqual P self [Integer a; Integer b] st
  = (Ret (if a >=? b then True_ else False_), st).
Proof.
  intros H. unfold simple_GreaterEqual, simple_args. cbn [mapM]. mrun.
  rewrite !H. reflexivity.
Qed.

Lemma remember_get e r st k :
  dict_get (simple_cache (remember e r st)) k
  = if e == k then Some (Some r) else dict_get (simple_cache st) k.
Proof.
  unfold remember, cache_set. cbn [snd simple_cache].
  rewrite !dict_get_set. destruct (e == k); reflexivity.
Qed.

Lemma remember_limits e r st : limits (remember e r st) = limits st.
Proof. reflexivity. Qed.

Section Comparisons.

Context (P : Platform) (B : Brain) (n : nat).
Hypothesis Hinf : inferences B = [].
Hypothesis Hdb : expr_db B = [].

Let self := methods P B (S n).

Lemma simple_relation (s0 : string) (f : list Expr -> St Store Expr)
    (a b : Z) (r : Expr) (st : Store) :
  simple_attr P B self s0 = Method f ->
  (forall st, f [Integer a; Integer b] st = (Ret r, st)) ->
  dict_get (simple_cache st) (Call (Symbol s0) [Integer a; Integer b])
  = None ->
  simple P B self (Call (Symbol s0) [Integer a; Integer b]) st
  = (Ret r, remember (Call (Symbol s0) [Integer a; Integer b]) r st).
Proof.
  intros Hf Hrun Hc.
  apply (simple_method P B self s0 [Integer a; Integer b] f st r
           (snd (cache_set (Call (Symbol s0) [Integer a; Integer b]) None st)));
    try assumption.
  - now apply known_nil.
  - apply Hrun.
Qed.

Lemma simple_Less_run a b st :
  dict_get (simple_cache st) (app2 Less (Integer a) (Integer b)) = None ->
  simple P B self (app2 Less (Integer a) (Integer b)) st
  = (Ret (if a <? b then True_ else False_),
     remember (app2 Less (Integer a) (Integer b))
       (if a <? b then True_ else False_) st).
Proof.
  intros Hc. apply (simple_relation "Less" (simple_Less P self));
    [reflexivity | | exact Hc].
  intros st0. apply simple_Less_literals. now apply methods_plain_atoms.
Qed.

Lemma simple_LessEqual_run a b st :
  dict_get (simple_cache st) (app2 LessEqual (Integer a) (Integer b)) = None ->
  simple P B self (app2 LessEqual (Integer a) (Integer b)) st
  = (Ret (if a <=? b then True_ else False_),
     remember (app2 LessEqual (Integer a) (Integer b))
       (if a <=? b then True_ else False_) st).
Proof.
  intros Hc. apply (simple_relation "LessEqual" (simple_LessEqual P self));
    [reflexivity | | exact Hc].
  intros st0. apply simple_LessEqual_literals. now apply methods_plain_atoms.
Qed.

Lemma simple_Greater_run a b st :
  dict_get (simple_cache st) (app2 Greater (Integer a) (Integer b)) = None ->
  simple P B self (app2 Greater (Integer a) (Integer b)) st
  = (Ret (if a >? b then True_ else False_),
     remember (app2 Greater (Integer a) (Integer b))
       (if a >? b then True_ else False_) st).
Proof.
  intros Hc. apply (simple_relation "Greater" (simple_Greater P self));
    [reflexivity | | exact Hc].
  intros st0. apply simple_Greater_literals. now apply methods_plain_atoms.
Qed.

Lemma simple_GreaterEqual_run a b st :
  dict_get (simple_cache st) (app2 GreaterEqual (Integer a) (Integer b))
  = None ->
  simple P B self (app2 GreaterEqual (Integer a) (Integer b)) st
  = (Ret (if a >=? b then True_ else False_),
     remember (app2 GreaterEqual (Integer a) (Integer b))
       (if a >=? b then True_ else False_) st).
Proof.
  intros Hc.
  apply (simple_relation "GreaterEqual" (simple_GreaterEqual P self));
    [reflexivity | | exact Hc].
  intros st0. apply simple_GreaterEqual_literals.
  now apply methods_plain_atoms.
Qed.

End Comparisons.

Section Membership.

Context (P : Platform) (B : Brain) (n : nat).
Hypothesis Hinf : inferences B = [].
Hypothesis Hdb : expr_db B = [].

Let self := methods P B (S (S n)).

Lemma less_equal_miss a b st :
  dict_get (simple_cache st) (app2 LessEqual (Integer a) (Integer b)) = None ->
  less_equal P self (Integer a) (Integer b) st
  = (Ret (Some (a <=? b)),
     remember (app2 LessEqual (Integer a) (Integer b))
       (if a <=? b then True_ else False_) st).
Proof.
  intros Hc. unfold less_equal, bind.
  change (self_simple P self) with (simple P B (methods P B (S n))).
  rewrite (simple_LessEqual_run P B n Hinf Hdb a b st Hc).
  destruct (a <=? b); reflexivity.
Qed.

Lemma less_equal_hit a b st :
  dict_get (simple_cache st) (app2 LessEqual (Integer a) (Integer b))
  = Some (Some (if a <=? b then True_ else False_)) ->
  less_equal P self (Integer a) (Integer b) st = (Ret (Some (a <=? b)), st).
Proof.
  intros Hc. unfold less_equal, bind.
  change (self_simple P self) with (simple P B (methods P B (S n))).
  rewrite (simple_hit P B _ (app2 LessEqual (Integer a) (Integer b)) st _
             (known_nil B _ Hinf) eq_refl Hc).
  destruct (a <=? b); reflexivity.
Qed.

Lemma element_fresh x dom st :
  element P B self x dom st
  = element P (plain_brain [] []) self x dom st.
Proof. unfold element, known. rewrite Hinf. reflexivity. Qed.

Lemma self_integer_literal v st :
  self_is_integer P self (Integer v) st = (Ret TTrue, st).
Proof. reflexivity. Qed.

Lemma element_ZZGreaterEqual_literals v a lim :
  fst (element P B self (Integer v) (Call ZZGreaterEqual [Integer a])
         (fresh_store lim))
  = Ret (Some (a <=? v)).
Proof.
  unfold element. rewrite !(known_nil B _ Hinf). heads. mrun.
  cbn [unpack1]. mrun. rewrite self_integer_literal.
  cbv beta iota. cbn [truthy TTrue negb]. cbv beta iota.
  rewrite less_equal_miss by reflexivity. reflexivity.
Qed.

Lemma element_ZZLessEqual_literals v b lim :
  fst (element P B self (Integer v) (Call ZZLessEqual [Integer b])
         (fresh_store lim))
  = Ret (Some (v <=? b)).
Proof.
  unfold element. rewrite !(known_nil B _ Hinf). heads. mrun.
  cbn [unpack1]. mrun. rewrite self_integer_literal.
  cbv beta iota. cbn [truthy TTrue negb]. cbv beta iota.
  rewrite less_equal_miss by reflexivity. reflexivity.
Qed.

Lemma element_Range_literals v a b lim :
  fst (element P B self (Integer v) (Call Range [Integer a; Integer b])
         (fresh_store lim))
  = Ret (Some ((a <=? v) && (v <=? b))).
Proof.
  unfold element. rewrite !(known_nil B _ Hinf). heads. mrun.
  cbn [unpack2]. mrun. rewrite self_integer_literal.
  cbv beta iota. cbn [truthy TTrue negb]. cbv beta iota.
  rewrite less_equal_miss by reflexivity.
  destruct (a <=? v) eqn:Ha; cbn [truthy negb andb]; cbv beta iota;
    [|reflexivity].
  destruct (app2 LessEqual (Integer a) (Integer v)
            == app2 LessEqual (Integer v) (Integer b)) eqn:Hk.
  - apply Expr_eqb_eq in Hk. injection Hk as -> ->.
    rewrite less_equal_hit.
    + rewrite Z.leb_refl. reflexivity.
    + rewrite remember_get, Expr_eqb_refl, Z.leb_refl. reflexivity.
  - rewrite less_equal_miss.
    + destruct (v <=? b); reflexivity.
    + rewrite remember_get, Hk. reflexivity.
Qed.

Lemma element_PP_literals v lim :
  fst (element P B self (Integer v) PP (fresh_store lim))
  = Ret (if v <=? 20
         then Some (existsb (Z.eqb v) [2; 3; 5; 7; 11; 13; 17; 19])
         else Unknown).
Proof.
  unfold element. rewrite !(known_nil B _ Hinf). heads. mrun.
  rewrite self_integer_literal.
  cbv beta iota. cbn [truthy TTrue negb]. cbv beta iota.
  destruct (v <=? 20); reflexivity.
Qed.

Lemma element_empty_Union x lim :
  fst (element P B self x (Call Union []) (fresh_store lim)) = Ret TFalse.
Proof.
  unfold element. rewrite !(known_nil B _ Hinf). heads. reflexivity.
Qed.

Lemma element_empty_Set x lim :
  fst (element P B self x (Call Set_ []) (fresh_store lim)) = Ret TFalse.
Proof.
  unfold element. rewrite !(known_nil B _ Hinf). heads. reflexivity.
Qed.

Lemma element_empty_Intersection x lim :
  fst (element P B self x (Call Intersection []) (fresh_store lim))
  = Raise AssertionError.
Proof.
  unfold element. rewrite !(known_nil B _ Hinf). heads. reflexivity.
Qed.

End Membership.

Section Negation.

Context (P : Platform) (B : Brain) (n : nat).
Hypothesis Hinf : inferences B = [].
Hypothesis Hdb : expr_db B = [].

Lemma self_simple_atom a st :
  is_atom a = true ->
  self_simple P (methods P B (S n)) a st = (Ret a, st).
Proof.
  intros Ha. cbn [methods self_simple].
  apply simple_atom; [now apply known_nil | exact Ha].
Qed.

Lemma simple_Neg_atom a st :
  is_atom a = true ->
  dict_get (simple_cache st) (app1 Neg a) = None ->
  simple P B (methods P B (S n)) (app1 Neg a) st
  = (Ret (match a with Integer v => Integer (- v) | _ => app1 Neg a end),
     remember (app1 Neg a)
       (match a with Integer v => Integer (- v) | _ => app1 Neg a end) st).
Proof.
  intros Ha Hc.
  apply (simple_method P B _ "Neg" [a]
           (call1 (simple_Neg P (methods P B (S n)))) st);
    try assumption.
  - now apply known_nil.
  - reflexivity.
  - cbn [call1]. unfold simple_Neg. unfold bind at 1.
    rewrite (self_simple_atom a _ Ha).
    destruct a; try discriminate; reflexivity.
Qed.

Lemma simple_Neg_Neg_atom a lim :
  is_atom a = true ->
  fst (simple P B (methods P B (S (S n))) (app1 Neg (app1 Neg a))
         (fresh_store lim))
  = Ret a.
Proof.
  intros Ha.
  rewrite (simple_method_outcome P B _ "Neg" [app1 Neg a]
             (call1 (simple_Neg P (methods P B (S (S n))))));
    try assumption; try reflexivity.
  - cbn [call1]. unfold simple_Neg. unfold bind at 1.
    change (self_simple P (methods P B (S (S n))))
      with (simple P B (methods P B (S n))).
    rewrite (simple_Neg_atom a _ Ha).
    2:{ unfold cache_set, fresh_store. cbn [snd simple_cache].
        rewrite dict_get_set.
        replace (Call (Symbol "Neg") [app1 Neg a] == app1 Neg a) with false;
          [reflexivity |].
        symmetry. apply Expr_eqb_neq. intros H. injection H as H.
        rewrite <- H in Ha. discriminate. }
    destruct a as [s | v | t | h l]; try discriminate; try reflexivity.
    cbn. now rewrite Z.opp_involutive.
  - now apply known_nil.
Qed.

End Negation.

Lemma primes_to_twenty v :
  v <= 20 ->
  existsb (Z.eqb v) [2; 3; 5; 7; 11; 13; 17; 19] = true <-> Z.prime v.
Proof.
  intros Hv. split.
  - intros H. cbn [existsb] in H.
    repeat (apply orb_prop in H; destruct H as [H | H]);
      try discriminate; apply Z.eqb_eq in H; subst v;
      (split; [lia |]); intros k Hk [q Hq];
      assert (Hc : k = 2 \/ k = 3 \/ k = 4 \/ k = 5 \/ k = 6 \/ k = 7
                   \/ k = 8 \/ k = 9 \/ k = 10 \/ k = 11 \/ k = 12 \/ k = 13
                   \/ k = 14 \/ k = 15 \/ k = 16 \/ k = 17 \/ k = 18) by lia;
      repeat (destruct Hc as [Hc | Hc]); subst k; lia.
  - intros [H1 Hp].
    assert (Hc : v = 2 \/ v = 3 \/ v = 4 \/ v = 5 \/ v = 6 \/ v = 7 \/ v = 8
                 \/ v = 9 \/ v = 10 \/ v = 11 \/ v = 12 \/ v = 13 \/ v = 14
                 \/ v = 15 \/ v = 16 \/ v = 17 \/ v = 18 \/ v = 19 \/ v = 20)
      by lia.
    repeat (destruct Hc as [Hc | Hc]); subst v; try reflexivity; exfalso;
      first [ apply (Hp 2); [lia | now exists 2]
            | apply (Hp 2); [lia | now exists 3]
            | apply (Hp 2); [lia | now exists 4]
            | apply (Hp 2); [lia | now exists 5]
            | apply (Hp 2); [lia | now exists 6]
            | apply (Hp 2); [lia | now exists 7]
            | apply (Hp 2); [lia | now exists 8]
            | apply (Hp 2); [lia | now exists 9]
            | apply (Hp 2); [lia | now exists 10]
            | apply (Hp 3); [lia | now exists 3]
            | apply (Hp 3); [lia | now exists 5] ].
Qed.

Lemma equal_literals P B self v a st :
  equal P B self (Integer v) (Integer a) st = (Ret (Some (v =? a)), st).
Proof.
  unfold equal. mrun. cbn [Expr_eqb is_integer andb].
  destruct (v =? a); reflexivity.
Qed.

Lemma mapM_equal_literals P B n v l st :
  mapM (fun y => self_equal P (methods P B (S n)) (Integer v) y)
    (map Integer l) st
  = (Ret (map (fun a => Some (v =? a)) l), st).
Proof.
  induction l as [| a l IH]; [reflexivity |].
  cbn [map mapM]. unfold bind at 1.
  change (self_equal P (methods P B (S n)))
    with (equal P B (methods P B n)).
  rewrite equal_literals. unfold bind at 1.
  change (equal P B (methods P B n))
    with (self_equal P (methods P B (S n))).
  rewrite IH. reflexivity.
Qed.

Lemma any_True_literals v l :
  any_True (map (fun a => Some (v =? a)) l) = existsb (Z.eqb v) l.
Proof.
  unfold any_True. induction l as [| a l IH]; [reflexivity |].
  cbn [map existsb]. rewrite IH. now destruct (v =? a).
Qed.

Lemma all_False_literals v l :
  all_False (map (fun a => Some (v =? a)) l) = negb (existsb (Z.eqb v) l).
Proof.
  unfold all_False. induction l as [| a l IH]; [reflexivity |].
  cbn [map existsb forallb]. rewrite IH. now destruct (v =? a).
Qed.

Lemma element_Set_literals P B n v l st :
  inferences B = [] ->
  element P B (methods P B (S n)) (Integer v) (Call Set_ (map Integer l)) st
  = (Ret (Some (existsb (Z.eqb v) l)), st).
Proof.
  intros Hinf.
  unfold element. rewrite !(known_nil B _ Hinf). heads. mrun.
  cbn [args_of]. rewrite mapM_equal_literals.
  rewrite any_True_literals, all_False_literals.
  destruct (existsb (Z.eqb v) l); reflexivity.
Qed.

(** X15.  A term that [is_integer] answers [True] on is answered
    [True] by [is_rational], [is_algebraic], [is_real] and [is_complex]
    as well, each leaving the session in the state in which
    [is_integer] left it. *)
Theorem integers_are_in_every_number_set (P : Platform) (B : Brain)
    (n : nat) (x : Expr) (s s' : Store) :
  self_is_integer P (methods P B (S n)) x s = (Ret TTrue, s') ->
  self_is_rational P (methods P B (S (S n))) x s = (Ret TTrue, s') /\
  self_is_algebraic P (methods P B (S (S n))) x s = (Ret TTrue, s') /\
  self_is_real P (methods P B (S (S (S n)))) x s = (Ret TTrue, s') /\
  self_is_complex P (methods P B (S (S (S (S n))))) x s = (Ret TTrue, s').
Proof.
  intros H.
  assert (Hq : self_is_rational P (methods P B (S (S n))) x s
               = (Ret TTrue, s')).
  { cbn [methods self_is_rational]. now apply tower_rational. }
  assert (Hr : self_is_real P (methods P B (S (S (S n)))) x s
               = (Ret TTrue, s')).
  { cbn [methods self_is_real]. now apply tower_real. }
  repeat split.
  - exact Hq.
  - cbn [methods self_is_algebraic]. now apply tower_algebraic.
  - exact Hr.
  - cbn [methods self_is_complex]. now apply tower_complex.
Qed.

Lemma integers_are_in_every_number_set_witness :
  let self n := methods bare_platform (plain_brain [] []) n in
  let x := app2 Add (Integer 2) (Integer 3) in
  let s := fresh_store default_limits in
  self_is_rational bare_platform (self 3%nat) x s = (Ret TTrue, s) /\
  self_is_algebraic bare_platform (self 3%nat) x s = (Ret TTrue, s) /\
  self_is_real bare_platform (self 4%nat) x s = (Ret TTrue, s) /\
  self_is_complex bare_platform (self 5%nat) x s = (Ret TTrue, s).
Proof.
  apply (integers_are_in_every_number_set bare_platform (plain_brain [] [])
           1 (app2 Add (Integer 2) (Integer 3))).
  reflexivity.
Defined.

(** X16.  In a session without facts and without ground-term
    table, [simple] on an order relation between two integer literals
    returns [True_] or [False_] as the integers compare, for [Less],
    [LessEqual], [Greater] and [GreaterEqual]. *)
Theorem integer_literals_are_compared (P : Platform) (B : Brain) (n : nat)
    (a b : Z) (lim : Limits) :
  inferences B = [] -> expr_db B = [] ->
  fst (run_simple P B (S n) (app2 Less (Integer a) (Integer b))
         (fresh_store lim))
  = Ret (if a <? b then True_ else False_) /\
  fst (run_simple P B (S n) (app2 LessEqual (Integer a) (Integer b))
         (fresh_store lim))
  = Ret (if a <=? b then True_ else False_) /\
  fst (run_simple P B (S n) (app2 Greater (Integer a) (Integer b))
         (fresh_store lim))
  = Ret (if b <? a then True_ else False_) /\
  fst (run_simple P B (S n) (app2 GreaterEqual (Integer a) (Integer b))
         (fresh_store lim))
  = Ret (if b <=? a then True_ else False_).
Proof.
  intros Hinf Hdb. unfold run_simple. repeat split.
  - now rewrite (simple_Less_run P B n Hinf Hdb).
  - now rewrite (simple_LessEqual_run P B n Hinf Hdb).
  - rewrite (simple_Greater_run P B n Hinf Hdb) by reflexivity.
    cbn [fst]. now rewrite Z.gtb_ltb.
  - rewrite (simple_GreaterEqual_run P B n Hinf Hdb) by reflexivity.
    cbn [fst]. now rewrite Z.geb_leb.
Qed.

Lemma integer_literals_are_compared_witness :
  let run e :=
    fst (run_simple bare_platform (plain_brain [] []) 1 e
           (fresh_store default_limits)) in
  run (app2 Less (Integer 2) (Integer 5)) = Ret True_ /\
  run (app2 LessEqual (Integer 2) (Integer 5)) = Ret True_ /\
  run (app2 Greater (Integer 2) (Integer 5)) = Ret False_ /\
  run (app2 GreaterEqual (Integer 2) (Integer 5)) = Ret False_.
Proof.
  apply (integer_literals_are_compared bare_platform (plain_brain [] []) 0
           2 5 default_limits); reflexivity.
Defined.

(** X17.  In a session without facts and without ground-term
    table, [element] decides membership of an integer literal in
    [Range(a, b)], [ZZGreaterEqual(a)] and [ZZLessEqual(b)] with integer
    literal bounds: the answer is never unknown and is [True] exactly
    when the integer lies within the bounds. *)
Theorem integer_ranges_are_decided (P : Platform) (B : Brain) (n : nat)
    (v a b : Z) (lim : Limits) :
  inferences B = [] -> expr_db B = [] ->
  fst (run_element P B (S (S n)) (Integer v)
         (app2 Range (Integer a) (Integer b)) (fresh_store lim))
  = Ret (Some ((a <=? v) && (v <=? b))) /\
  fst (run_element P B (S (S n)) (Integer v)
         (app1 ZZGreaterEqual (Integer a)) (fresh_store lim))
  = Ret (Some (a <=? v)) /\
  fst (run_element P B (S (S n)) (Integer v)
         (app1 ZZLessEqual (Integer b)) (fresh_store lim))
  = Ret (Some (v <=? b)).
Proof.
  intros Hinf Hdb. unfold run_element, app1, app2. repeat split.
  - now apply element_Range_literals.
  - now apply element_ZZGreaterEqual_literals.
  - now apply element_ZZLessEqual_literals.
Qed.

Lemma integer_ranges_are_decided_witness :
  let run dom :=
    fst (run_element bare_platform (plain_brain [] []) 2 (Integer 4) dom
           (fresh_store default_limits)) in
  run (app2 Range (Integer 1) (Integer 3)) = Ret TFalse /\
  run (app1 ZZGreaterEqual (Integer 1)) = Ret TTrue /\
  run (app1 ZZLessEqual (Integer 3)) = Ret TFalse.
Proof.
  apply (integer_ranges_are_decided bare_platform (plain_brain [] []) 0
           4 1 3 default_limits); reflexivity.
Defined.

(** X18.  On an integer literal [v] and the set [PP], when
    no fact settles the question, [element] answers [True] or [False]
    for [v <= 20], and the answer is [True] exactly when [v] is a prime
    number; for [v > 20] the answer is unknown.  The session is left as
    it was. *)
Theorem primes_are_recognised_up_to_twenty (P : Platform) (B : Brain)
    (n : nat) (v : Z) (s : Store) :
  inferences B = [] ->
  (v <= 20 ->
   exists b : bool,
     (b = true <-> Z.prime v) /\
     run_element P B (S n) (Integer v) PP s = (Ret (Some b), s)) /\
  (20 < v -> run_element P B (S n) (Integer v) PP s = (Ret Unknown, s)).
Proof.
  intros Hinf.
  assert (H : run_element P B (S n) (Integer v) PP s
              = (Ret (if v <=? 20
                      then Some (existsb (Z.eqb v)
                                   [2; 3; 5; 7; 11; 13; 17; 19])
                      else Unknown), s)).
  { unfold run_element, element. rewrite !(known_nil B _ Hinf).
    heads. mrun.
    change (self_is_integer P (methods P B (S n)) (Integer v) s)
      with (@Ret tern TTrue, s).
    cbv beta iota. cbn [truthy TTrue negb]. cbv beta iota.
    destruct (v <=? 20); reflexivity. }
  split.
  - intros Hv. exists (existsb (Z.eqb v) [2; 3; 5; 7; 11; 13; 17; 19]).
    split; [now apply primes_to_twenty |].
    rewrite H. apply Z.leb_le in Hv. now rewrite Hv.
  - intros Hv. rewrite H. apply Z.leb_gt in Hv. now rewrite Hv.
Qed.

Lemma primes_are_recognised_up_to_twenty_witness :
  (exists b : bool,
     (b = true <-> Z.prime 9) /\
     run_element bare_platform (plain_brain [] []) 1 (Integer 9) PP
       (fresh_store default_limits)
     = (Ret (Some b), fresh_store default_limits)).
Proof.
  apply (primes_are_recognised_up_to_twenty bare_platform
           (plain_brain [] []) 0 9 (fresh_store default_limits)).
  - reflexivity.
  - lia.
Defined.

(** X19.  On integer literals, membership in a set display
    is decided exactly: when no fact settles the question,
    [element(v, Set(a1, ..., ak))] with integer literals [v], [a1], ...,
    [ak] answers [True] if [v] is one of the [ai] and [False] otherwise
    (so [False] for the empty display), and leaves the session as it
    was. *)
Theorem integer_set_display_is_decided (P : Platform) (B : Brain)
    (n : nat) (v : Z) (l : list Z) (s : Store) :
  inferences B = [] ->
  run_element P B (S n) (Integer v) (Call Set_ (map Integer l)) s
  = (Ret (Some (existsb (Z.eqb v) l)), s).
Proof. intros Hinf. now apply element_Set_literals. Qed.

Lemma integer_set_display_is_decided_witness :
  run_element bare_platform (plain_brain [] []) 1 (Integer 3)
    (Call Set_ (map Integer [1; 3; 5])) (fresh_store default_limits)
  = (Ret (Some (existsb (Z.eqb 3) [1; 3; 5])), fresh_store default_limits).
Proof.
  apply (integer_set_display_is_decided bare_platform (plain_brain [] []) 0
           3 [1; 3; 5] (fresh_store default_limits)).
  reflexivity.
Defined.

(** X20.  In a session without facts and without ground-term
    table, [simple] cancels a double negation of an atom: on
    [Neg(Neg(a))] with [a] a symbol, an integer or a string it returns
    [a]; on [Neg(v)] with [v] an integer literal it returns the literal
    of [-v]. *)
Theorem double_negation_of_an_atom (P : Platform) (B : Brain) (n : nat)
    (a : Expr) (v : Z) (lim : Limits) :
  inferences B = [] -> expr_db B = [] -> is_atom a = true ->
  fst (run_simple P B (S (S n)) (app1 Neg (app1 Neg a)) (fresh_store lim))
  = Ret a /\
  fst (run_simple P B (S n) (app1 Neg (Integer v)) (fresh_store lim))
  = Ret (Integer (- v)).
Proof.
  intros Hinf Hdb Ha. unfold run_simple. split.
  - now apply simple_Neg_Neg_atom.
  - now rewrite (simple_Neg_atom P B n Hinf Hdb (Integer v)).
Qed.

Lemma double_negation_of_an_atom_witness :
  fst (run_simple bare_platform (plain_brain [] []) 2
         (app1 Neg (app1 Neg (Symbol "x"))) (fresh_store default_limits))
  = Ret (Symbol "x") /\
  fst (run_simple bare_platform (plain_brain [] []) 1
         (app1 Neg (Integer 7)) (fresh_store default_limits))
  = Ret (Integer (- 7)).
Proof.
  apply (double_negation_of_an_atom bare_platform (plain_brain [] []) 0
           (Symbol "x") 7 default_limits); reflexivity.
Defined.

(* ================================================================== *)
(** * brain.py: propositional formulas *)

Lemma formula_Call s l :
  formula (Call (Symbol s) l)
  = (String.eqb s "And" || String.eqb s "Or"
     || (String.eqb s "Not" && (List.length l =? 1)%nat)
     || (String.eqb s "Implies" && (List.length l =? 2)%nat))
    && forallb formula l.
Proof. reflexivity. Qed.

Lemma value_And l : value (Call And l) = forallb value l.
Proof. reflexivity. Qed.

Lemma value_Or l : value (Call Or l) = existsb value l.
Proof. reflexivity. Qed.

Lemma formula_head h l : formula (Call h l) = true -> is_symbol h = true.
Proof. destruct h; [reflexivity | discriminate ..]. Qed.

Lemma literals_have_False l :
  Expr_in False_ (map (fun a => literal (value a)) l)
  = negb (forallb value l).
Proof.
  unfold Expr_in. induction l as [| x r IH]; [reflexivity |].
  cbn [map existsb forallb]. rewrite IH. now destruct (value x).
Qed.

Lemma literals_have_True l :
  Expr_in True_ (map (fun a => literal (value a)) l) = existsb value l.
Proof.
  unfold Expr_in. induction l as [| x r IH]; [reflexivity |].
  cbn [map existsb]. rewrite IH. now destruct (value x).
Qed.

Lemma literals_all_True l :
  forallb value l = true ->
  filter (fun arg => arg != True_) (map (fun a => literal (value a)) l) = [].
Proof.
  induction l as [| x r IH]; [reflexivity |].
  cbn [map forallb filter]. intros H. apply andb_true_iff in H as [Hx Hr].
  rewrite Hx. cbn. now apply IH.
Qed.

Lemma literals_all_False l :
  existsb value l = false ->
  filter (fun arg => arg != False_) (map (fun a => literal (value a)) l) = [].
Proof.
  induction l as [| x r IH]; [reflexivity |].
  cbn [map existsb filter]. intros H. apply orb_false_iff in H as [Hx Hr].
  rewrite Hx. cbn. now apply IH.
Qed.

Section LogicRules.

Context (P : Platform) (self : Self P).

Lemma simple_And_literals l s s2 :
  simple_args P self l s = (Ret (map (fun a => literal (value a)) l), s2) ->
  simple_And P self l s = (Ret (literal (forallb value l)), s2).
Proof.
  intros H. unfold simple_And. unfold bind at 1. rewrite H.
  rewrite literals_have_False.
  destruct (forallb value l) eqn:E; cbn [negb]; [| reflexivity].
  cbv zeta. now rewrite literals_all_True.
Qed.

Lemma simple_Or_literals l s s2 :
  simple_args P self l s = (Ret (map (fun a => literal (value a)) l), s2) ->
  simple_Or P self l s = (Ret (literal (existsb value l)), s2).
Proof.
  intros H. unfold simple_Or. unfold bind at 1. rewrite H.
  rewrite literals_have_True.
  destruct (existsb value l) eqn:E; [reflexivity |].
  cbv zeta. now rewrite literals_all_False.
Qed.

Lemma simple_Not_literals x s s2 :
  simple_args P self [x] s = (Ret [literal (value x)], s2) ->
  simple_Not P self x s = (Ret (literal (negb (value x))), s2).
Proof.
  unfold simple_args. cbn [mapM]. unfold bind at 1.
  destruct (self_simple P self x s) as [[r | e | r] s1] eqn:E;
    [| discriminate ..].
  cbv [bind ret]. intros [= -> ->].
  unfold simple_Not. unfold bind at 1. rewrite E.
  destruct (value x); reflexivity.
Qed.

Lemma simple_Implies_literals p q s s2 :
  simple_args P self [p; q] s
  = (Ret [literal (value p); literal (value q)], s2) ->
  simple_Implies P self [p; q] s
  = (Ret (literal (implb (value p) (value q))), s2).
Proof.
  intros H. unfold simple_Implies. unfold bind at 1. rewrite H.
  destruct (value p), (value q); reflexivity.
Qed.

End LogicRules.

Section Formulas.

Context (P : Platform) (B : Brain).
Hypothesis Hinf : inferences B = [].
Hypothesis Hdb : expr_db B = [].

Lemma simple_args_formula (f : nat) (l : list Expr) :
  Forall (fun t =>
            forall fuel s,
              formula t = true -> (height t <= fuel)%nat ->
              cache_valued (simple_cache s) ->
              (forall k, pending (simple_cache s) k ->
                         (height t < height k)%nat) ->
              exists s',
                simple P B (methods P B fuel) t s
                = (Ret (literal (value t)), s')
                /\ cache_valued (simple_cache s')
                /\ (forall k, pending (simple_cache s') k
                              <-> pending (simple_cache s) k)) l ->
  forall s,
    forallb formula l = true ->
    (forall a, In a l -> (height a <= f)%nat) ->
    cache_valued (simple_cache s) ->
    (forall k a, pending (simple_cache s) k -> In a l ->
                 (height a < height k)%nat) ->
    exists s',
      mapM (simple P B (methods P B f)) l s
      = (Ret (map (fun a => literal (value a)) l), s')
      /\ cache_valued (simple_cache s')
      /\ (forall k, pending (simple_cache s') k <-> pending (simple_cache s) k).
Proof.
  induction 1 as [| x r Hx _ IHr]; intros s Hrf Hh Hd Hp.
  - exists s. repeat split; auto.
  - cbn [forallb] in Hrf. apply andb_true_iff in Hrf as [Hrx Hrr].
    destruct (Hx f s Hrx) as [s1 [E1 [Hd1 Hp1]]].
    { apply Hh. now left. }
    { exact Hd. }
    { intros k Hk. apply (Hp k x Hk). now left. }
    destruct (IHr s1 Hrr) as [s2 [E2 [Hd2 Hp2]]].
    { intros a Ha. apply Hh. now right. }
    { exact Hd1. }
    { intros k a Hk Ha. apply (Hp k a); [now apply Hp1 | now right]. }
    exists s2. cbn [mapM map]. mrun. rewrite E1, E2.
    repeat split; auto.
    + intros Hk. apply Hp1. now apply Hp2.
    + intros Hk. apply Hp2. now apply Hp1.
Qed.

Lemma formula_rule s0 l f :
  formula (Call (Symbol s0) l) = true ->
  exists F,
    simple_attr P B (methods P B (S f)) s0 = Method F /\
    forall s s2,
      mapM (simple P B (methods P B f)) l s
      = (Ret (map (fun a => literal (value a)) l), s2) ->
      F l s = (Ret (literal (value (Call (Symbol s0) l))), s2).
Proof.
  rewrite formula_Call. intros H. apply andb_true_iff in H as [H _].
  destruct (String.eqb s0 "And") eqn:EA.
  { apply String.eqb_eq in EA. subst s0.
    eexists. split; [reflexivity |]. intros s s2 E.
    change (value (Call (Symbol "And") l)) with (forallb value l).
    apply simple_And_literals. exact E. }
  destruct (String.eqb s0 "Or") eqn:EO.
  { apply String.eqb_eq in EO. subst s0.
    eexists. split; [reflexivity |]. intros s s2 E.
    change (value (Call (Symbol "Or") l)) with (existsb value l).
    apply simple_Or_literals. exact E. }
  destruct (String.eqb s0 "Not") eqn:EN.
  { apply String.eqb_eq in EN. subst s0. cbn in H.
    destruct l as [| x [| y r]]; try discriminate.
    eexists. split; [reflexivity |]. intros s s2 E.
    cbn [call1]. apply simple_Not_literals. exact E. }
  cbn [orb andb] in H. apply andb_true_iff in H as [EI Hl].
  apply String.eqb_eq in EI. subst s0.
  destruct l as [| p [| q [| y r]]]; try discriminate.
  eexists. split; [reflexivity |]. intros s s2 E.
  apply simple_Implies_literals. exact E.
Qed.

Lemma simple_formula (t : Expr) :
  forall fuel s,
    formula t = true -> (height t <= fuel)%nat ->
    cache_valued (simple_cache s) ->
    (forall k, pending (simple_cache s) k -> (height t < height k)%nat) ->
    exists s',
      simple P B (methods P B fuel) t s = (Ret (literal (value t)), s')
      /\ cache_valued (simple_cache s')
      /\ (forall k, pending (simple_cache s') k <-> pending (simple_cache s) k).
Proof.
  induction t as [n | z | n | h l IHh IHl] using Expr_ind';
    intros fuel s Hf Hh Hd Hp; try discriminate.
  - exists s. rewrite simple_atom by (now apply known_nil || reflexivity).
    repeat split; auto. f_equal. cbn [formula] in Hf. cbn [value].
    destruct (String.eqb n "True_") eqn:E.
    + apply String.eqb_eq in E. now subst n.
    + cbn [orb] in Hf. apply String.eqb_eq in Hf. now subst n.
  - pose proof (formula_head _ _ Hf) as Hs.
    destruct h as [s0 | | |]; try discriminate. clear Hs IHh.
    assert (Hk : known B (Call (Symbol s0) l) = false)
      by now apply known_nil.
    destruct (dict_get (simple_cache s) (Call (Symbol s0) l))
      as [[v |] |] eqn:Hc.
    + exists s. rewrite (simple_cached _ _ _ _ _ _ _ Hk Hc).
      rewrite (Hd _ _ Hc Hf). repeat split; auto.
    + apply Hp in Hc. lia.
    + destruct fuel as [| f]; [cbn [height] in Hh; lia |].
      destruct (formula_rule s0 l f Hf) as [F [HF Hrun]].
      assert (Hl : forallb formula l = true).
      { rewrite formula_Call in Hf. now apply andb_true_iff in Hf. }
      destruct (simple_args_formula f l IHl
                  (snd (cache_set (Call (Symbol s0) l) None s)) Hl)
        as [s2 [E2 [Hd2 Hp2]]].
      { intros a Ha. pose proof (height_arg (Symbol s0) l a Ha). lia. }
      { cbn [cache_set snd simple_cache]. intros k v. rewrite dict_get_set.
        destruct (Expr_eqb _ k); [discriminate | apply Hd]. }
      { cbn [cache_set snd simple_cache]. intros k a Hpk Ha.
        pose proof (height_arg (Symbol s0) l a Ha) as Hlt.
        unfold pending in Hpk. rewrite dict_get_set in Hpk.
        destruct (Expr_eqb _ k) eqn:Ek.
        - apply Expr_eqb_eq in Ek. now subst k.
        - apply Hp in Hpk. lia. }
      rewrite (simple_method P B _ s0 l F s _ s2 Hdb Hk Hc HF
                 (Hrun _ _ E2)).
      eexists. split; [reflexivity |].
      cbn [cache_set snd simple_cache] in *. split.
      * intros k v. rewrite dict_get_set.
        destruct (Expr_eqb _ k) eqn:Ek; [| apply Hd2].
        intros [= <-] _. apply Expr_eqb_eq in Ek. now subst k.
      * intros k. unfold pending. rewrite dict_get_set.
        destruct (Expr_eqb _ k) eqn:Ek.
        -- apply Expr_eqb_eq in Ek. subst k. rewrite Hc. split; discriminate.
        -- specialize (Hp2 k). unfold pending in Hp2.
           rewrite dict_get_set, Ek in Hp2. exact Hp2.
Qed.

End Formulas.

(** X21.  [simple] evaluates propositional formulas: in a new
    session without facts and without ground-term table, on a term built
    from [True_] and [False_] with [And] and [Or] of any number of
    arguments, [Not] of one and [Implies] of two, [simple] returns
    [True_] or [False_] according to the truth value of the formula,
    provided the nesting depth of the term is within the recursion
    budget. *)
Theorem simple_evaluates_formulas (P : Platform) (B : Brain) (fuel : nat)
    (t : Expr) (lim : Limits) :
  inferences B = [] -> expr_db B = [] ->
  formula t = true -> (height t <= fuel)%nat ->
  fst (run_simple P B fuel t (fresh_store lim)) = Ret (literal (value t)).
Proof.
  intros Hinf Hdb Hf Hh. unfold run_simple.
  destruct (simple_formula P B Hinf Hdb t fuel (fresh_store lim) Hf Hh)
    as [s' [E _]].
  - intros k v Hc. discriminate Hc.
  - intros k Hc. discriminate Hc.
  - now rewrite E.
Qed.

Lemma simple_evaluates_formulas_witness :
  fst (run_simple bare_platform (plain_brain [] []) 3
         (app2 Implies (app2 And True_ (app1 Not False_))
            (Call Or [False_; False_; False_]))
         (fresh_store default_limits))
  = Ret False_.
Proof.
  apply (simple_evaluates_formulas bare_platform (plain_brain [] []) 3
           (app2 Implies (app2 And True_ (app1 Not False_))
              (Call Or [False_; False_; False_]))
           default_limits).
  - reflexivity.
  - reflexivity.
  - reflexivity.
  - cbn. lia.
Defined.

(* ================================================================== *)
(** * brain.py: custom_cartesian *)

Lemma range_In n i : In i (range n) <-> 0 <= i < n.
Proof.
  unfold range. rewrite in_map_iff. split.
  - intros [k [<- Hk]]. apply in_seq in Hk. lia.
  - intros H. exists (Z.to_nat i). split; [lia |]. apply in_seq. lia.
Qed.

Lemma within_spec i n : within i n = true <-> 0 <= i < n.
Proof. unfold within. rewrite andb_true_iff, Z.leb_le, Z.ltb_lt. tauto. Qed.

Lemma item_In {T} (l : list T) i x : item l i = Some x -> In x l.
Proof. unfold item. apply nth_error_In. Qed.

Lemma pick_members {T} (lists : list (list T)) :
  forall pos t, In t (pick lists pos) -> Forall2 (@In T) t lists.
Proof.
  induction lists as [| l ls IH]; intros [| i is_] t H; cbn [pick] in H.
  - destruct H as [<- | []]. constructor.
  - destruct H.
  - destruct H.
  - destruct (item l i) as [x |] eqn:E; [| destruct H].
    apply in_map_iff in H as [t' [<- H]].
    constructor; [now apply item_In in E | now apply IH in H].
Qed.

Lemma product_members {T} (lists : list (list T)) t :
  In t (product lists) <-> Forall2 (@In T) t lists.
Proof.
  revert t. induction lists as [| l ls IH]; intros t; cbn [product].
  - split.
    + intros [<- | []]. constructor.
    + intros H. inversion H. now left.
  - rewrite in_flat_map. split.
    + intros [x [Hx H]]. apply in_map_iff in H as [t' [<- H]].
      constructor; [exact Hx | now apply IH].
    + intros H. inversion H as [| x l' t' ls' Hx Ht]; subst.
      exists x. split; [exact Hx |]. apply in_map. now apply IH.
Qed.

Lemma custom_cartesian_members {T} (lists : list (list T)) t :
  In t (custom_cartesian lists) -> Forall2 (@In T) t lists.
Proof.
  destruct lists as [| l0 [| l1 [| l2 [| l3 [| l4 r]]]]];
    unfold custom_cartesian; cbv zeta; intros H;
    try (now apply product_members).
  - apply in_flat_map in H as [N [_ H]].
    apply in_flat_map in H as [i [_ H]].
    destruct (_ && _); [now apply pick_members in H | destruct H].
  - apply in_flat_map in H as [N [_ H]].
    apply in_flat_map in H as [i [_ H]].
    apply in_flat_map in H as [j [_ H]].
    destruct (_ && _); [now apply pick_members in H | destruct H].
  - apply in_flat_map in H as [N [_ H]].
    apply in_flat_map in H as [i [_ H]].
    apply in_flat_map in H as [j [_ H]].
    apply in_flat_map in H as [k [_ H]].
    destruct (_ && _); [now apply pick_members in H | destruct H].
Qed.

Lemma custom_cartesian_pairs {T} (l0 l1 : list T) t :
  In t (custom_cartesian [l0; l1]) <->
  exists (a b : nat) (x y : T),
    t = [x; y] /\ nth_error l0 a = Some x /\ nth_error l1 b = Some y /\
    (a + b < Nat.max (List.length l0) (List.length l1))%nat.
Proof.
  unfold custom_cartesian. cbv zeta. rewrite in_flat_map. split.
  - intros [N [HN H]]. apply in_flat_map in H as [i [Hi H]].
    apply range_In in HN, Hi.
    destruct (within i (len l0) && within (N - i) (len l1)) eqn:G;
      [| destruct H].
    apply andb_true_iff in G as [Ga Gb].
    apply within_spec in Ga, Gb.
    cbn [pick] in H. unfold item in H.
    destruct (nth_error l0 (Z.to_nat i)) as [x |] eqn:Ex; [| destruct H].
    destruct (nth_error l1 (Z.to_nat (N - i))) as [y |] eqn:Ey;
      [| destruct H].
    cbn [map] in H. destruct H as [<- | []].
    exists (Z.to_nat i), (Z.to_nat (N - i)), x, y.
    repeat split; auto. unfold len in *. lia.
  - intros [a [b [x [y [-> [Ex [Ey Hs]]]]]]].
    assert (Ha : (a < List.length l0)%nat)
      by (apply nth_error_Some; congruence).
    assert (Hb : (b < List.length l1)%nat)
      by (apply nth_error_Some; congruence).
    exists (Z.of_nat (a + b)). split.
    { apply range_In. unfold len. lia. }
    apply in_flat_map. exists (Z.of_nat a). split.
    { apply range_In. lia. }
    replace (Z.of_nat (a + b) - Z.of_nat a) with (Z.of_nat b) by lia.
    replace (within (Z.of_nat a) (len l0)) with true
      by (symmetry; apply within_spec; unfold len; lia).
    replace (within (Z.of_nat b) (len l1)) with true
      by (symmetry; apply within_spec; unfold len; lia).
    cbn [andb pick]. unfold item. rewrite !Nat2Z.id, Ex, Ey. now left.
Qed.

(** X22.  [custom_cartesian] never leaves the Cartesian
    product: every tuple it yields has one item of each list, in the
    order of the lists, for any number of lists.  For two lists it does
    not yield the whole product: the pair of the items at positions [a]
    and [b] is yielded exactly when [a + b] is below the larger of the
    two lengths. *)
Theorem custom_cartesian_stays_in_the_product (lists : list (list Expr))
    (l0 l1 : list Expr) (t : list Expr) :
  (In t (custom_cartesian lists) -> Forall2 (@In Expr) t lists) /\
  (In t (custom_cartesian [l0; l1]) <->
   exists (a b : nat) (x y : Expr),
     t = [x; y] /\ nth_error l0 a = Some x /\ nth_error l1 b = Some y /\
     (a + b < Nat.max (List.length l0) (List.length l1))%nat).
Proof.
  split; [apply custom_cartesian_members | apply custom_cartesian_pairs].
Qed.

(* ================================================================== *)
(** * brain.py: interleave_longest *)

Lemma nth_error_skipn {T} (l : list T) k :
  nth_error l k = hd_error (skipn k l).
Proof.
  revert l. induction k as [| k IH]; intros [| x l]; try reflexivity.
  cbn [nth_error skipn]. apply IH.
Qed.

Lemma skipn_tl {T} (l : list T) k : skipn (S k) l = tl (skipn k l).
Proof.
  revert l. induction k as [| k IH]; intros [| x l]; try reflexivity.
  cbn [skipn] in *. apply IH.
Qed.

Lemma interleave_from {T} (ls : list (list T)) n k :
  flat_map (fun x => match x with Some v => [v] | None => [] end)
    (flat_map (fun i => map (fun l => nth_error l i) ls) (seq k n))
  = rounds n (map (skipn k) ls).
Proof.
  revert k ls. induction n as [| n IH]; intros k ls; [reflexivity |].
  cbn [seq flat_map rounds]. rewrite flat_map_app. f_equal.
  - unfold fronts. clear IH.
    induction ls as [| l r IHr]; [reflexivity |].
    cbn [map flat_map]. rewrite IHr. f_equal.
    rewrite nth_error_skipn. destruct (skipn k l); reflexivity.
  - rewrite IH. f_equal. rewrite map_map. apply map_ext.
    intros l. apply skipn_tl.
Qed.

Lemma fronts_tails {T} (ls : list (list T)) :
  Permutation (List.concat ls) (fronts ls ++ List.concat (map (@tl T) ls)).
Proof.
  induction ls as [| l r IH]; [constructor |].
  cbn [List.concat map]. unfold fronts. cbn [flat_map]. fold (fronts r).
  destruct l as [| x l]; cbn [tl app]; [exact IH |].
  constructor. rewrite IH. apply Permutation_app_swap_app.
Qed.

Lemma rounds_all {T} n (ls : list (list T)) :
  (forall l, In l ls -> (List.length l <= n)%nat) ->
  Permutation (rounds n ls) (List.concat ls).
Proof.
  revert ls. induction n as [| n IH]; intros ls H.
  - cbn [rounds]. induction ls as [| l r IHr]; [constructor |].
    cbn [List.concat]. assert (l = []) as ->.
    { specialize (H l (or_introl eq_refl)). destruct l; [reflexivity |].
      cbn in H. lia. }
    apply IHr. intros l Hl. apply H. now right.
  - cbn [rounds]. rewrite fronts_tails. apply Permutation_app_head.
    apply IH. intros l Hl. apply in_map_iff in Hl as [l' [<- Hl]].
    specialize (H l' Hl). destruct l'; cbn in *; lia.
Qed.

Lemma max_length_bound {T} (ls : list (list T)) l :
  In l ls ->
  (List.length l <= fold_right Nat.max 0 (map (@List.length T) ls))%nat.
Proof.
  induction ls as [| x r IH]; [intros [] |].
  intros [-> | H]; cbn [map fold_right]; [lia |].
  specialize (IH H). lia.
Qed.

Lemma interleave_rounds {T} (ls : list (list T)) :
  interleave_longest ls
  = rounds (fold_right Nat.max 0%nat (map (@List.length T) ls)) ls.
Proof.
  unfold interleave_longest, zip_longest_chained.
  rewrite interleave_from. f_equal. rewrite <- (map_id ls) at 2.
  apply map_ext. reflexivity.
Qed.

(** X23.  [interleave_longest] loses and adds nothing: the
    list it returns is a rearrangement of the concatenation of its
    arguments, for any number of lists of any lengths; it starts with
    the first items of the non-empty arguments, in the order of the
    arguments. *)
Theorem interleave_longest_rearranges (iterables : list (list Expr)) :
  Permutation (interleave_longest iterables) (List.concat iterables) /\
  firstn (List.length (fronts iterables)) (interleave_longest iterables)
  = fronts iterables.
Proof.
  rewrite interleave_rounds. split.
  - apply rounds_all. apply max_length_bound.
  - destruct (fold_right Nat.max 0%nat
                (map (@List.length Expr) iterables)) as [| n] eqn:E.
    + assert (H : fronts iterables = []).
      { unfold fronts. clear - E.
        induction iterables as [| l r IH]; [reflexivity |].
        cbn [map fold_right] in E. cbn [flat_map].
        destruct l as [| x l]; [| cbn [List.length] in E; lia].
        apply IH. cbn [List.length] in E. lia. }
      rewrite H. reflexivity.
    + cbn [rounds]. rewrite firstn_app, Nat.sub_diag, firstn_all.
      cbn [firstn]. apply app_nil_r.
Qed.
